(** * ScriptObject: the migration-task descriptor of the data-move utility

    A shallow embedding of [src/modules/models/script_models/scriptObject.ts].
    The class is stateful and throws: its methods are written in a small
    state-and-exception monad over the descriptor record, in which a thrown
    exception keeps the mutations made before it (as in JavaScript).

    Collaborators that are not part of the class (the SOQL parser and
    composer, the metadata client, the constant tables of [statics] and the
    complex-field helpers of [Common]) are section variables: every theorem
    holds for all of them.

    Layout: primitives and data model; the monad; the class, method by
    method; the closed forms of what the methods compute; the lemmas and the
    properties C1 to C10; examples on a small instance of the collaborators. *)

From Stdlib Require Import String Ascii List Bool Arith Lia.
Import ListNotations.
Open Scope string_scope.
Open Scope list_scope.


(* ------------------------------------------------------------------ *)
(** ** JavaScript string and array primitives used by the class *)

(** [String.prototype.toLowerCase], on the ASCII letters (bytes above 127,
    the UTF-8 encoding of other characters, are left as they are). *)
Definition lowerAscii (c : ascii) : ascii :=
  let n := nat_of_ascii c in
  if ((65 <=? n) && (n <=? 90))%nat then ascii_of_nat (n + 32) else c.

Fixpoint toLowerCase (s : string) : string :=
  match s with
  | EmptyString => EmptyString
  | String c r => String (lowerAscii c) (toLowerCase r)
  end.

(** [s.split(sep)] for a one-character separator. *)
Fixpoint split (sep : ascii) (s : string) : list string :=
  match s with
  | EmptyString => [EmptyString]
  | String c r =>
      if Ascii.eqb c sep then EmptyString :: split sep r
      else match split sep r with
           | [] => [String c EmptyString]
           | p :: ps => String c p :: ps
           end
  end.

(** [arr.indexOf(x) >= 0] on an array of strings. *)
Definition includes (x : string) (arr : list string) : bool :=
  existsb (String.eqb x) arr.

(* ------------------------------------------------------------------ *)
(** ** Data model *)

(** A field of a parsed query.  [soql-parser-js] is an external library: of a
    field the class reads the [field] property only (the name), and it
    builds a field only with [getComposedField name], which is taken to give
    the field that reads back as [name]. *)
Record SOQLField := { field : string }.

Definition getComposedField (fieldName : string) : SOQLField :=
  {| field := fieldName |}.

(** The parsed query of [soql-parser-js], with the four properties the class
    touches. *)
Record Query := {
  fields : list SOQLField;
  sObject : string;
  where_ : option string;
  limit : option nat
}.

Definition withFields (fs : list SOQLField) (q : Query) : Query :=
  {| fields := fs; sObject := sObject q; where_ := where_ q; limit := limit q |}.

Definition withWhere (w : option string) (q : Query) : Query :=
  {| fields := fields q; sObject := sObject q; where_ := w; limit := limit q |}.

(** Modelled from the spec: the [OPERATION] enum of [statics] is not among the
    sources; the spec lists its members. *)
Inductive OPERATION := Insert | Update | Upsert | Readonly | Delete.

Definition OPERATION_eqb (a b : OPERATION) : bool :=
  match a, b with
  | Insert, Insert | Update, Update | Upsert, Upsert
  | Readonly, Readonly | Delete, Delete => true
  | _, _ => false
  end.

Definition OPERATION_name (o : OPERATION) : string :=
  match o with
  | Insert => "Insert" | Update => "Update" | Upsert => "Upsert"
  | Readonly => "Readonly" | Delete => "Delete"
  end.

Definition OPERATION_ordinal (o : OPERATION) : string :=
  match o with
  | Insert => "0" | Update => "1" | Upsert => "2"
  | Readonly => "3" | Delete => "4"
  end.

Definition OPERATION_members : list OPERATION :=
  [Insert; Update; Upsert; Readonly; Delete].

(** What the [operation] property holds at run time: a member of the enum, a
    string read from the configuration file, or [undefined] (the result of
    indexing the enum with a string that names no member). *)
Inductive OperationValue :=
| OpEnum (o : OPERATION)
| OpString (s : string)
| OpUndefined.

(** [OPERATION[s]]: a TypeScript numeric enum maps a member name to the member
    and the decimal form of a member back to its name. *)
Definition OPERATION_index (s : string) : OperationValue :=
  match find (fun o => OPERATION_name o =? s) OPERATION_members with
  | Some o => OpEnum o
  | None =>
      match find (fun o => OPERATION_ordinal o =? s) OPERATION_members with
      | Some o => OpString (OPERATION_name o)
      | None => OpUndefined
      end
  end.

(** [v == OPERATION.X].  A string compares equal to a member when it converts
    to the member's number; the plain decimal form is the one modelled. *)
Definition operationIs (v : OperationValue) (o : OPERATION) : bool :=
  match v with
  | OpEnum o' => OPERATION_eqb o' o
  | OpString s => s =? OPERATION_ordinal o
  | OpUndefined => false
  end.

Inductive DATA_MEDIA_TYPE := Org | File.

Definition DATA_MEDIA_TYPE_eqb (a b : DATA_MEDIA_TYPE) : bool :=
  match a, b with
  | Org, Org | File, File => true
  | _, _ => false
  end.

(** Keys of the resource strings the class uses. *)
Inductive RESOURCES :=
| MalformedQuery | MalformedDeleteQuery
| gettingMetadataForSObject | source | target
| objectSourceDoesNotExist | objectTargetDoesNotExist
| missingFieldsToProcess | noExternalKey
| fieldSourceDoesNtoExist | fieldTargetDoesNtoExist.

(** A message is kept unformatted: the resource key and its arguments. *)
#[warnings="-register-all"]
Inductive Text :=
| Lit (s : string)
| Res (key : RESOURCES) (args : list Text).

Inductive LogEntry :=
| InfoNormal (key : RESOURCES) (args : list Text)
| Warn (key : RESOURCES) (args : list Text).

(** Exceptions.  [ParseError] is what the SOQL parser throws, [TypeError] a
    property read on [undefined], [ExternalError] any other failure of a
    collaborator. *)
Inductive Error :=
| CommandInitializationError (message : Text)
| OrgMetadataError (message : Text)
| ParseError (detail : string)
| TypeError
| ExternalError (detail : string).

Definition isCommandInitializationError (ex : Error) : bool :=
  match ex with
  | CommandInitializationError _ => true
  | _ => false
  end.

(** The exception as it is interpolated into a resource string. *)
Definition errorText (ex : Error) : Text :=
  match ex with
  | CommandInitializationError m | OrgMetadataError m => m
  | ParseError d | ExternalError d => Lit d
  | TypeError => Lit "TypeError"
  end.

(** A property bag from property name to boolean; a missing key reads as
    [undefined]. *)
Fixpoint assoc (k : string) (l : list (string * bool)) : option bool :=
  match l with
  | [] => None
  | (k', v) :: r => if k' =? k then Some v else assoc k r
  end.

(** Modelled from the spec: [SFieldDescribe] is not among the sources.  Of a
    field descriptor the class reads [name], [lookup],
    [referencedObjectType] and, through [fieldDescribe[prop]], the boolean
    properties the multiselect keywords address. *)
Module SFieldDescribe.

Record t := {
  name : string;
  lookup : bool;
  referencedObjectType : string;
  flags : list (string * bool)
}.

(** [fieldDescribe[prop]]; [None] is [undefined]. *)
Definition get (fd : t) (prop : string) : option bool :=
  if prop =? "lookup" then Some (lookup fd) else assoc prop (flags fd).

End SFieldDescribe.

(** Modelled from the spec: [SObjectDescribe] is not among the sources.  Its
    [fieldsMap] is a JavaScript [Map] from field name to descriptor, iterated
    in insertion order. *)
Record SObjectDescribe := {
  fieldsMap : list (string * SFieldDescribe.t)
}.

Definition fieldsMap_has (d : SObjectDescribe) (key : string) : bool :=
  includes key (map fst (fieldsMap d)).

Definition fieldsMap_values (d : SObjectDescribe) : list SFieldDescribe.t :=
  map snd (fieldsMap d).

Record ScriptOrg := { orgName : string; media : DATA_MEDIA_TYPE }.

(** Modelled from the spec: [Script], the owning job context, is not among
    the sources.  [objectsMap] is the name-keyed registry restricted to the
    names bound to this descriptor; [logger] collects what was logged. *)
Record Script := {
  sourceOrg : ScriptOrg;
  targetOrg : ScriptOrg;
  isPersonAccountEnabled : bool;
  objectsMap : list string;
  logger : list LogEntry
}.

Definition logger_log (e : LogEntry) (sc : Script) : Script :=
  {| sourceOrg := sourceOrg sc; targetOrg := targetOrg sc;
     isPersonAccountEnabled := isPersonAccountEnabled sc;
     objectsMap := objectsMap sc; logger := logger sc ++ [e] |}.

Definition objectsMap_set (key : string) (sc : Script) : Script :=
  {| sourceOrg := sourceOrg sc; targetOrg := targetOrg sc;
     isPersonAccountEnabled := isPersonAccountEnabled sc;
     objectsMap := if includes key (objectsMap sc) then objectsMap sc
                   else objectsMap sc ++ [key];
     logger := logger sc |}.

(** The multiselect pattern: a JavaScript object used as a map from property
    name to the expected boolean. *)
Definition Pattern := list (string * bool).

Fixpoint pattern_set (k : string) (v : bool) (p : Pattern) : Pattern :=
  match p with
  | [] => [(k, v)]
  | (k', v') :: r => if k' =? k then (k', v) :: r else (k', v') :: pattern_set k v r
  end.

Definition pattern_get (p : Pattern) (k : string) : option bool :=
  assoc k p.

Definition pattern_keys (p : Pattern) : list string := map fst p.

(** The descriptor: the properties of the class, in the order of the source. *)
Record ScriptObject := {
  mockFields : list string;
  query : string;
  deleteQuery : string;
  operation : OperationValue;
  externalId : string;
  deleteOldData : bool;
  updateWithMockData : bool;
  mockCSVData : bool;
  targetRecordsFilter : string;
  excluded : bool;
  useCSVValuesMapping : bool;
  allRecords : bool;
  excludedFields : list string;
  script : option Script;
  name : string;
  sourceSObjectDescribe : option SObjectDescribe;
  targetSObjectDescribe : option SObjectDescribe;
  originalExternalId : string;
  parsedQuery : option Query;
  parsedDeleteQuery : option Query;
  isExtraObject : bool;
  processAllSource : bool;
  processAllTarget : bool;
  multiselectPattern : option Pattern
}.

(** Assignments [this.x = v]. *)
Definition set_query (v : string) (s : ScriptObject) : ScriptObject :=
  {| mockFields := mockFields s; query := v; deleteQuery := deleteQuery s;
     operation := operation s; externalId := externalId s; deleteOldData
     := deleteOldData s; updateWithMockData := updateWithMockData s;
     mockCSVData := mockCSVData s; targetRecordsFilter :=
     targetRecordsFilter s; excluded := excluded s; useCSVValuesMapping :=
     useCSVValuesMapping s; allRecords := allRecords s; excludedFields :=
     excludedFields s; script := script s; name := name s;
     sourceSObjectDescribe := sourceSObjectDescribe s;
     targetSObjectDescribe := targetSObjectDescribe s; originalExternalId
     := originalExternalId s; parsedQuery := parsedQuery s;
     parsedDeleteQuery := parsedDeleteQuery s; isExtraObject :=
     isExtraObject s; processAllSource := processAllSource s;
     processAllTarget := processAllTarget s; multiselectPattern :=
     multiselectPattern s |}.

Definition set_deleteQuery (v : string) (s : ScriptObject) : ScriptObject :=
  {| mockFields := mockFields s; query := query s; deleteQuery := v;
     operation := operation s; externalId := externalId s; deleteOldData
     := deleteOldData s; updateWithMockData := updateWithMockData s;
     mockCSVData := mockCSVData s; targetRecordsFilter :=
     targetRecordsFilter s; excluded := excluded s; useCSVValuesMapping :=
     useCSVValuesMapping s; allRecords := allRecords s; excludedFields :=
     excludedFields s; script := script s; name := name s;
     sourceSObjectDescribe := sourceSObjectDescribe s;
     targetSObjectDescribe := targetSObjectDescribe s; originalExternalId
     := originalExternalId s; parsedQuery := parsedQuery s;
     parsedDeleteQuery := parsedDeleteQuery s; isExtraObject :=
     isExtraObject s; processAllSource := processAllSource s;
     processAllTarget := processAllTarget s; multiselectPattern :=
     multiselectPattern s |}.

Definition set_operation (v : OperationValue) (s : ScriptObject) : ScriptObject :=
  {| mockFields := mockFields s; query := query s; deleteQuery :=
     deleteQuery s; operation := v; externalId := externalId s;
     deleteOldData := deleteOldData s; updateWithMockData :=
     updateWithMockData s; mockCSVData := mockCSVData s;
     targetRecordsFilter := targetRecordsFilter s; excluded := excluded s;
     useCSVValuesMapping := useCSVValuesMapping s; allRecords :=
     allRecords s; excludedFields := excludedFields s; script := script s;
     name := name s; sourceSObjectDescribe := sourceSObjectDescribe s;
     targetSObjectDescribe := targetSObjectDescribe s; originalExternalId
     := originalExternalId s; parsedQuery := parsedQuery s;
     parsedDeleteQuery := parsedDeleteQuery s; isExtraObject :=
     isExtraObject s; processAllSource := processAllSource s;
     processAllTarget := processAllTarget s; multiselectPattern :=
     multiselectPattern s |}.

Definition set_externalId (v : string) (s : ScriptObject) : ScriptObject :=
  {| mockFields := mockFields s; query := query s; deleteQuery :=
     deleteQuery s; operation := operation s; externalId := v;
     deleteOldData := deleteOldData s; updateWithMockData :=
     updateWithMockData s; mockCSVData := mockCSVData s;
     targetRecordsFilter := targetRecordsFilter s; excluded := excluded s;
     useCSVValuesMapping := useCSVValuesMapping s; allRecords :=
     allRecords s; excludedFields := excludedFields s; script := script s;
     name := name s; sourceSObjectDescribe := sourceSObjectDescribe s;
     targetSObjectDescribe := targetSObjectDescribe s; originalExternalId
     := originalExternalId s; parsedQuery := parsedQuery s;
     parsedDeleteQuery := parsedDeleteQuery s; isExtraObject :=
     isExtraObject s; processAllSource := processAllSource s;
     processAllTarget := processAllTarget s; multiselectPattern :=
     multiselectPattern s |}.

Definition set_deleteOldData (v : bool) (s : ScriptObject) : ScriptObject :=
  {| mockFields := mockFields s; query := query s; deleteQuery :=
     deleteQuery s; operation := operation s; externalId := externalId s;
     deleteOldData := v; updateWithMockData := updateWithMockData s;
     mockCSVData := mockCSVData s; targetRecordsFilter :=
     targetRecordsFilter s; excluded := excluded s; useCSVValuesMapping :=
     useCSVValuesMapping s; allRecords := allRecords s; excludedFields :=
     excludedFields s; script := script s; name := name s;
     sourceSObjectDescribe := sourceSObjectDescribe s;
     targetSObjectDescribe := targetSObjectDescribe s; originalExternalId
     := originalExternalId s; parsedQuery := parsedQuery s;
     parsedDeleteQuery := parsedDeleteQuery s; isExtraObject :=
     isExtraObject s; processAllSource := processAllSource s;
     processAllTarget := processAllTarget s; multiselectPattern :=
     multiselectPattern s |}.

Definition set_script (v : option Script) (s : ScriptObject) : ScriptObject :=
  {| mockFields := mockFields s; query := query s; deleteQuery :=
     deleteQuery s; operation := operation s; externalId := externalId s;
     deleteOldData := deleteOldData s; updateWithMockData :=
     updateWithMockData s; mockCSVData := mockCSVData s;
     targetRecordsFilter := targetRecordsFilter s; excluded := excluded s;
     useCSVValuesMapping := useCSVValuesMapping s; allRecords :=
     allRecords s; excludedFields := excludedFields s; script := v; name
     := name s; sourceSObjectDescribe := sourceSObjectDescribe s;
     targetSObjectDescribe := targetSObjectDescribe s; originalExternalId
     := originalExternalId s; parsedQuery := parsedQuery s;
     parsedDeleteQuery := parsedDeleteQuery s; isExtraObject :=
     isExtraObject s; processAllSource := processAllSource s;
     processAllTarget := processAllTarget s; multiselectPattern :=
     multiselectPattern s |}.

Definition set_name (v : string) (s : ScriptObject) : ScriptObject :=
  {| mockFields := mockFields s; query := query s; deleteQuery :=
     deleteQuery s; operation := operation s; externalId := externalId s;
     deleteOldData := deleteOldData s; updateWithMockData :=
     updateWithMockData s; mockCSVData := mockCSVData s;
     targetRecordsFilter := targetRecordsFilter s; excluded := excluded s;
     useCSVValuesMapping := useCSVValuesMapping s; allRecords :=
     allRecords s; excludedFields := excludedFields s; script := script s;
     name := v; sourceSObjectDescribe := sourceSObjectDescribe s;
     targetSObjectDescribe := targetSObjectDescribe s; originalExternalId
     := originalExternalId s; parsedQuery := parsedQuery s;
     parsedDeleteQuery := parsedDeleteQuery s; isExtraObject :=
     isExtraObject s; processAllSource := processAllSource s;
     processAllTarget := processAllTarget s; multiselectPattern :=
     multiselectPattern s |}.

Definition set_sourceSObjectDescribe (v : option SObjectDescribe) (s : ScriptObject) : ScriptObject :=
  {| mockFields := mockFields s; query := query s; deleteQuery :=
     deleteQuery s; operation := operation s; externalId := externalId s;
     deleteOldData := deleteOldData s; updateWithMockData :=
     updateWithMockData s; mockCSVData := mockCSVData s;
     targetRecordsFilter := targetRecordsFilter s; excluded := excluded s;
     useCSVValuesMapping := useCSVValuesMapping s; allRecords :=
     allRecords s; excludedFields := excludedFields s; script := script s;
     name := name s; sourceSObjectDescribe := v; targetSObjectDescribe :=
     targetSObjectDescribe s; originalExternalId := originalExternalId s;
     parsedQuery := parsedQuery s; parsedDeleteQuery := parsedDeleteQuery
     s; isExtraObject := isExtraObject s; processAllSource :=
     processAllSource s; processAllTarget := processAllTarget s;
     multiselectPattern := multiselectPattern s |}.

Definition set_targetSObjectDescribe (v : option SObjectDescribe) (s : ScriptObject) : ScriptObject :=
  {| mockFields := mockFields s; query := query s; deleteQuery :=
     deleteQuery s; operation := operation s; externalId := externalId s;
     deleteOldData := deleteOldData s; updateWithMockData :=
     updateWithMockData s; mockCSVData := mockCSVData s;
     targetRecordsFilter := targetRecordsFilter s; excluded := excluded s;
     useCSVValuesMapping := useCSVValuesMapping s; allRecords :=
     allRecords s; excludedFields := excludedFields s; script := script s;
     name := name s; sourceSObjectDescribe := sourceSObjectDescribe s;
     targetSObjectDescribe := v; originalExternalId := originalExternalId
     s; parsedQuery := parsedQuery s; parsedDeleteQuery :=
     parsedDeleteQuery s; isExtraObject := isExtraObject s;
     processAllSource := processAllSource s; processAllTarget :=
     processAllTarget s; multiselectPattern := multiselectPattern s |}.

Definition set_originalExternalId (v : string) (s : ScriptObject) : ScriptObject :=
  {| mockFields := mockFields s; query := query s; deleteQuery :=
     deleteQuery s; operation := operation s; externalId := externalId s;
     deleteOldData := deleteOldData s; updateWithMockData :=
     updateWithMockData s; mockCSVData := mockCSVData s;
     targetRecordsFilter := targetRecordsFilter s; excluded := excluded s;
     useCSVValuesMapping := useCSVValuesMapping s; allRecords :=
     allRecords s; excludedFields := excludedFields s; script := script s;
     name := name s; sourceSObjectDescribe := sourceSObjectDescribe s;
     targetSObjectDescribe := targetSObjectDescribe s; originalExternalId
     := v; parsedQuery := parsedQuery s; parsedDeleteQuery :=
     parsedDeleteQuery s; isExtraObject := isExtraObject s;
     processAllSource := processAllSource s; processAllTarget :=
     processAllTarget s; multiselectPattern := multiselectPattern s |}.

Definition set_parsedQuery (v : option Query) (s : ScriptObject) : ScriptObject :=
  {| mockFields := mockFields s; query := query s; deleteQuery :=
     deleteQuery s; operation := operation s; externalId := externalId s;
     deleteOldData := deleteOldData s; updateWithMockData :=
     updateWithMockData s; mockCSVData := mockCSVData s;
     targetRecordsFilter := targetRecordsFilter s; excluded := excluded s;
     useCSVValuesMapping := useCSVValuesMapping s; allRecords :=
     allRecords s; excludedFields := excludedFields s; script := script s;
     name := name s; sourceSObjectDescribe := sourceSObjectDescribe s;
     targetSObjectDescribe := targetSObjectDescribe s; originalExternalId
     := originalExternalId s; parsedQuery := v; parsedDeleteQuery :=
     parsedDeleteQuery s; isExtraObject := isExtraObject s;
     processAllSource := processAllSource s; processAllTarget :=
     processAllTarget s; multiselectPattern := multiselectPattern s |}.

Definition set_parsedDeleteQuery (v : option Query) (s : ScriptObject) : ScriptObject :=
  {| mockFields := mockFields s; query := query s; deleteQuery :=
     deleteQuery s; operation := operation s; externalId := externalId s;
     deleteOldData := deleteOldData s; updateWithMockData :=
     updateWithMockData s; mockCSVData := mockCSVData s;
     targetRecordsFilter := targetRecordsFilter s; excluded := excluded s;
     useCSVValuesMapping := useCSVValuesMapping s; allRecords :=
     allRecords s; excludedFields := excludedFields s; script := script s;
     name := name s; sourceSObjectDescribe := sourceSObjectDescribe s;
     targetSObjectDescribe := targetSObjectDescribe s; originalExternalId
     := originalExternalId s; parsedQuery := parsedQuery s;
     parsedDeleteQuery := v; isExtraObject := isExtraObject s;
     processAllSource := processAllSource s; processAllTarget :=
     processAllTarget s; multiselectPattern := multiselectPattern s |}.

Definition set_multiselectPattern (v : option Pattern) (s : ScriptObject) : ScriptObject :=
  {| mockFields := mockFields s; query := query s; deleteQuery :=
     deleteQuery s; operation := operation s; externalId := externalId s;
     deleteOldData := deleteOldData s; updateWithMockData :=
     updateWithMockData s; mockCSVData := mockCSVData s;
     targetRecordsFilter := targetRecordsFilter s; excluded := excluded s;
     useCSVValuesMapping := useCSVValuesMapping s; allRecords :=
     allRecords s; excludedFields := excludedFields s; script := script s;
     name := name s; sourceSObjectDescribe := sourceSObjectDescribe s;
     targetSObjectDescribe := targetSObjectDescribe s; originalExternalId
     := originalExternalId s; parsedQuery := parsedQuery s;
     parsedDeleteQuery := parsedDeleteQuery s; isExtraObject :=
     isExtraObject s; processAllSource := processAllSource s;
     processAllTarget := processAllTarget s; multiselectPattern := v |}.

(* ------------------------------------------------------------------ *)
(** ** The state-and-exception monad of the methods *)

Inductive Outcome (A : Type) :=
| Returned (a : A)
| Thrown (ex : Error).

Arguments Returned {A} a.
Arguments Thrown {A} ex.

(** A method body: from the descriptor before to what it returns or throws,
    and the descriptor after. *)
Definition M (A : Type) : Type := ScriptObject -> Outcome A * ScriptObject.

Definition ret {A} (a : A) : M A := fun s => (Returned a, s).

Definition bind {A B} (m : M A) (k : A -> M B) : M B :=
  fun s => match m s with
           | (Returned a, s') => k a s'
           | (Thrown ex, s') => (Thrown ex, s')
           end.

Definition throw {A} (ex : Error) : M A := fun s => (Thrown ex, s).

Definition get : M ScriptObject := fun s => (Returned s, s).

Definition modify (f : ScriptObject -> ScriptObject) : M unit :=
  fun s => (Returned tt, f s).

(** [try { body } catch (ex) { handler ex }] *)
Definition tryCatch {A} (body : M A) (handler : Error -> M A) : M A :=
  fun s => match body s with
           | (Returned a, s') => (Returned a, s')
           | (Thrown ex, s') => handler ex s'
           end.

(** The result of a call to a collaborator. *)
Definition call {A} (r : Outcome A) : M A := fun s => (r, s).

Declare Scope method_scope.
Delimit Scope method_scope with method.
Notation "x <- c ;; k" := (bind c (fun x => k))
  (at level 61, c at next level, right associativity) : method_scope.
Notation "c ;; k" := (bind c (fun _ => k))
  (at level 61, right associativity) : method_scope.
Open Scope method_scope.

(** [arr.forEach(body)] *)
Fixpoint forEach {A} (arr : list A) (body : A -> M unit) : M unit :=
  match arr with
  | [] => ret tt
  | x :: r => body x ;; forEach r body
  end.

(** A loop that updates a local variable. *)
Fixpoint forEachWith {A L} (arr : list A) (body : L -> A -> M L) (local : L) : M L :=
  match arr with
  | [] => ret local
  | x :: r => l <- body local x ;; forEachWith r body l
  end.

(** [this.script], [this.parsedQuery] and [this.parsedDeleteQuery] read for a
    property access: a [TypeError] when [undefined]. *)
Definition theScript : M Script :=
  s <- get ;;
  match script s with
  | Some sc => ret sc
  | None => throw TypeError
  end.

Definition theParsedQuery : M Query :=
  s <- get ;;
  match parsedQuery s with
  | Some q => ret q
  | None => throw TypeError
  end.

Definition theParsedDeleteQuery : M Query :=
  s <- get ;;
  match parsedDeleteQuery s with
  | Some q => ret q
  | None => throw TypeError
  end.

(** In-place updates of the objects the descriptor refers to. *)
Definition updateScript (f : Script -> Script) : M unit :=
  sc <- theScript ;; modify (set_script (Some (f sc))).

Definition updateParsedQuery (f : Query -> Query) : M unit :=
  q <- theParsedQuery ;; modify (set_parsedQuery (Some (f q))).

Definition updateParsedDeleteQuery (f : Query -> Query) : M unit :=
  q <- theParsedDeleteQuery ;; modify (set_parsedDeleteQuery (Some (f q))).

(** [this.parsedQuery.fields.push(getComposedField(fieldName))] *)
Definition pushField (fieldName : string) : M unit :=
  updateParsedQuery (fun q => withFields (fields q ++ [getComposedField fieldName]) q).

(** A method body leaves a view [f] of the descriptor as it was, whether it
    returns or throws. *)
Definition preserves {X A} (f : ScriptObject -> X) (m : M A) : Prop :=
  forall s, f (snd (m s)) = f s.

(* ------------------------------------------------------------------ *)
(** ** Helpers of [Common] whose behaviour the spec fixes *)

(** Modelled from the spec: [Common.distinctArray] is not among the sources;
    the list is deduplicated by name, keeping the first occurrence of each
    name in its place. *)
Fixpoint distinctArray (arr : list SOQLField) : list SOQLField :=
  match arr with
  | [] => []
  | x :: r => x :: filter (fun y => negb (field y =? field x)) (distinctArray r)
  end.

(** Modelled from the spec: [Common.removeBy] is not among the sources; it
    removes the field of the given name from the array (its first
    occurrence; [_validateFields] calls it once for each occurrence). *)
Fixpoint removeBy (arr : list SOQLField) (value : string) : list SOQLField :=
  match arr with
  | [] => []
  | x :: r => if field x =? value then r else x :: removeBy r value
  end.

(* ------------------------------------------------------------------ *)
(** ** Static members *)

(** [getOperation]: a string is looked up in the enum. *)
Definition getOperation (operation : OperationValue) : OperationValue :=
  match operation with
  | OpString s => OPERATION_index s
  | _ => operation
  end.

(** [getStrOperation]: [OPERATION[operation].toString()] for a non-string,
    a [TypeError] when the lookup gives [undefined]. *)
Definition getStrOperation (operation : OperationValue) : Outcome string :=
  match operation with
  | OpString s => Returned s
  | OpEnum o => Returned (OPERATION_name o)
  | OpUndefined => Thrown TypeError
  end.

(** Loose equality [a == b] between values that are a boolean or
    [undefined]. *)
Definition looseEq (a b : option bool) : bool :=
  match a, b with
  | None, None => true
  | Some x, Some y => Bool.eqb x y
  | _, _ => false
  end.

Definition isUndefined (a : option bool) : bool :=
  match a with None => true | Some _ => false end.

(** The local function [___compare] of [_addOrRemmoveFields]. *)
Definition ___compare (fieldDescribeProperty patternProperty : option bool)
    (negative : bool) : bool :=
  if negb negative
  then looseEq fieldDescribeProperty patternProperty || isUndefined patternProperty
  else negb (looseEq fieldDescribeProperty patternProperty)
       && negb (isUndefined fieldDescribeProperty).

(** [v != "undefined"] for [v] a boolean or [undefined]: neither is loosely
    equal to the string. *)
Definition differsFromUndefinedString (v : option bool) : bool := true.

(** [x.name] for [x] a string: a string has no such property. *)
Definition nameOfString (x : string) : option string := None.

(** [a == b] for [a] a string or [undefined] and [b] a string. *)
Definition looseEqString (a : option string) (b : string) : bool :=
  match a with
  | Some a' => a' =? b
  | None => false
  end.

(* ------------------------------------------------------------------ *)
(** ** An instance of the collaborators

    The theorems are stated for arbitrary collaborators.  The examples below
    the section run the methods, for which they need collaborators that
    compute: a parser and a composer for queries of the shape
    [SELECT f1, f2 FROM Obj WHERE ...], a metadata client over two small
    orgs, and tables and helpers in the style of the tool. *)

Module Example.

Fixpoint commasToSpaces (s : string) : string :=
  match s with
  | EmptyString => EmptyString
  | String c r =>
      String (if Ascii.eqb c "," then " "%char else c) (commasToSpaces r)
  end.

Definition tokens (s : string) : list string :=
  filter (fun t => negb (t =? "")) (split " " (commasToSpaces s)).

(** The tokens before the word [FROM], and those after it. *)
Fixpoint untilFrom (ts : list string) : list string * list string :=
  match ts with
  | [] => ([], [])
  | t :: r =>
      if toLowerCase t =? "from" then ([], r)
      else let (a, b) := untilFrom r in (t :: a, b)
  end.

Definition parseQuery (text : string) : Outcome Query :=
  match tokens text with
  | sel :: r =>
      if toLowerCase sel =? "select" then
        match untilFrom r with
        | (f :: fs, obj :: cond) =>
            Returned {| fields := map getComposedField (f :: fs);
                        sObject := obj;
                        where_ := match cond with
                                  | [] => None
                                  | _ :: c => Some (String.concat " " c)
                                  end;
                        limit := None |}
        | _ => Thrown (ParseError text)
        end
      else Thrown (ParseError text)
  | [] => Thrown (ParseError text)
  end.

Definition composeQuery (q : Query) : string :=
  ("SELECT " ++ String.concat ", " (map field (fields q))
   ++ " FROM " ++ sObject q
   ++ match where_ q with
      | Some w => " WHERE " ++ w
      | None => ""
      end)%string.

Definition MULTISELECT_SOQL_KEYWORDS : list string :=
  ["creatable_true"; "creatable_false"; "updateable_true"; "updateable_false";
   "readonly_true"; "readonly_false"; "lookup_true"; "lookup_false"].

Definition OBJECTS_NOT_TO_USE_IN_QUERY_MULTISELECT : list string :=
  ["Profile"; "RecordType"; "User"; "Group"].

Definition SPECIAL_OBJECTS : list string := ["Group"; "User"; "RecordType"].

Fixpoint contains (c : ascii) (s : string) : bool :=
  match s with
  | EmptyString => false
  | String c' r => Ascii.eqb c c' || contains c r
  end.

(** A relationship path has a dot, a composite key a semicolon. *)
Definition isComplexOr__rField (fieldName : string) : bool :=
  contains "." fieldName || contains ";" fieldName.

Fixpoint semicolonsToDollars (s : string) : string :=
  match s with
  | EmptyString => EmptyString
  | String c r =>
      String (if Ascii.eqb c ";" then "$"%char else c) (semicolonsToDollars r)
  end.

Definition getComplexField (fieldName : string) : string :=
  if contains ";" fieldName then ("$$" ++ semicolonsToDollars fieldName)%string
  else fieldName.

Definition composeWhereClause (w : option string)
    (fieldName value operator literalType logicalOperator : string) : option string :=
  let cond := (fieldName ++ " " ++ operator ++ " " ++ value)%string in
  match w with
  | None => Some cond
  | Some w' => Some ("(" ++ w' ++ ") " ++ logicalOperator ++ " " ++ cond)%string
  end.

Definition filterMapByArray (keys : list string)
    (m : list (string * SFieldDescribe.t)) : list (string * SFieldDescribe.t) :=
  filter (fun kv => includes (fst kv) keys) m.

Definition describeField (n : string) (creatable : bool) : string * SFieldDescribe.t :=
  (n, {| SFieldDescribe.name := n;
         SFieldDescribe.lookup := false;
         SFieldDescribe.referencedObjectType := "";
         SFieldDescribe.flags := [("creatable", creatable)] |}).

(** The contact of the spec's scenario. *)
Definition contactDescribe : SObjectDescribe :=
  {| fieldsMap := [describeField "Id" false; describeField "FirstName" true;
                   describeField "Email" true; describeField "SystemField" false] |}.

(** An account without a [Name] field. *)
Definition accountDescribe : SObjectDescribe :=
  {| fieldsMap := [describeField "Id" false; describeField "Phone" true] |}.

Definition describeSObjectAsync (org : ScriptOrg) (objectName : string)
  : Outcome SObjectDescribe :=
  if objectName =? "Contact" then Returned contactDescribe
  else if objectName =? "Account" then Returned accountDescribe
  else Thrown (ExternalError "NOT_FOUND").

Definition orgToOrg : Script :=
  {| sourceOrg := {| orgName := "source"; media := Org |};
     targetOrg := {| orgName := "target"; media := Org |};
     isPersonAccountEnabled := false;
     objectsMap := [];
     logger := [] |}.

Definition fileToFile : Script :=
  {| sourceOrg := {| orgName := "csvfile"; media := File |};
     targetOrg := {| orgName := "csvfile"; media := File |};
     isPersonAccountEnabled := false;
     objectsMap := [];
     logger := [] |}.

(** A descriptor as it is constructed from the configuration file: the
    defaults of the class, with the given query, operation, external id and
    excluded fields. *)
Definition descriptor (q : string) (op : OperationValue) (extId : string)
    (excl : list string) : ScriptObject :=
  {| mockFields := []; query := q; deleteQuery := ""; operation := op;
     externalId := extId; deleteOldData := false; updateWithMockData := false;
     mockCSVData := false; targetRecordsFilter := ""; excluded := false;
     useCSVValuesMapping := false; allRecords := true; excludedFields := excl;
     script := None; name := ""; sourceSObjectDescribe := None;
     targetSObjectDescribe := None; originalExternalId := "";
     parsedQuery := None; parsedDeleteQuery := None; isExtraObject := false;
     processAllSource := false; processAllTarget := false;
     multiselectPattern := None |}.

(** The descriptors of the examples. *)
Definition accountUpsert : ScriptObject :=
  descriptor "SELECT ID, Name, id FROM Account" (OpString "Upsert") "Name" [].

Definition accountDelete : ScriptObject :=
  descriptor "SELECT Id, Phone FROM Account" (OpString "Delete") "Name" [].

Definition accountWithoutId : ScriptObject :=
  descriptor "SELECT Id, Phone FROM Account" (OpString "Upsert") "Name" ["Id"].

Definition contactInsert : ScriptObject :=
  descriptor "SELECT creatable_true, Email FROM Contact" (OpString "Insert") "Name"
             ["Email"].

Definition leadUpsert : ScriptObject :=
  descriptor "SELECT Id FROM Lead" (OpString "Upsert") "Id" [].

(** An account whose external id is the record id in capital letters. *)
Definition accountExternalID : ScriptObject :=
  descriptor "SELECT Name, Phone FROM Account" (OpString "Upsert") "ID" [].

(** A descriptor whose query the parser rejects; the object was named
    before. *)
Definition accountMalformed : ScriptObject :=
  set_name "Account" (descriptor "FETCH Account" (OpString "Upsert") "Name" []).

(** An upsert that deletes the old records first, with a delete query the
    parser rejects. *)
Definition accountMalformedDelete : ScriptObject :=
  set_deleteQuery "REMOVE Account"
    (set_deleteOldData true
       (descriptor "SELECT Id, Phone FROM Account" (OpString "Upsert") "Name" [])).

(** A contact queried with the [all] keyword. *)
Definition contactAll : ScriptObject :=
  descriptor "SELECT all FROM Contact" (OpString "Upsert") "Email" [].

End Example.

(* ------------------------------------------------------------------ *)
(** ** The class *)

Section ScriptObject.

Set Default Proof Using "Type".

(** [parseQuery] and [composeQuery] of [soql-parser-js]; the parser throws on
    malformed text. *)
Variable parseQuery : string -> Outcome Query.
Variable composeQuery : Query -> string.

(** [new Sfdx(org).describeSObjectAsync(name)], awaited. *)
Variable describeSObjectAsync : ScriptOrg -> string -> Outcome SObjectDescribe.

(** Constant tables of [statics]. *)
Variable MULTISELECT_SOQL_KEYWORDS : list string.
Variable OBJECTS_NOT_TO_USE_IN_QUERY_MULTISELECT : list string.
Variable SPECIAL_OBJECTS : list string.

(** Helpers of [Common] on complex (composite or relationship) field names,
    on where clauses and on maps. *)
Variable isComplexOr__rField : string -> bool.
Variable getComplexField : string -> string.
Variable composeWhereClause :
  option string -> string -> string -> string -> string -> string -> option string.
Variable filterMapByArray :
  list string -> list (string * SFieldDescribe.t) -> list (string * SFieldDescribe.t).

(** *** Getters *)

Definition fieldsInQuery (s : ScriptObject) : list string :=
  match parsedQuery s with
  | None => []
  | Some q => map field (fields q)
  end.

Definition isDescribed (s : ScriptObject) : bool :=
  match sourceSObjectDescribe s with Some _ => true | None => false end.

Definition isInitialized (s : ScriptObject) : bool :=
  match script s with Some _ => true | None => false end.

(** Before the descriptor is described the map is empty; afterwards it is
    what [Common.filterMapByArray] selects from the source snapshot. *)
Definition fieldsInQueryMap (s : ScriptObject) : list (string * SFieldDescribe.t) :=
  match sourceSObjectDescribe s with
  | None => []
  | Some d => filterMapByArray (fieldsInQuery s) (fieldsMap d)
  end.

Definition strOperation (s : ScriptObject) : Outcome string :=
  getStrOperation (operation s).

Definition isSpecialObject (s : ScriptObject) : bool :=
  includes (name s) SPECIAL_OBJECTS.

Definition hasComplexExternalId (s : ScriptObject) : bool :=
  isComplexOr__rField (externalId s).

Definition complexExternalId (s : ScriptObject) : string :=
  getComplexField (externalId s).

Definition complexOriginalExternalId (s : ScriptObject) : string :=
  getComplexField (originalExternalId s).

(** *** [_parseQuery] *)

(** The local function [___set]: [fieldName] is split at the underscore, the
    first part is the property and the pattern expects [true] exactly when
    the second part is the word. *)
Definition patternWith (fieldName : string) (current : option Pattern) : Pattern :=
  let pattern := match current with Some p => p | None => [] end in
  let parts := split "_" fieldName in
  let expected := match nth_error parts 1 with
                  | Some v => v =? "true"
                  | None => false
                  end in
  pattern_set (nth 0 parts "") expected pattern.

Definition ___set (fieldName : string) : M unit :=
  modify (fun s =>
    set_multiselectPattern (Some (patternWith fieldName (multiselectPattern s))) s).

(** The callback of [fields.forEach] in [_parseQuery]; [parsed] is the local
    query it pushes to. *)
Definition _parseQuery_forEach (parsed : Query) (f : SOQLField) : M Query :=
  let fieldName := toLowerCase (field f) in
  if fieldName =? "all" then
    ___set "all_true" ;; ret parsed
  else if includes fieldName MULTISELECT_SOQL_KEYWORDS then
    ___set fieldName ;; ret parsed
  else if negb (fieldName =? "id") then
    ret (withFields (fields parsed ++ [getComposedField (field f)]) parsed)
  else ret parsed.

Definition _parseQuery (query : string) : M Query :=
  parsed <- call (parseQuery query) ;;
  let fields_ := fields parsed in
  let parsed := withFields [getComposedField "Id"] parsed in
  parsed <- forEachWith fields_ _parseQuery_forEach parsed ;;
  modify (set_query (composeQuery parsed)) ;;
  ret parsed.

(** *** [setup]

    The body of [setup] is cut at the comments of the source into five
    consecutive parts. *)

(** "Initialize object", "Fixes operation value" and "Always set explicit
    externalId to 'Id' on Insert operation". *)
Definition setup_initialize (script_ : Script) : M unit :=
  modify (set_script (Some script_)) ;;
  modify (fun s => set_originalExternalId (externalId s) s) ;;
  modify (fun s => set_operation (getOperation (operation s)) s) ;;
  s <- get ;;
  if operationIs (operation s) Insert then modify (set_externalId "Id")
  else ret tt.

(** "Parse query string". *)
Definition setup_parseQuery : M unit :=
  s <- get ;;
  tryCatch
    (parsed <- _parseQuery (query s) ;; modify (set_parsedQuery (Some parsed)))
    (fun ex =>
       s <- get ;;
       _ <- theScript ;;
       throw (CommandInitializationError
                (Res MalformedQuery [Lit (name s); Lit (query s); errorText ex]))).

(** The [Delete] collapse, then "Add record Id field to the query", "Add
    external Id field to the query", "Add original external id field to the
    query", "Add IsPersonAccount field" and "Make each field appear only once
    in the query". *)
Definition setup_addFields : M unit :=
  s <- get ;;
  (if operationIs (operation s) Delete then
     modify (set_deleteOldData true) ;;
     updateParsedQuery (withFields [getComposedField "Id"])
   else ret tt) ;;
  s <- get ;;
  (if negb (existsb (fun x => x =? "Id") (fieldsInQuery s)) then pushField "Id"
   else ret tt) ;;
  s <- get ;;
  (if hasComplexExternalId s then pushField (complexExternalId s)
   else pushField (externalId s)) ;;
  s <- get ;;
  pushField (complexOriginalExternalId s) ;;
  s <- get ;;
  sc <- theScript ;;
  (if isPersonAccountEnabled sc && ((name s =? "Account") || (name s =? "Contact"))
   then pushField "IsPersonAccount"
   else ret tt) ;;
  updateParsedQuery (fun q => withFields (distinctArray (fields q)) q).

(** "Update object". *)
Definition setup_updateObject : M unit :=
  q <- theParsedQuery ;;
  modify (set_query (composeQuery q)) ;;
  modify (set_name (sObject q)) ;;
  s <- get ;;
  updateScript (objectsMap_set (name s)).

(** "Parse delete query string". *)
Definition setup_parseDeleteQuery : M unit :=
  s <- get ;;
  if deleteOldData s then
    tryCatch
      (s <- get ;;
       dq <- (if negb (deleteQuery s =? "") then call (parseQuery (deleteQuery s))
              else call (parseQuery (query s))) ;;
       modify (set_parsedDeleteQuery (Some dq)) ;;
       updateParsedDeleteQuery (withFields [getComposedField "Id"]) ;;
       s <- get ;;
       sc <- theScript ;;
       (if isPersonAccountEnabled sc && (name s =? "Contact") then
          updateParsedDeleteQuery (fun q =>
            withWhere (composeWhereClause (where_ q)
                         "IsPersonAccount" "false" "=" "BOOLEAN" "AND") q)
        else ret tt) ;;
       dq <- theParsedDeleteQuery ;;
       modify (set_deleteQuery (composeQuery dq)))
      (fun ex =>
         s <- get ;;
         _ <- theScript ;;
         throw (CommandInitializationError
                  (Res MalformedDeleteQuery
                       [Lit (name s); Lit (deleteQuery s); errorText ex])))
  else ret tt.

Definition setup (script_ : Script) : M unit :=
  s <- get ;;
  if isInitialized s then ret tt else
  setup_initialize script_ ;;
  setup_parseQuery ;;
  setup_addFields ;;
  setup_updateObject ;;
  setup_parseDeleteQuery.

(** *** [_addOrRemmoveFields] *)

(** The condition under which a field of the snapshot is considered for the
    query: the pattern asks for all fields or no pair of the pattern
    disagrees with the field, and the field is not in the query already. *)
Definition matchesPattern (pattern : Pattern) (fieldsInOriginalQuery : list string)
    (fieldDescribe : SFieldDescribe.t) : bool :=
  (___compare (Some (differsFromUndefinedString (pattern_get pattern "all")))
              (Some (looseEq (pattern_get pattern "all") (Some true))) false
   || negb (existsb (fun prop =>
              ___compare (SFieldDescribe.get fieldDescribe prop)
                         (pattern_get pattern prop) true)
              (pattern_keys pattern)))
  && ___compare (Some (negb (includes (SFieldDescribe.name fieldDescribe)
                                       fieldsInOriginalQuery)))
                (Some true) false.

Definition notToUseInMultiselect (fieldDescribe : SFieldDescribe.t) : bool :=
  SFieldDescribe.lookup fieldDescribe
  && includes (SFieldDescribe.referencedObjectType fieldDescribe)
              OBJECTS_NOT_TO_USE_IN_QUERY_MULTISELECT.

(** The callback of [forEach] over the descriptors of the snapshot. *)
Definition _addOrRemmoveFields_forEach (pattern : Pattern)
    (fieldsInOriginalQuery : list string) (fieldDescribe : SFieldDescribe.t) : M unit :=
  if matchesPattern pattern fieldsInOriginalQuery fieldDescribe then
    if negb (notToUseInMultiselect fieldDescribe) then
      pushField (SFieldDescribe.name fieldDescribe)
    else ret tt
  else ret tt.

Definition _addOrRemmoveFields (describe : SObjectDescribe) : M unit :=
  s <- get ;;
  match multiselectPattern s with
  | Some pattern =>
      let fieldsInOriginalQuery := fieldsInQuery s in
      forEach (fieldsMap_values describe)
              (_addOrRemmoveFields_forEach pattern fieldsInOriginalQuery)
  | None => ret tt
  end ;;
  s <- get ;;
  updateParsedQuery (fun q =>
    withFields (filter (fun f => negb (includes (field f) (excludedFields s)))
                       (fields q)) q) ;;
  q <- theParsedQuery ;;
  modify (set_query (composeQuery q)).

(** *** [_validateFields] *)

(** The callback of [fieldsInQuery.forEach]: [x] is a field name. *)
Definition _validateFields_forEach (describe : SObjectDescribe) (isSource : bool)
    (x : string) : M unit :=
  if negb (isComplexOr__rField x) && negb (fieldsMap_has describe x) then
    s <- get ;;
    (if looseEqString (nameOfString x) (externalId s) then
       _ <- theScript ;;
       op <- call (strOperation s) ;;
       throw (OrgMetadataError (Res noExternalKey [Lit (name s); Lit op]))
     else ret tt) ;;
    s <- get ;;
    (if isSource
     then updateScript (logger_log (Warn fieldSourceDoesNtoExist [Lit (name s); Lit x]))
     else updateScript (logger_log (Warn fieldTargetDoesNtoExist [Lit (name s); Lit x]))) ;;
    updateParsedQuery (fun q => withFields (removeBy (fields q) x) q)
  else ret tt.

Definition _validateFields (describe : SObjectDescribe) (isSource : bool) : M unit :=
  s <- get ;;
  if (length (fieldsInQuery s) =? 0)%nat then
    _ <- theScript ;;
    throw (CommandInitializationError (Res missingFieldsToProcess [Lit (name s)]))
  else
  if negb (isExtraObject s) && negb (isSpecialObject s) then
    let fieldsInQuery_ := fieldsInQuery s in
    forEach fieldsInQuery_ (_validateFields_forEach describe isSource)
  else ret tt.

(** *** [describeAsync] *)

(** The body of the [try] on the source side.  The awaited call is a call
    like another: within one descriptor the two sides run one after the
    other.  The back-reference [x.scriptObject = this] written into each
    field descriptor of the snapshot is not represented; no method of the
    class reads it. *)
Definition describeSourceBlock (apisf : ScriptOrg) : M unit :=
  s <- get ;;
  d <- call (describeSObjectAsync apisf (name s)) ;;
  modify (set_sourceSObjectDescribe (Some d)) ;;
  sc <- theScript ;;
  (if DATA_MEDIA_TYPE_eqb (media (targetOrg sc)) File
   then modify (set_targetSObjectDescribe (Some d))
   else ret tt) ;;
  _addOrRemmoveFields d ;;
  _validateFields d true.

(** The body of the [try] on the target side. *)
Definition describeTargetBlock (apisf : ScriptOrg) : M unit :=
  s <- get ;;
  d <- call (describeSObjectAsync apisf (name s)) ;;
  modify (set_targetSObjectDescribe (Some d)) ;;
  sc <- theScript ;;
  (if DATA_MEDIA_TYPE_eqb (media (sourceOrg sc)) File then
     modify (set_sourceSObjectDescribe (Some d)) ;;
     _addOrRemmoveFields d
   else ret tt) ;;
  _validateFields d false.

(** The [catch] of either side: a [CommandInitializationError] is thrown
    again, anything else becomes an [OrgMetadataError] with the side's
    resource and the name of the object. *)
Definition describeCatch (sideDoesNotExist : RESOURCES) (ex : Error) : M unit :=
  if isCommandInitializationError ex then throw ex
  else
    s <- get ;;
    _ <- theScript ;;
    throw (OrgMetadataError (Res sideDoesNotExist [Lit (name s)])).

(** The source side and the target side of [describeAsync]. *)
Definition describeAsync_source : M unit :=
  sc <- theScript ;;
  if DATA_MEDIA_TYPE_eqb (media (sourceOrg sc)) Org then
    let apisf := sourceOrg sc in
    s <- get ;;
    updateScript (logger_log
      (InfoNormal gettingMetadataForSObject [Lit (name s); Res source []])) ;;
    tryCatch (describeSourceBlock apisf) (describeCatch objectSourceDoesNotExist)
  else ret tt.

Definition describeAsync_target : M unit :=
  sc <- theScript ;;
  if DATA_MEDIA_TYPE_eqb (media (targetOrg sc)) Org then
    let apisf := targetOrg sc in
    s <- get ;;
    updateScript (logger_log
      (InfoNormal gettingMetadataForSObject [Lit (name s); Res target []])) ;;
    tryCatch (describeTargetBlock apisf) (describeCatch objectTargetDoesNotExist)
  else ret tt.

Definition describeAsync : M unit :=
  s <- get ;;
  if isDescribed s then ret tt else
  s <- get ;;
  if negb (isDescribed s) then
    describeAsync_source ;;
    describeAsync_target
  else ret tt.

(* ------------------------------------------------------------------ *)
(** ** What the methods compute, in closed form *)

(** [_parseQuery] keeps a field of the raw query when its lower-case name is
    neither [all], nor a multiselect keyword, nor [id]. *)
Definition keepsField (f : SOQLField) : bool :=
  let fieldName := toLowerCase (field f) in
  negb (fieldName =? "all")
  && negb (includes fieldName MULTISELECT_SOQL_KEYWORDS)
  && negb (fieldName =? "id").

Definition keptFields (fs : list SOQLField) : list SOQLField :=
  map (fun f => getComposedField (field f)) (filter keepsField fs).

(** The multiselect pattern after the fields of the raw query were scanned. *)
Definition scanPattern (fs : list SOQLField) (p : option Pattern) : option Pattern :=
  fold_left (fun p f =>
    let fieldName := toLowerCase (field f) in
    if fieldName =? "all" then Some (patternWith "all_true" p)
    else if includes fieldName MULTISELECT_SOQL_KEYWORDS
         then Some (patternWith fieldName p)
         else p) fs p.

(** The descriptor after the first part of [setup]. *)
Definition initialized (sc : Script) (s : ScriptObject) : ScriptObject :=
  let s0 := set_operation (getOperation (operation s))
              (set_originalExternalId (externalId s) (set_script (Some sc) s)) in
  if operationIs (operation s0) Insert then set_externalId "Id" s0 else s0.

(** The name under which [setup] adds the external id to the query. *)
Definition externalIdInQuery (s : ScriptObject) : string :=
  if hasComplexExternalId s then complexExternalId s else externalId s.

(** The fields [setup] adds after the record id. *)
Definition mandatoryFields (sc : Script) (s : ScriptObject) : list SOQLField :=
  [getComposedField (externalIdInQuery s);
   getComposedField (complexOriginalExternalId s)]
  ++ (if isPersonAccountEnabled sc && ((name s =? "Account") || (name s =? "Contact"))
      then [getComposedField "IsPersonAccount"] else []).

(** The fields of the query before the mandatory ones are added. *)
Definition collapsedFields (s : ScriptObject) (q : Query) : list SOQLField :=
  let base := if operationIs (operation s) Delete then [getComposedField "Id"]
              else fields q in
  if negb (existsb (fun x => x =? "Id") (map field base))
  then base ++ [getComposedField "Id"]
  else base.

(** The query [_parseQuery] returns for the query [pq] of the parser. *)
Definition resolvedQuery (pq : Query) : Query :=
  withFields (getComposedField "Id" :: keptFields (fields pq)) pq.

(** The descriptor after the second part of [setup], for the query [pq] of
    the parser. *)
Definition parsedState (pq : Query) (s : ScriptObject) : ScriptObject :=
  set_parsedQuery (Some (resolvedQuery pq))
    (set_query (composeQuery (resolvedQuery pq))
       (set_multiselectPattern (scanPattern (fields pq) (multiselectPattern s)) s)).

(** The descriptor after the third part of [setup], from a descriptor whose
    parsed query is [q] and whose script is [sc]. *)
Definition withMandatoryFields (sc : Script) (q : Query) (s : ScriptObject) : ScriptObject :=
  set_parsedQuery
    (Some (withFields (distinctArray (collapsedFields s q ++ mandatoryFields sc s)) q))
    (if operationIs (operation s) Delete then set_deleteOldData true s else s).

(** The descriptor after the fourth part of [setup]. *)
Definition updatedObject (sc : Script) (q : Query) (s : ScriptObject) : ScriptObject :=
  set_script (Some (objectsMap_set (sObject q) sc))
    (set_name (sObject q) (set_query (composeQuery q) s)).

(** The text the delete query is parsed from, and the delete query made of
    the parser's [dq]. *)
Definition deleteQueryText (s : ScriptObject) : string :=
  if negb (deleteQuery s =? "") then deleteQuery s else query s.

Definition derivedDeleteQuery (sc : Script) (s : ScriptObject) (dq : Query) : Query :=
  let d := withFields [getComposedField "Id"] dq in
  if isPersonAccountEnabled sc && (name s =? "Contact")
  then withWhere (composeWhereClause (where_ d)
                    "IsPersonAccount" "false" "=" "BOOLEAN" "AND") d
  else d.

(** The parsed query at the end of [setup], for the query [pq] of the
    parser, and the descriptor on which the last part of [setup] runs. *)
Definition setupQuery (sc : Script) (s : ScriptObject) (pq : Query) : Query :=
  let s1 := initialized sc s in
  withFields (distinctArray (collapsedFields s1 (resolvedQuery pq)
                             ++ mandatoryFields sc s1))
             (resolvedQuery pq).

Definition beforeDeleteQuery (sc : Script) (s : ScriptObject) (pq : Query) : ScriptObject :=
  updatedObject sc (setupQuery sc s pq)
    (withMandatoryFields sc (resolvedQuery pq) (parsedState pq (initialized sc s))).

(** The fields [_addOrRemmoveFields] pushes for the snapshot [d]. *)
Definition expansion (s : ScriptObject) (d : SObjectDescribe) : list SOQLField :=
  match multiselectPattern s with
  | Some pattern =>
      map (fun fd => getComposedField (SFieldDescribe.name fd))
          (filter (fun fd => matchesPattern pattern (fieldsInQuery s) fd
                             && negb (notToUseInMultiselect fd))
                  (fieldsMap_values d))
  | None => []
  end.

Definition notExcluded (s : ScriptObject) (f : SOQLField) : bool :=
  negb (includes (field f) (excludedFields s)).

(** The parsed query and the descriptor after [_addOrRemmoveFields], from a
    descriptor whose parsed query is [q]. *)
Definition expandedQuery (s : ScriptObject) (d : SObjectDescribe) (q : Query) : Query :=
  withFields (filter (notExcluded s) (fields q ++ expansion s d)) q.

Definition expandedState (s : ScriptObject) (d : SObjectDescribe) (q : Query) : ScriptObject :=
  set_query (composeQuery (expandedQuery s d q))
    (set_parsedQuery (Some (expandedQuery s d q)) s).

(** The condition under which [_validateFields] treats the name [x] as
    missing from the snapshot [d]. *)
Definition missingIn (d : SObjectDescribe) (x : string) : bool :=
  negb (isComplexOr__rField x) && negb (fieldsMap_has d x).

Definition missingWarning (isSource : bool) (objectName x : string) : LogEntry :=
  Warn (if isSource then fieldSourceDoesNtoExist else fieldTargetDoesNtoExist)
       [Lit objectName; Lit x].

Definition logAll (entries : list LogEntry) (sc : Script) : Script :=
  fold_left (fun sc e => logger_log e sc) entries sc.

(** The parsed query and the descriptor after the loop of [_validateFields],
    from a descriptor whose script is [sc] and whose parsed query is [q]. *)
Definition validatedQuery (d : SObjectDescribe) (q : Query) : Query :=
  withFields (filter (fun f => negb (missingIn d (field f))) (fields q)) q.

Definition validatedState (sc : Script) (q : Query) (d : SObjectDescribe)
    (isSource : bool) (s : ScriptObject) : ScriptObject :=
  set_parsedQuery (Some (validatedQuery d q))
    (set_script
       (Some (logAll (map (missingWarning isSource (name s))
                          (filter (missingIn d) (map field (fields q)))) sc)) s).

(** The two orgs of the script the descriptor holds. *)
Definition orgs (s : ScriptObject) : option (ScriptOrg * ScriptOrg) :=
  match script s with
  | Some sc => Some (sourceOrg sc, targetOrg sc)
  | None => None
  end.

(** The descriptor when the [try] of a side starts: the side's metadata
    request was logged on the script [sc]. *)
Definition announced (sc : Script) (side : RESOURCES) (s : ScriptObject) : ScriptObject :=
  set_script
    (Some (logger_log (InfoNormal gettingMetadataForSObject [Lit (name s); Res side []])
                      sc)) s.

(** What the [catch] of a side throws for the exception [ex] of its [try]. *)
Definition rethrown (sideDoesNotExist : RESOURCES) (objectName : string) (ex : Error) : Error :=
  if isCommandInitializationError ex then ex
  else OrgMetadataError (Res sideDoesNotExist [Lit objectName]).

(* ------------------------------------------------------------------ *)
(** ** Further getters of the class *)

(** [fieldsMap.get(key)]; [None] is [undefined]. *)
Definition fieldsMap_get (d : SObjectDescribe) (key : string) : option SFieldDescribe.t :=
  option_map snd (find (fun kv => fst kv =? key) (fieldsMap d)).

(** A boolean property read as a condition: [undefined] is falsy. *)
Definition truthy (v : option bool) : bool :=
  match v with
  | Some true => true
  | _ => false
  end.

(** [isLimitedQuery]: the query has a positive limit or a where clause. *)
Definition isLimitedQuery (s : ScriptObject) : bool :=
  match parsedQuery s with
  | None => false
  | Some q =>
      match limit q with Some n => (0 <? n)%nat | None => false end
      || match where_ q with Some _ => true | None => false end
  end.

(** [fieldsToUpdate].  The callback of [map] gives [null] for a field that
    is described on neither side or is read-only; [filter(x => !!x)] then
    drops the [null]s and the empty name. *)
Definition fieldsToUpdate (s : ScriptObject) : list string :=
  match parsedQuery s, sourceSObjectDescribe s with
  | Some q, Some src =>
      if (length (fieldsMap src) =? 0)%nat || operationIs (operation s) Readonly
      then []
      else
        flat_map
          (fun x =>
             let name_ := field x in
             let describe :=
               match fieldsMap_get src name_ with
               | Some fd => Some fd
               | None =>
                   match targetSObjectDescribe s with
                   | Some tgt => fieldsMap_get tgt name_
                   | None => None
                   end
               end in
             match describe with
             | None => []
             | Some fd =>
                 if truthy (SFieldDescribe.get fd "readonly") then []
                 else if field x =? "" then [] else [field x]
             end)
          (fields q)
  | _, _ => []
  end.

(** What [externalIdSFieldDescribe] evaluates to: [false] before the
    descriptor is described, then what the source snapshot has for the
    external id. *)
Inductive DescribeLookup :=
| NotDescribed
| NoSuchField
| FieldFound (fd : SFieldDescribe.t).

Definition externalIdSFieldDescribe (s : ScriptObject) : DescribeLookup :=
  match sourceSObjectDescribe s with
  | None => NotDescribed
  | Some src =>
      match fieldsMap_get src (externalId s) with
      | Some fd => FieldFound fd
      | None => NoSuchField
      end
  end.

(** [hasAutonumberExternalId]: [extIdField.autoNumber || extIdField.name ==
    "Id"].  On [false] both properties read as [undefined]; on [undefined]
    the property read throws. *)
Definition hasAutonumberExternalId (s : ScriptObject) : Outcome bool :=
  match externalIdSFieldDescribe s with
  | NotDescribed => Returned false
  | NoSuchField => Thrown TypeError
  | FieldFound fd =>
      Returned (truthy (SFieldDescribe.get fd "autoNumber")
                || (SFieldDescribe.name fd =? "Id"))
  end.

(** A proof that does not need a collaborator starts by dropping it, so that
    the statement is not generalized over it when the section ends. *)
Ltac forget :=
  try clear filterMapByArray; try clear composeWhereClause;
  try clear getComplexField; try clear isComplexOr__rField;
  try clear SPECIAL_OBJECTS; try clear OBJECTS_NOT_TO_USE_IN_QUERY_MULTISELECT;
  try clear MULTISELECT_SOQL_KEYWORDS; try clear describeSObjectAsync;
  try clear composeQuery; try clear parseQuery.

(* ------------------------------------------------------------------ *)
(** ** Facts about arrays and the helpers *)

Lemma includes_In (x : string) (arr : list string) :
  includes x arr = true <-> In x arr.
Proof.
  unfold includes. rewrite existsb_exists. split.
  - intros [y [Hy E]]. apply String.eqb_eq in E. now subst.
  - intros H. exists x. split; [assumption | apply String.eqb_refl].
Qed.

Lemma includes_false (x : string) (arr : list string) :
  includes x arr = false <-> ~ In x arr.
Proof.
  rewrite <- includes_In. destruct (includes x arr); split; congruence.
Qed.

Lemma withFields_fields (q : Query) : withFields (fields q) q = q.
Proof. destruct q. reflexivity. Qed.

Lemma getComposedField_field (f : SOQLField) : getComposedField (field f) = f.
Proof. destruct f. reflexivity. Qed.

Lemma set_multiselectPattern_same (s : ScriptObject) :
  set_multiselectPattern (multiselectPattern s) s = s.
Proof. destruct s. reflexivity. Qed.

Lemma set_parsedQuery_same (s : ScriptObject) :
  set_parsedQuery (parsedQuery s) s = s.
Proof. destruct s. reflexivity. Qed.

Lemma set_script_same (s : ScriptObject) : set_script (script s) s = s.
Proof. destruct s. reflexivity. Qed.

Lemma distinctArray_In (n : string) (arr : list SOQLField) :
  In n (map field (distinctArray arr)) <-> In n (map field arr).
Proof.
  forget.
  induction arr as [| x r IH]; simpl; [tauto |].
  split.
  - intros [E | H]; [now left |].
    right. apply IH. apply in_map_iff in H. destruct H as [y [Ey Hy]].
    apply filter_In in Hy. apply in_map_iff. exists y. tauto.
  - intros [E | H]; [now left |].
    destruct (String.eqb_spec n (field x)) as [E | N]; [left; congruence |].
    right. apply IH in H. apply in_map_iff in H. destruct H as [y [Ey Hy]].
    apply in_map_iff. exists y. split; [assumption |].
    apply filter_In. split; [assumption |].
    subst n. apply negb_true_iff. now apply String.eqb_neq.
Qed.

Lemma NoDup_names_filter (p : SOQLField -> bool) (arr : list SOQLField) :
  NoDup (map field arr) -> NoDup (map field (filter p arr)).
Proof.
  forget.
  induction arr as [| x r IH]; simpl; intros H; [constructor |].
  inversion H as [| ? ? Hx Hr]; subst.
  destruct (p x); simpl; [constructor |]; auto.
  intros Hin. apply Hx. apply in_map_iff in Hin. destruct Hin as [y [Ey Hy]].
  apply filter_In in Hy. apply in_map_iff. exists y. tauto.
Qed.

Lemma distinctArray_NoDup (arr : list SOQLField) :
  NoDup (map field (distinctArray arr)).
Proof.
  induction arr as [| x r IH]; simpl; constructor.
  - intros Hin. apply in_map_iff in Hin. destruct Hin as [y [Ey Hy]].
    apply filter_In in Hy. destruct Hy as [_ Hy].
    rewrite Ey, String.eqb_refl in Hy. discriminate Hy.
  - now apply NoDup_names_filter.
Qed.

Lemma distinctArray_once (n : string) (arr : list SOQLField) :
  In n (map field arr) ->
  count_occ string_dec (map field (distinctArray arr)) n = 1.
Proof.
  intros H. apply NoDup_count_occ'.
  - apply distinctArray_NoDup.
  - now apply distinctArray_In.
Qed.

(** ** Facts about the monad *)

Lemma bind_returned {A B} (m : M A) (k : A -> M B) s b s' :
  bind m k s = (Returned b, s') ->
  exists a s1, m s = (Returned a, s1) /\ k a s1 = (Returned b, s').
Proof.
  unfold bind. destruct (m s) as [[a | ex] s1]; intros H.
  - exists a, s1. split; [reflexivity | exact H].
  - discriminate H.
Qed.

Lemma bind_run {A B} {m : M A} (k : A -> M B) {s a s1} :
  m s = (Returned a, s1) -> bind m k s = k a s1.
Proof. unfold bind. now intros ->. Qed.

Lemma bind_run_thrown {A B} {m : M A} (k : A -> M B) {s ex s1} :
  m s = (Thrown ex, s1) -> bind m k s = (Thrown ex, s1).
Proof. unfold bind. now intros ->. Qed.

Lemma preserves_ret {X A} (f : ScriptObject -> X) (a : A) : preserves f (ret a).
Proof. intros s. reflexivity. Qed.

Lemma preserves_throw {X A} (f : ScriptObject -> X) ex : preserves f (@throw A ex).
Proof. intros s. reflexivity. Qed.

Lemma preserves_get {X} (f : ScriptObject -> X) : preserves f get.
Proof. intros s. reflexivity. Qed.

Lemma preserves_call {X A} (f : ScriptObject -> X) (r : Outcome A) :
  preserves f (call r).
Proof. intros s. reflexivity. Qed.

Lemma preserves_modify {X} (f : ScriptObject -> X) g :
  (forall s, f (g s) = f s) -> preserves f (modify g).
Proof. intros H s. apply H. Qed.

Lemma preserves_bind {X A B} (f : ScriptObject -> X) (m : M A) (k : A -> M B) :
  preserves f m -> (forall a, preserves f (k a)) -> preserves f (bind m k).
Proof.
  intros Hm Hk s. unfold bind. specialize (Hm s).
  destruct (m s) as [[a | ex] s1]; simpl in *.
  - rewrite Hk. exact Hm.
  - exact Hm.
Qed.

Lemma preserves_tryCatch {X A} (f : ScriptObject -> X) (m : M A) h :
  preserves f m -> (forall ex, preserves f (h ex)) -> preserves f (tryCatch m h).
Proof.
  intros Hm Hh s. unfold tryCatch. specialize (Hm s).
  destruct (m s) as [[a | ex] s1]; simpl in *.
  - exact Hm.
  - rewrite Hh. exact Hm.
Qed.

Lemma preserves_forEach {X A} (f : ScriptObject -> X) (arr : list A) body :
  (forall x, preserves f (body x)) -> preserves f (forEach arr body).
Proof.
  intros Hb. induction arr as [| x r IH]; simpl.
  - apply preserves_ret.
  - apply preserves_bind; [apply Hb | intros _; exact IH].
Qed.

Lemma preserves_forEachWith {X A L} (f : ScriptObject -> X) (arr : list A)
    (body : L -> A -> M L) :
  (forall l x, preserves f (body l x)) ->
  forall l, preserves f (forEachWith arr body l).
Proof.
  intros Hb. induction arr as [| x r IH]; intros l; simpl.
  - apply preserves_ret.
  - apply preserves_bind; [apply Hb | intros l'; apply IH].
Qed.

Lemma preserves_run {X A} {f : ScriptObject -> X} {m : M A} {s r s'} :
  preserves f m -> m s = (r, s') -> f s' = f s.
Proof. intros H E. specialize (H s). rewrite E in H. exact H. Qed.

(** Reading a property after assignments: only the projections and the
    assignments are unfolded. *)
Ltac state_simpl :=
  cbn
    [mockFields query deleteQuery operation externalId deleteOldData
     updateWithMockData mockCSVData targetRecordsFilter excluded
     useCSVValuesMapping allRecords excludedFields script name
     sourceSObjectDescribe targetSObjectDescribe originalExternalId
     parsedQuery parsedDeleteQuery isExtraObject processAllSource
     processAllTarget multiselectPattern set_query set_deleteQuery
     set_operation set_externalId set_deleteOldData set_script
     set_name set_sourceSObjectDescribe set_targetSObjectDescribe
     set_originalExternalId set_parsedQuery set_parsedDeleteQuery
     set_multiselectPattern fields sObject where_ limit withFields
     withWhere fst snd sourceOrg targetOrg isPersonAccountEnabled
     objectsMap logger logger_log objectsMap_set negb
     DATA_MEDIA_TYPE_eqb].

Ltac state_simpl_in H :=
  cbn
    [mockFields query deleteQuery operation externalId deleteOldData
     updateWithMockData mockCSVData targetRecordsFilter excluded
     useCSVValuesMapping allRecords excludedFields script name
     sourceSObjectDescribe targetSObjectDescribe originalExternalId
     parsedQuery parsedDeleteQuery isExtraObject processAllSource
     processAllTarget multiselectPattern set_query set_deleteQuery
     set_operation set_externalId set_deleteOldData set_script
     set_name set_sourceSObjectDescribe set_targetSObjectDescribe
     set_originalExternalId set_parsedQuery set_parsedDeleteQuery
     set_multiselectPattern fields sObject where_ limit withFields
     withWhere fst snd sourceOrg targetOrg isPersonAccountEnabled
     objectsMap logger logger_log objectsMap_set negb
     DATA_MEDIA_TYPE_eqb] in H.

Lemma preserves_updateScript {X} (f : ScriptObject -> X) g :
  (forall s sc, script s = Some sc -> f (set_script (Some (g sc)) s) = f s) ->
  preserves f (updateScript g).
Proof.
  intros H s. unfold updateScript, theScript, bind, get, modify, ret, throw.
  destruct (script s) as [sc |] eqn:Hsc; simpl; [now apply H | reflexivity].
Qed.

(** Syntax-directed proof that a body preserves a view. *)
Ltac frame_step :=
  lazymatch goal with
  | |- preserves _ (bind _ _) => apply preserves_bind; [| intros ?]
  | |- preserves _ (ret _) => apply preserves_ret
  | |- preserves _ (throw _) => apply preserves_throw
  | |- preserves _ get => apply preserves_get
  | |- preserves _ (call _) => apply preserves_call
  | |- preserves _ (modify _) => apply preserves_modify; intros ?; reflexivity
  | |- preserves _ (updateScript _) =>
      apply preserves_updateScript;
      let Hs := fresh "Hs" in
      intros ? ? Hs; unfold orgs; state_simpl; rewrite ?Hs; reflexivity
  | |- preserves _ (tryCatch _ _) => apply preserves_tryCatch; [| intros ?]
  | |- preserves _ (forEach _ _) => apply preserves_forEach; intros ?
  | |- preserves _ (forEachWith _ _ _) => apply preserves_forEachWith; intros ? ?
  | |- preserves _ (if ?b then _ else _) => destruct b
  | |- preserves _ (match ?x with _ => _ end) => destruct x
  end.

Ltac frame :=
  unfold pushField, updateParsedQuery, updateParsedDeleteQuery,
    theScript, theParsedQuery, theParsedDeleteQuery, ___set;
  cbv zeta;
  repeat frame_step.

(** Running a body to the next branch: unfold the monad and split on the
    conditions met on the way. *)
Ltac run_monad :=
  cbv beta iota zeta delta
    [bind ret get modify throw call tryCatch pushField updateParsedQuery
     updateParsedDeleteQuery updateScript theScript theParsedQuery
     theParsedDeleteQuery ___set].

Ltac run_monad_in H :=
  cbv beta iota zeta delta
    [bind ret get modify throw call tryCatch pushField updateParsedQuery
     updateParsedDeleteQuery updateScript theScript theParsedQuery
     theParsedDeleteQuery ___set] in H.

Ltac run_with H1 H2 :=
  repeat (repeat (progress (state_simpl; rewrite ?H1, ?H2));
          match goal with
          | |- context [if ?c then _ else _] => destruct c eqn:?
          end);
  repeat (progress (state_simpl; rewrite ?H1, ?H2)).

Ltac run_cases :=
  repeat (state_simpl;
          match goal with
          | |- context [if ?c then _ else _] => destruct c eqn:?
          end);
  state_simpl.

(* ------------------------------------------------------------------ *)
(** ** [setup], part by part *)

Lemma parseLoop_run (fs : list SOQLField) : forall parsed s,
  forEachWith fs _parseQuery_forEach parsed s
  = (Returned (withFields (fields parsed ++ keptFields fs) parsed),
     set_multiselectPattern (scanPattern fs (multiselectPattern s)) s).
Proof.
  induction fs as [| f r IH]; intros parsed s.
  - simpl. unfold keptFields. simpl.
    now rewrite app_nil_r, withFields_fields, set_multiselectPattern_same.
  - simpl forEachWith. unfold _parseQuery_forEach at 1.
    unfold keptFields, scanPattern, keepsField. simpl.
    destruct (toLowerCase (field f) =? "all") eqn:Eall.
    + run_monad. rewrite IH. simpl. reflexivity.
    + destruct (includes (toLowerCase (field f)) MULTISELECT_SOQL_KEYWORDS) eqn:Ekw.
      * run_monad. rewrite IH. simpl. reflexivity.
      * destruct (toLowerCase (field f) =? "id") eqn:Eid; simpl; run_monad;
          rewrite IH; simpl.
        -- reflexivity.
        -- unfold withFields. simpl. now rewrite <- app_assoc.
Qed.

Lemma setup_initialize_run sc s :
  setup_initialize sc s = (Returned tt, initialized sc s).
Proof.
  unfold setup_initialize, initialized. run_monad. run_cases; reflexivity.
Qed.


Lemma _parseQuery_run text s :
  _parseQuery text s
  = match parseQuery text with
    | Returned pq =>
        (Returned (resolvedQuery pq),
         set_query (composeQuery (resolvedQuery pq))
           (set_multiselectPattern
              (scanPattern (fields pq) (multiselectPattern s)) s))
    | Thrown ex => (Thrown ex, s)
    end.
Proof.
  unfold _parseQuery. run_monad.
  destruct (parseQuery text) as [pq | ex]; [| reflexivity].
  rewrite parseLoop_run. reflexivity.
Qed.

Lemma setup_parseQuery_run s :
  setup_parseQuery s
  = match parseQuery (query s) with
    | Returned pq => (Returned tt, parsedState pq s)
    | Thrown ex =>
        match script s with
        | Some _ =>
            (Thrown (CommandInitializationError
                       (Res MalformedQuery
                            [Lit (name s); Lit (query s); errorText ex])), s)
        | None => (Thrown TypeError, s)
        end
    end.
Proof.
  unfold setup_parseQuery, parsedState. run_monad. rewrite _parseQuery_run.
  destruct (parseQuery (query s)) as [pq | ex]; [reflexivity |].
  destruct (script s); reflexivity.
Qed.

Lemma setup_addFields_run sc q s :
  script s = Some sc -> parsedQuery s = Some q ->
  setup_addFields s = (Returned tt, withMandatoryFields sc q s).
Proof.
  intros Hsc Hq.
  unfold setup_addFields, withMandatoryFields, collapsedFields, mandatoryFields,
    externalIdInQuery, fieldsInQuery, hasComplexExternalId, complexExternalId,
    complexOriginalExternalId.
  run_monad.
  run_with Hq Hsc; rewrite <- ?app_assoc; reflexivity.
Qed.

Lemma setup_updateObject_run sc q s :
  script s = Some sc -> parsedQuery s = Some q ->
  setup_updateObject s = (Returned tt, updatedObject sc q s).
Proof.
  intros Hsc Hq. unfold setup_updateObject, updatedObject. run_monad.
  rewrite Hq. state_simpl. rewrite Hsc. reflexivity.
Qed.

Lemma setup_parseDeleteQuery_run sc s :
  script s = Some sc ->
  setup_parseDeleteQuery s
  = if deleteOldData s then
      match parseQuery (deleteQueryText s) with
      | Returned dq =>
          (Returned tt,
           set_deleteQuery (composeQuery (derivedDeleteQuery sc s dq))
             (set_parsedDeleteQuery (Some (derivedDeleteQuery sc s dq)) s))
      | Thrown ex =>
          (Thrown (CommandInitializationError
                     (Res MalformedDeleteQuery
                          [Lit (name s); Lit (deleteQuery s); errorText ex])), s)
      end
    else (Returned tt, s).
Proof.
  intros Hsc. unfold setup_parseDeleteQuery, deleteQueryText, derivedDeleteQuery.
  run_monad. destruct (deleteOldData s); [| reflexivity].
  destruct (negb (deleteQuery s =? "")); state_simpl;
    (match goal with
     | |- context [parseQuery ?t] => destruct (parseQuery t) as [dq | ex]
     end; state_simpl; rewrite ?Hsc; state_simpl;
     [destruct (isPersonAccountEnabled sc && (name s =? "Contact")); reflexivity
     | reflexivity]).
Qed.


Lemma initialized_script sc s : script (initialized sc s) = Some sc.
Proof. unfold initialized. run_cases; reflexivity. Qed.

Lemma initialized_query sc s : query (initialized sc s) = query s.
Proof. unfold initialized. run_cases; reflexivity. Qed.

Lemma initialized_name sc s : name (initialized sc s) = name s.
Proof. unfold initialized. run_cases; reflexivity. Qed.

Lemma initialized_operation sc s :
  operation (initialized sc s) = getOperation (operation s).
Proof. unfold initialized. run_cases; reflexivity. Qed.

Lemma initialized_originalExternalId sc s :
  originalExternalId (initialized sc s) = externalId s.
Proof. unfold initialized. run_cases; reflexivity. Qed.

Lemma initialized_externalId sc s :
  externalId (initialized sc s)
  = if operationIs (getOperation (operation s)) Insert then "Id" else externalId s.
Proof. unfold initialized. run_cases; reflexivity. Qed.

Lemma initialized_excludedFields sc s :
  excludedFields (initialized sc s) = excludedFields s.
Proof. unfold initialized. run_cases; reflexivity. Qed.

(** [setup] on a descriptor that is not initialized yet: either the parser
    throws and the descriptor stays as the first part left it, or the last
    part runs on the descriptor the first four parts computed. *)
Lemma setup_run sc s :
  isInitialized s = false ->
  setup sc s
  = match parseQuery (query s) with
    | Returned pq => setup_parseDeleteQuery (beforeDeleteQuery sc s pq)
    | Thrown ex =>
        (Thrown (CommandInitializationError
                   (Res MalformedQuery [Lit (name s); Lit (query s); errorText ex])),
         initialized sc s)
    end.
Proof.
  intros Hi. unfold setup. unfold bind at 1. unfold get. rewrite Hi.
  rewrite (bind_run _ (setup_initialize_run sc s)).
  unfold bind at 1. rewrite setup_parseQuery_run.
  rewrite initialized_query, initialized_script, initialized_name.
  destruct (parseQuery (query s)) as [pq | ex]; [| reflexivity].
  assert (Hsc : script (parsedState pq (initialized sc s)) = Some sc)
    by (unfold parsedState; state_simpl; apply initialized_script).
  assert (Hq : parsedQuery (parsedState pq (initialized sc s)) = Some (resolvedQuery pq))
    by reflexivity.
  rewrite (bind_run _ (setup_addFields_run _ _ _ Hsc Hq)).
  assert (Hsc' : script (withMandatoryFields sc (resolvedQuery pq)
                           (parsedState pq (initialized sc s))) = Some sc).
  { unfold withMandatoryFields. run_cases; exact Hsc. }
  assert (Hq' : parsedQuery (withMandatoryFields sc (resolvedQuery pq)
                               (parsedState pq (initialized sc s)))
                = Some (setupQuery sc s pq)).
  { unfold withMandatoryFields, setupQuery. state_simpl.
    unfold collapsedFields, mandatoryFields, externalIdInQuery, hasComplexExternalId,
      complexExternalId, complexOriginalExternalId, parsedState.
    state_simpl. reflexivity. }
  rewrite (bind_run _ (setup_updateObject_run _ _ _ Hsc' Hq')).
  reflexivity.
Qed.

Lemma beforeDeleteQuery_parsedQuery sc s pq :
  parsedQuery (beforeDeleteQuery sc s pq) = Some (setupQuery sc s pq).
Proof. reflexivity. Qed.

Lemma beforeDeleteQuery_script sc s pq :
  script (beforeDeleteQuery sc s pq)
  = Some (objectsMap_set (sObject (setupQuery sc s pq)) sc).
Proof. reflexivity. Qed.

Lemma beforeDeleteQuery_externalId sc s pq :
  externalId (beforeDeleteQuery sc s pq) = externalId (initialized sc s).
Proof.
  unfold beforeDeleteQuery, updatedObject, withMandatoryFields, parsedState.
  run_cases; reflexivity.
Qed.

Lemma beforeDeleteQuery_excludedFields sc s pq :
  excludedFields (beforeDeleteQuery sc s pq) = excludedFields s.
Proof.
  unfold beforeDeleteQuery, updatedObject, withMandatoryFields, parsedState.
  run_cases; apply initialized_excludedFields.
Qed.

Lemma beforeDeleteQuery_deleteOldData sc s pq :
  operationIs (getOperation (operation s)) Delete = true ->
  deleteOldData (beforeDeleteQuery sc s pq) = true.
Proof.
  intros H.
  unfold beforeDeleteQuery, updatedObject, withMandatoryFields, parsedState.
  state_simpl. rewrite initialized_operation, H. reflexivity.
Qed.

Lemma setup_parseDeleteQuery_parsedQuery : preserves parsedQuery setup_parseDeleteQuery.
Proof. unfold setup_parseDeleteQuery. frame. Qed.

Lemma setup_parseDeleteQuery_externalId : preserves externalId setup_parseDeleteQuery.
Proof. unfold setup_parseDeleteQuery. frame. Qed.

Lemma setup_parseDeleteQuery_excludedFields :
  preserves excludedFields setup_parseDeleteQuery.
Proof. unfold setup_parseDeleteQuery. frame. Qed.

Lemma setup_parseDeleteQuery_script : preserves script setup_parseDeleteQuery.
Proof. unfold setup_parseDeleteQuery. frame. Qed.

Lemma setup_parseDeleteQuery_multiselectPattern :
  preserves multiselectPattern setup_parseDeleteQuery.
Proof. unfold setup_parseDeleteQuery. frame. Qed.

(** Whenever [setup] returns on a descriptor that was not initialized, the
    parser accepted the query and the parsed query is [setupQuery]. *)
Lemma setup_returned sc s s' :
  isInitialized s = false ->
  setup sc s = (Returned tt, s') ->
  exists pq,
    parseQuery (query s) = Returned pq
    /\ setup_parseDeleteQuery (beforeDeleteQuery sc s pq) = (Returned tt, s')
    /\ parsedQuery s' = Some (setupQuery sc s pq).
Proof.
  intros Hi Hrun. rewrite (setup_run sc s Hi) in Hrun.
  destruct (parseQuery (query s)) as [pq | ex]; [| discriminate Hrun].
  exists pq. split; [reflexivity |]. split; [exact Hrun |].
  rewrite (preserves_run setup_parseDeleteQuery_parsedQuery Hrun).
  apply beforeDeleteQuery_parsedQuery.
Qed.

Lemma collapsedFields_head s pq :
  exists r, collapsedFields s (resolvedQuery pq) = getComposedField "Id" :: r.
Proof.
  unfold collapsedFields.
  destruct (operationIs (operation s) Delete).
  - exists []. reflexivity.
  - exists (keptFields (fields pq)). reflexivity.
Qed.

Lemma operationIs_Delete_not_Insert v :
  operationIs v Delete = true -> operationIs v Insert = false.
Proof.
  destruct v as [o | str |]; simpl; intros H.
  - destruct o; (discriminate H || reflexivity).
  - apply String.eqb_eq in H. subst str. reflexivity.
  - reflexivity.
Qed.

(** After any call of [setup] the descriptor is initialized. *)
Lemma setup_initializes sc s : isInitialized (snd (setup sc s)) = true.
Proof.
  destruct (isInitialized s) eqn:Hi.
  - unfold setup, bind, get. rewrite Hi. exact Hi.
  - unfold isInitialized.
    assert (H : script (snd (setup sc s)) <> None); [| destruct (script _); congruence].
    rewrite (setup_run sc s Hi).
    destruct (parseQuery (query s)) as [pq | ex]; simpl.
    + rewrite setup_parseDeleteQuery_script, beforeDeleteQuery_script. discriminate.
    + rewrite initialized_script. discriminate.
Qed.

(* ------------------------------------------------------------------ *)
(** ** Properties of [setup] *)

Lemma setup_externalIdInQuery sc s s' :
  isInitialized s = false ->
  setup sc s = (Returned tt, s') ->
  externalIdInQuery s' = externalIdInQuery (initialized sc s).
Proof.
  intros Hi Hrun.
  destruct (setup_returned sc s s' Hi Hrun) as [pq [_ [Hlast _]]].
  unfold externalIdInQuery, hasComplexExternalId, complexExternalId.
  rewrite (preserves_run setup_parseDeleteQuery_externalId Hlast).
  now rewrite beforeDeleteQuery_externalId.
Qed.

(** The names of the query at the end of [setup]: [Id], what [_parseQuery]
    kept of the parser's query, and what [setup] pushes. *)
Lemma setupQuery_names sc s pq x :
  In x (map field (fields (setupQuery sc s pq))) ->
  x = "Id"
  \/ (exists f, In f (fields pq) /\ keepsField f = true /\ field f = x)
  \/ x = externalIdInQuery (initialized sc s)
  \/ x = getComplexField (externalId s)
  \/ x = "IsPersonAccount".
Proof.
  forget.
  unfold setupQuery. state_simpl. rewrite distinctArray_In, map_app, in_app_iff.
  intros [H | H].
  - unfold collapsedFields in H.
    destruct (operationIs (operation (initialized sc s)) Delete).
    + simpl in H. destruct H as [<- | []]. now left.
    + change (negb (existsb (fun y => y =? "Id")
                      (map field (fields (resolvedQuery pq))))) with false in H.
      cbv iota in H. unfold resolvedQuery, keptFields in H. state_simpl_in H.
      simpl map in H. rewrite map_map in H. simpl in H.
      destruct H as [<- | H]; [now left |].
      right. left. apply in_map_iff in H. destruct H as [f [E Hf]].
      apply filter_In in Hf. exists f. tauto.
  - unfold mandatoryFields, complexOriginalExternalId in H.
    rewrite initialized_originalExternalId in H.
    rewrite map_app in H. simpl in H.
    destruct H as [<- | [<- | H]]; [tauto | tauto |].
    destruct (isPersonAccountEnabled sc
              && ((name (initialized sc s) =? "Account")
                  || (name (initialized sc s) =? "Contact")));
      simpl in H; [destruct H as [<- | []]; tauto | destruct H].
Qed.

(** C1, as the code has it.  Whatever the raw query text lists, and in
    whatever letter case it writes the record identifier, the field list of
    the query resolved by a [setup] that returns starts with [Id] and has no
    other [Id], and nothing is left of the listings in another letter case:
    a further field spelled like [Id] in some letter case is the external id
    or the original external id as [setup] queries it. *)
Theorem setup_Id_once_first sc s s' :
  isInitialized s = false ->
  setup sc s = (Returned tt, s') ->
  exists rest,
    fieldsInQuery s' = "Id" :: rest
    /\ ~ In "Id" rest
    /\ forall x, In x rest -> toLowerCase x = "id" ->
         x = externalIdInQuery s' \/ x = getComplexField (externalId s).
Proof.
  intros Hi Hrun.
  pose proof (setup_externalIdInQuery sc s s' Hi Hrun) as Hext.
  destruct (setup_returned sc s s' Hi Hrun) as [pq [_ [_ Hq]]].
  assert (Hnames : forall x, In x (fieldsInQuery s') ->
            x = "Id"
            \/ (exists f, In f (fields pq) /\ keepsField f = true /\ field f = x)
            \/ x = externalIdInQuery (initialized sc s)
            \/ x = getComplexField (externalId s)
            \/ x = "IsPersonAccount").
  { intros x Hx. apply (setupQuery_names sc s pq).
    unfold fieldsInQuery in Hx. rewrite Hq in Hx. exact Hx. }
  assert (Hshape : exists rest, fieldsInQuery s' = "Id" :: rest /\ ~ In "Id" rest).
  { unfold fieldsInQuery. rewrite Hq. unfold setupQuery. state_simpl.
    destruct (collapsedFields_head (initialized sc s) pq) as [r ->].
    simpl. eexists. split; [reflexivity |].
    intros Hin. apply in_map_iff in Hin. destruct Hin as [y [Ey Hy]].
    apply filter_In in Hy. destruct Hy as [_ Hy].
    rewrite Ey in Hy. discriminate Hy. }
  destruct Hshape as [rest [Hrest Hno]].
  exists rest. split; [exact Hrest |]. split; [exact Hno |].
  intros x Hx Hlow. rewrite Hext.
  destruct (Hnames x) as [E | [[f [_ [Hk E]]] | [E | [E | E]]]].
  - rewrite Hrest. now right.
  - subst x. contradiction.
  - subst x. unfold keepsField in Hk. simpl in Hk.
    apply andb_true_iff in Hk. destruct Hk as [_ Hk].
    rewrite Hlow in Hk. discriminate Hk.
  - now left.
  - now right.
  - subst x. discriminate Hlow.
Qed.

(** C2, as the code has it.  For a [Delete] descriptor a [setup] that returns
    leaves in the resolved query [Id] followed by the fields it always adds
    (the external id as it is queried, the original external id as it is
    queried, and [IsPersonAccount] for a person-account [Account] or
    [Contact]), duplicates removed, and nothing of what the user listed; the
    field list of the delete query is [Id] alone. *)
Theorem setup_Delete_fields sc s s' :
  isInitialized s = false ->
  operationIs (getOperation (operation s)) Delete = true ->
  setup sc s = (Returned tt, s') ->
  fieldsInQuery s'
  = map field
      (distinctArray
         (map getComposedField
            ("Id"
             :: (if isComplexOr__rField (externalId s)
                 then getComplexField (externalId s) else externalId s)
             :: getComplexField (externalId s)
             :: (if isPersonAccountEnabled sc
                    && ((name s =? "Account") || (name s =? "Contact"))
                 then ["IsPersonAccount"] else []))))
  /\ exists dq, parsedDeleteQuery s' = Some dq /\ map field (fields dq) = ["Id"].
Proof.
  intros Hi Hdel Hrun.
  destruct (setup_returned sc s s' Hi Hrun) as [pq [_ [Hlast Hq]]].
  split.
  - unfold fieldsInQuery. rewrite Hq. unfold setupQuery. state_simpl.
    unfold collapsedFields, mandatoryFields, externalIdInQuery,
      hasComplexExternalId, complexExternalId, complexOriginalExternalId.
    rewrite initialized_operation, Hdel, initialized_originalExternalId,
      initialized_externalId, initialized_name,
      (operationIs_Delete_not_Insert _ Hdel).
    change (negb (existsb (fun x => x =? "Id") (map field [getComposedField "Id"])))
      with false.
    cbv iota.
    destruct (isPersonAccountEnabled sc && ((name s =? "Account") || (name s =? "Contact")));
      reflexivity.
  - rewrite (setup_parseDeleteQuery_run _ _ (beforeDeleteQuery_script sc s pq)) in Hlast.
    rewrite (beforeDeleteQuery_deleteOldData sc s pq Hdel) in Hlast.
    destruct (parseQuery (deleteQueryText (beforeDeleteQuery sc s pq))) as [dq | ex];
      [| discriminate Hlast].
    injection Hlast as <-. eexists. split; [reflexivity |].
    unfold derivedDeleteQuery.
    destruct (isPersonAccountEnabled _ && _); reflexivity.
Qed.

(** C5.  On a descriptor that is not initialized yet and whose operation
    normalizes to [Insert], [setup] leaves the external id [Id], whatever it
    was configured to and whether [setup] returns or throws. *)
Theorem setup_Insert_externalId sc s :
  isInitialized s = false ->
  operationIs (getOperation (operation s)) Insert = true ->
  externalId (snd (setup sc s)) = "Id".
Proof.
  intros Hi Hins. rewrite (setup_run sc s Hi).
  destruct (parseQuery (query s)) as [pq | ex].
  - rewrite setup_parseDeleteQuery_externalId, beforeDeleteQuery_externalId,
      initialized_externalId, Hins. reflexivity.
  - simpl. rewrite initialized_externalId, Hins. reflexivity.
Qed.

(** C9.  On a descriptor that holds its script, that is on which [setup] has
    run, [setup] returns at once and the descriptor is as it was. *)
Theorem setup_twice_noop sc s :
  isInitialized s = true ->
  setup sc s = (Returned tt, s).
Proof.
  intros Hi. unfold setup, bind, get. rewrite Hi. reflexivity.
Qed.

(* ------------------------------------------------------------------ *)
(** ** [_addOrRemmoveFields] and [_validateFields] in closed form *)

Lemma pushLoop_run pattern original (l : list SFieldDescribe.t) : forall s q,
  parsedQuery s = Some q ->
  forEach l (_addOrRemmoveFields_forEach pattern original) s
  = (Returned tt,
     set_parsedQuery
       (Some (withFields
                (fields q
                 ++ map (fun fd => getComposedField (SFieldDescribe.name fd))
                      (filter (fun fd => matchesPattern pattern original fd
                                         && negb (notToUseInMultiselect fd)) l))
                q)) s).
Proof.
  induction l as [| fd r IH]; intros s q Hq.
  - simpl. unfold ret. rewrite app_nil_r, withFields_fields, <- Hq.
    now rewrite set_parsedQuery_same.
  - simpl forEach. unfold _addOrRemmoveFields_forEach at 1. simpl filter.
    destruct (matchesPattern pattern original fd); simpl andb;
      [destruct (notToUseInMultiselect fd); simpl negb |].
    + run_monad. now apply IH.
    + run_monad. rewrite Hq.
      erewrite IH by reflexivity. state_simpl.
      simpl map. rewrite <- app_assoc. reflexivity.
    + run_monad. now apply IH.
Qed.

Lemma pushLoop_stuck pattern original (l : list SFieldDescribe.t) s :
  parsedQuery s = None ->
  forEach l (_addOrRemmoveFields_forEach pattern original) s = (Returned tt, s)
  \/ forEach l (_addOrRemmoveFields_forEach pattern original) s = (Thrown TypeError, s).
Proof.
  intros Hq. induction l as [| fd r IH]; [now left |].
  simpl forEach. unfold _addOrRemmoveFields_forEach at 1 3.
  destruct (matchesPattern pattern original fd);
    [destruct (notToUseInMultiselect fd); simpl negb |].
  - exact IH.
  - right. run_monad. rewrite Hq. reflexivity.
  - exact IH.
Qed.

Lemma _addOrRemmoveFields_run d s :
  _addOrRemmoveFields d s
  = match parsedQuery s with
    | Some q => (Returned tt, expandedState s d q)
    | None => (Thrown TypeError, s)
    end.
Proof.
  unfold _addOrRemmoveFields, expandedState, expandedQuery, expansion, notExcluded.
  destruct (parsedQuery s) as [q |] eqn:Hq.
  - destruct (multiselectPattern s) as [pattern |] eqn:Hp.
    + unfold bind at 1. unfold get. rewrite Hp.
      rewrite (bind_run _ (pushLoop_run pattern (fieldsInQuery s) _ s q Hq)).
      run_monad. state_simpl. rewrite ?Hp. reflexivity.
    + run_monad. rewrite ?Hp, ?Hq. state_simpl. rewrite ?Hp, ?Hq, ?app_nil_r. reflexivity.
  - destruct (multiselectPattern s) as [pattern |] eqn:Hp.
    + unfold bind at 1. unfold get. rewrite Hp.
      destruct (pushLoop_stuck pattern (fieldsInQuery s) (fieldsMap_values d) s Hq)
        as [E | E].
      * rewrite (bind_run _ E). run_monad. rewrite Hq. reflexivity.
      * rewrite (bind_run_thrown _ E). reflexivity.
    + run_monad. rewrite ?Hp, ?Hq. state_simpl. rewrite ?Hp, ?Hq. reflexivity.
Qed.

Lemma removeBy_skip (pre r : list SOQLField) (y : SOQLField) (x : string) :
  (forall f, In f pre -> (field f =? x) = false) ->
  field y = x ->
  removeBy (pre ++ y :: r) x = pre ++ r.
Proof.
  intros Hpre Hy. induction pre as [| f pre IH]; simpl.
  - now rewrite Hy, String.eqb_refl.
  - rewrite (Hpre f (or_introl eq_refl)). f_equal.
    apply IH. intros g Hg. apply Hpre. now right.
Qed.

Lemma validateLoop_run d b (rest : list string) : forall pre sc q s,
  script s = Some sc -> parsedQuery s = Some q ->
  fields q = pre ++ map getComposedField rest ->
  (forall f, In f pre -> missingIn d (field f) = false) ->
  forEach rest (_validateFields_forEach d b) s
  = (Returned tt,
     set_parsedQuery
       (Some (withFields
                (pre ++ filter (fun f => negb (missingIn d (field f)))
                          (map getComposedField rest)) q))
       (set_script
          (Some (logAll (map (missingWarning b (name s)) (filter (missingIn d) rest))
                        sc)) s)).
Proof.
  induction rest as [| x rest IH]; intros pre sc q s Hsc Hq Hfields Hpre.
  - simpl. unfold ret, logAll. simpl. simpl in Hfields.
    rewrite <- Hfields, withFields_fields, <- Hsc, set_script_same, <- Hq.
    now rewrite set_parsedQuery_same.
  - simpl forEach. unfold _validateFields_forEach at 1.
    fold (missingIn d x). simpl filter. simpl map in Hfields.
    unfold getComposedField at 1. simpl field.
    destruct (missingIn d x) eqn:Emiss; simpl negb; cbv iota.
    + unfold nameOfString, looseEqString. run_monad.
      assert (Hrem : removeBy (fields q) x = pre ++ map getComposedField rest).
      { rewrite Hfields. apply removeBy_skip; [| reflexivity].
        intros f Hf. apply String.eqb_neq. intros E.
        specialize (Hpre f Hf). rewrite E, Emiss in Hpre. discriminate Hpre. }
      destruct b; state_simpl; rewrite Hsc; state_simpl; rewrite Hq; state_simpl;
        (erewrite IH;
         [ | reflexivity | reflexivity | state_simpl; exact Hrem | exact Hpre ]);
        reflexivity.
    + run_monad.
      erewrite (IH (pre ++ [getComposedField x])); [| exact Hsc | exact Hq | |].
      * rewrite <- app_assoc. reflexivity.
      * rewrite <- app_assoc. exact Hfields.
      * intros f Hf. apply in_app_or in Hf. destruct Hf as [Hf | [<- | []]].
        -- now apply Hpre.
        -- exact Emiss.
Qed.

Lemma validateLoop_stuck d b s (rest : list string) :
  script s = None ->
  forEach rest (_validateFields_forEach d b) s = (Returned tt, s)
  \/ forEach rest (_validateFields_forEach d b) s = (Thrown TypeError, s).
Proof.
  intros Hsc. induction rest as [| x rest IH]; [now left |].
  simpl forEach. unfold _validateFields_forEach at 1 3.
  destruct (negb (isComplexOr__rField x) && negb (fieldsMap_has d x)).
  - right. unfold nameOfString, looseEqString. run_monad.
    destruct b; state_simpl; rewrite Hsc; reflexivity.
  - exact IH.
Qed.

Lemma map_getComposedField_field (fs : list SOQLField) :
  map getComposedField (map field fs) = fs.
Proof.
  induction fs as [| f r IH]; simpl; [reflexivity |].
  now rewrite getComposedField_field, IH.
Qed.

(** [_validateFields] on a descriptor that has its script and a parsed query:
    the only exception is the one for an empty field list, and the loop
    leaves exactly the fields that are complex or in the snapshot. *)
Lemma _validateFields_run sc q d b s :
  script s = Some sc -> parsedQuery s = Some q ->
  _validateFields d b s
  = if (length (fields q) =? 0)%nat then
      (Thrown (CommandInitializationError
                 (Res missingFieldsToProcess [Lit (name s)])), s)
    else if negb (isExtraObject s) && negb (isSpecialObject s)
         then (Returned tt, validatedState sc q d b s)
         else (Returned tt, s).
Proof.
  intros Hsc Hq. unfold _validateFields. unfold bind at 1. unfold get.
  unfold fieldsInQuery. rewrite Hq, length_map.
  destruct (length (fields q) =? 0)%nat.
  - run_monad. rewrite Hsc. reflexivity.
  - destruct (negb (isExtraObject s) && negb (isSpecialObject s)); [| reflexivity].
    rewrite (validateLoop_run d b (map field (fields q)) [] sc q s Hsc Hq).
    + unfold validatedState, validatedQuery.
      rewrite map_getComposedField_field. reflexivity.
    + now rewrite map_getComposedField_field.
    + intros f [].
Qed.

(** When [_validateFields] returns, either nothing changed or the descriptor
    is the validated one. *)
Lemma _validateFields_returned d b s s' :
  _validateFields d b s = (Returned tt, s') ->
  s' = s
  \/ exists sc q, script s = Some sc /\ parsedQuery s = Some q
                  /\ s' = validatedState sc q d b s.
Proof.
  intros Hrun.
  destruct (script s) as [sc |] eqn:Hsc.
  - destruct (parsedQuery s) as [q |] eqn:Hq.
    + rewrite (_validateFields_run sc q d b s Hsc Hq) in Hrun.
      destruct (length (fields q) =? 0)%nat; [discriminate Hrun |].
      destruct (negb (isExtraObject s) && negb (isSpecialObject s));
        injection Hrun as <-; [right; now exists sc, q | now left].
    + unfold _validateFields, bind, get, fieldsInQuery, theScript in Hrun.
      rewrite Hq in Hrun. simpl in Hrun. run_monad_in Hrun.
      rewrite Hsc in Hrun. discriminate Hrun.
  - left. unfold _validateFields in Hrun. unfold bind at 1 in Hrun.
    unfold get in Hrun.
    destruct (length (fieldsInQuery s) =? 0)%nat.
    + run_monad_in Hrun. rewrite Hsc in Hrun. discriminate Hrun.
    + destruct (negb (isExtraObject s) && negb (isSpecialObject s)).
      * destruct (validateLoop_stuck d b s (fieldsInQuery s) Hsc) as [E | E];
          rewrite E in Hrun; congruence.
      * unfold ret in Hrun. congruence.
Qed.

(* ------------------------------------------------------------------ *)
(** ** Properties of the field expansion *)

Lemma matchesPattern_new pattern original fd :
  matchesPattern pattern original fd = true ->
  includes (SFieldDescribe.name fd) original = false.
Proof.
  unfold matchesPattern. intros H. apply andb_true_iff in H. destruct H as [_ H].
  destruct (includes (SFieldDescribe.name fd) original); [discriminate H | reflexivity].
Qed.

Lemma matchesPattern_original pattern original original' fd :
  matchesPattern pattern original fd = true ->
  includes (SFieldDescribe.name fd) original' = false ->
  matchesPattern pattern original' fd = true.
Proof.
  unfold matchesPattern. intros H H'. apply andb_true_iff in H.
  destruct H as [H _]. rewrite H, H'. reflexivity.
Qed.

Lemma filter_filter {A} (p : A -> bool) (l : list A) :
  filter p (filter p l) = filter p l.
Proof.
  induction l as [| x r IH]; simpl; [reflexivity |].
  destruct (p x) eqn:E; simpl; rewrite ?E, IH; reflexivity.
Qed.

Lemma filter_none {A} (p : A -> bool) (l : list A) :
  (forall x, In x l -> p x = false) -> filter p l = [].
Proof.
  induction l as [| x r IH]; simpl; intros H; [reflexivity |].
  rewrite (H x (or_introl eq_refl)). apply IH. intros y Hy. apply H. now right.
Qed.

(** What a second expansion would push is excluded. *)
Lemma expansion_again s d q :
  parsedQuery s = Some q ->
  filter (notExcluded s) (expansion (expandedState s d q) d) = [].
Proof.
  intros Hq. apply filter_none. intros f Hf.
  unfold expansion in Hf. unfold expandedState in Hf at 1.
  state_simpl_in Hf.
  destruct (multiselectPattern s) as [pattern |] eqn:Hp; [| destruct Hf].
  apply in_map_iff in Hf. destruct Hf as [fd [<- Hfd]].
  apply filter_In in Hfd. destruct Hfd as [Hin Hcond].
  apply andb_true_iff in Hcond. destruct Hcond as [Hmatch Huse].
  destruct (notExcluded s (getComposedField (SFieldDescribe.name fd))) eqn:Hex;
    [| reflexivity].
  exfalso.
  pose proof (matchesPattern_new _ _ _ Hmatch) as Hnew.
  apply includes_false in Hnew. apply Hnew. clear Hnew.
  unfold fieldsInQuery, expandedState, expandedQuery. state_simpl.
  apply in_map_iff. exists (getComposedField (SFieldDescribe.name fd)).
  split; [reflexivity |]. apply filter_In. split; [| exact Hex].
  apply in_or_app.
  destruct (includes (SFieldDescribe.name fd) (fieldsInQuery s)) eqn:Hold.
  - left. apply includes_In in Hold. unfold fieldsInQuery in Hold.
    rewrite Hq in Hold. apply in_map_iff in Hold. destruct Hold as [g [Eg Hg]].
    rewrite <- Eg, getComposedField_field. exact Hg.
  - right. unfold expansion. rewrite Hp. apply in_map_iff. exists fd.
    split; [reflexivity |]. apply filter_In. split; [exact Hin |].
    apply andb_true_iff. split; [| exact Huse].
    exact (matchesPattern_original _ _ _ _ Hmatch Hold).
Qed.

(** C6.  Applying the expansion a second time with the same snapshot gives
    the outcome and the descriptor, hence the resolved fields, of applying it
    once. *)
Theorem addOrRemmoveFields_idempotent d s :
  (_addOrRemmoveFields d ;; _addOrRemmoveFields d) s = _addOrRemmoveFields d s.
Proof.
  unfold bind. rewrite (_addOrRemmoveFields_run d s).
  destruct (parsedQuery s) as [q |] eqn:Hq; [| reflexivity].
  rewrite _addOrRemmoveFields_run.
  change (parsedQuery (expandedState s d q)) with (Some (expandedQuery s d q)).
  f_equal.
  assert (E : expandedQuery (expandedState s d q) d (expandedQuery s d q)
              = expandedQuery s d q).
  { unfold expandedQuery at 1 2.
    change (notExcluded (expandedState s d q)) with (notExcluded s).
    state_simpl. rewrite filter_app, filter_filter, (expansion_again s d q Hq).
    rewrite app_nil_r. reflexivity. }
  unfold expandedState at 1. rewrite E. reflexivity.
Qed.

Lemma _addOrRemmoveFields_excludedFields d :
  preserves excludedFields (_addOrRemmoveFields d).
Proof. unfold _addOrRemmoveFields, _addOrRemmoveFields_forEach. frame. Qed.

Lemma _validateFields_excludedFields d b :
  preserves excludedFields (_validateFields d b).
Proof. unfold _validateFields, _validateFields_forEach. frame. Qed.

(** After an expansion that returns no excluded field is in the query. *)
Lemma _addOrRemmoveFields_excludes d s s' :
  _addOrRemmoveFields d s = (Returned tt, s') ->
  forall x, In x (excludedFields s) -> ~ In x (fieldsInQuery s').
Proof.
  rewrite _addOrRemmoveFields_run.
  destruct (parsedQuery s) as [q |]; [| discriminate].
  intros H x Hx Hin. injection H as <-.
  unfold fieldsInQuery, expandedState, expandedQuery in Hin. state_simpl_in Hin.
  apply in_map_iff in Hin. destruct Hin as [f [<- Hf]].
  apply filter_In in Hf. destruct Hf as [_ Hf]. unfold notExcluded in Hf.
  apply negb_true_iff, includes_false in Hf. contradiction.
Qed.

(** A validation that returns adds no field to the query. *)
Lemma _validateFields_shrinks d b s s' :
  _validateFields d b s = (Returned tt, s') ->
  forall x, In x (fieldsInQuery s') -> In x (fieldsInQuery s).
Proof.
  forget.
  intros H x Hin.
  destruct (_validateFields_returned d b s s' H) as [-> | [sc [q [_ [Hq ->]]]]];
    [exact Hin |].
  unfold fieldsInQuery in *. rewrite Hq.
  unfold validatedState, validatedQuery in Hin. state_simpl_in Hin.
  apply in_map_iff in Hin. destruct Hin as [f [<- Hf]].
  apply filter_In in Hf. apply in_map. tauto.
Qed.

Lemma describeSourceBlock_excludes org s s' :
  describeSourceBlock org s = (Returned tt, s') ->
  excludedFields s' = excludedFields s
  /\ forall x, In x (excludedFields s) -> ~ In x (fieldsInQuery s').
Proof.
  intros H. unfold describeSourceBlock in H.
  cbv beta iota zeta delta [bind get call modify theScript ret throw] in H.
  destruct (describeSObjectAsync org (name s)) as [d | ex]; [| discriminate H].
  state_simpl_in H.
  destruct (script s) as [sc |]; [| discriminate H].
  assert (Hsteps : exists s0 s1,
            excludedFields s0 = excludedFields s
            /\ _addOrRemmoveFields d s0 = (Returned tt, s1)
            /\ _validateFields d true s1 = (Returned tt, s')).
  { destruct (DATA_MEDIA_TYPE_eqb (media (targetOrg sc)) File);
      match type of H with
      | context [_addOrRemmoveFields d ?st] =>
          exists st; destruct (_addOrRemmoveFields d st) as [[[] | ex] s1];
          [| discriminate H]
      end;
      exists s1; (split; [reflexivity |]); (split; [reflexivity |]);
      destruct (_validateFields d true s1) as [[[] | ex] s2]; congruence. }
  clear H. destruct Hsteps as [s0 [s1 [Hex0 [Hexp Hv]]]].
  assert (Hex1 : excludedFields s1 = excludedFields s)
    by (rewrite (preserves_run (_addOrRemmoveFields_excludedFields d) Hexp);
        exact Hex0).
  split.
  - rewrite (preserves_run (_validateFields_excludedFields d true) Hv). exact Hex1.
  - intros x Hx Hin. apply (_validateFields_shrinks d true s1 s' Hv) in Hin.
    revert Hin. apply (_addOrRemmoveFields_excludes d s0 s1 Hexp).
    rewrite Hex0. exact Hx.
Qed.

Lemma describeTargetBlock_excludes org sc s s' :
  script s = Some sc ->
  describeTargetBlock org s = (Returned tt, s') ->
  excludedFields s' = excludedFields s
  /\ (media (sourceOrg sc) = File
      \/ (forall x, In x (excludedFields s) -> ~ In x (fieldsInQuery s)) ->
      forall x, In x (excludedFields s) -> ~ In x (fieldsInQuery s')).
Proof.
  intros Hsc H. unfold describeTargetBlock in H.
  cbv beta iota zeta delta [bind get call modify theScript ret throw] in H.
  destruct (describeSObjectAsync org (name s)) as [d | ex]; [| discriminate H].
  state_simpl_in H. rewrite Hsc in H.
  destruct (media (sourceOrg sc)); state_simpl_in H.
  - (* the source is an org: validation only *)
    match type of H with
    | context [_validateFields d false ?st] =>
        assert (Hv : _validateFields d false st = (Returned tt, s'))
          by (destruct (_validateFields d false st) as [[[] | ex] s2]; congruence)
    end.
    clear H. split.
    + now rewrite (preserves_run (_validateFields_excludedFields d false) Hv).
    + intros [Hfile | Hno] x Hx Hin; [discriminate Hfile |].
      apply (_validateFields_shrinks d false _ s' Hv) in Hin.
      exact (Hno x Hx Hin).
  - (* the source is a file: expansion, then validation *)
    match type of H with
    | context [_addOrRemmoveFields d ?st] =>
        destruct (_addOrRemmoveFields d st) as [[[] | ex] s1] eqn:Hexp;
        [| discriminate H]
    end.
    assert (Hv : _validateFields d false s1 = (Returned tt, s'))
      by (destruct (_validateFields d false s1) as [[[] | ex] s2]; congruence).
    clear H.
    pose proof (preserves_run (_addOrRemmoveFields_excludedFields d) Hexp) as Hex1.
    state_simpl_in Hex1.
    split.
    + rewrite (preserves_run (_validateFields_excludedFields d false) Hv).
      exact Hex1.
    + intros _ x Hx Hin.
      apply (_validateFields_shrinks d false s1 s' Hv) in Hin.
      revert Hin. apply (_addOrRemmoveFields_excludes d _ s1 Hexp). exact Hx.
Qed.

Lemma describeSourceBlock_orgs org : preserves orgs (describeSourceBlock org).
Proof.
  unfold describeSourceBlock, _addOrRemmoveFields, _addOrRemmoveFields_forEach,
    _validateFields, _validateFields_forEach.
  frame.
Qed.

Lemma describeCatch_returned key ex s r s' :
  describeCatch key ex s = (r, s') -> exists ex', r = Thrown ex' /\ s' = s.
Proof.
  unfold describeCatch. destruct (isCommandInitializationError ex).
  - unfold throw. intros [= <- <-]. now exists ex.
  - run_monad. destruct (script s); intros [= <- <-]; eexists; split; reflexivity.
Qed.

Lemma tryCatch_describeCatch_returned body key s s' :
  tryCatch body (describeCatch key) s = (Returned tt, s') ->
  body s = (Returned tt, s').
Proof.
  unfold tryCatch. destruct (body s) as [[[] | ex] s1]; intros H; [exact H |].
  destruct (describeCatch_returned key ex s1 _ _ H) as [ex' [E _]]. discriminate E.
Qed.

Lemma describeAsync_run s :
  isDescribed s = false ->
  describeAsync s = (describeAsync_source ;; describeAsync_target) s.
Proof.
  intros Hd. unfold describeAsync.
  unfold bind at 1. unfold get at 1. rewrite Hd.
  unfold bind at 1. unfold get at 1. rewrite Hd. reflexivity.
Qed.

Lemma describeAsync_source_run sc s :
  script s = Some sc ->
  describeAsync_source s
  = match media (sourceOrg sc) with
    | Org => tryCatch (describeSourceBlock (sourceOrg sc))
                      (describeCatch objectSourceDoesNotExist)
                      (announced sc source s)
    | File => (Returned tt, s)
    end.
Proof.
  intros Hsc. unfold describeAsync_source, announced.
  unfold bind at 1. unfold theScript at 1. unfold bind at 1. unfold get at 1.
  rewrite Hsc. unfold ret at 1.
  destruct (media (sourceOrg sc)); state_simpl; [| reflexivity].
  run_monad. rewrite Hsc. reflexivity.
Qed.

Lemma describeAsync_target_run sc s :
  script s = Some sc ->
  describeAsync_target s
  = match media (targetOrg sc) with
    | Org => tryCatch (describeTargetBlock (targetOrg sc))
                      (describeCatch objectTargetDoesNotExist)
                      (announced sc target s)
    | File => (Returned tt, s)
    end.
Proof.
  intros Hsc. unfold describeAsync_target, announced.
  unfold bind at 1. unfold theScript at 1. unfold bind at 1. unfold get at 1.
  rewrite Hsc. unfold ret at 1.
  destruct (media (targetOrg sc)); state_simpl; [| reflexivity].
  run_monad. rewrite Hsc. reflexivity.
Qed.

Lemma describeAsync_source_orgs : preserves orgs describeAsync_source.
Proof.
  unfold describeAsync_source, describeCatch. frame.
  apply describeSourceBlock_orgs.
Qed.

Lemma describeAsync_source_name : preserves name describeAsync_source.
Proof.
  unfold describeAsync_source, describeCatch, describeSourceBlock,
    _addOrRemmoveFields, _addOrRemmoveFields_forEach,
    _validateFields, _validateFields_forEach.
  frame.
Qed.

(* ------------------------------------------------------------------ *)
(** ** Properties of [describeAsync] *)

(** C7.  When [describeAsync] returns on a descriptor that was not described
    and has a describable side, so that the field expansion has run on that
    side, no field of the exclusion list is in the resolved query: neither
    one the user listed, nor one the multiselect pattern matches. *)
Theorem describeAsync_no_excluded_field sc s s' :
  isDescribed s = false ->
  script s = Some sc ->
  media (sourceOrg sc) = Org \/ media (targetOrg sc) = Org ->
  describeAsync s = (Returned tt, s') ->
  excludedFields s' = excludedFields s
  /\ forall x, In x (excludedFields s) -> ~ In x (fieldsInQuery s').
Proof.
  intros Hd Hsc Hside H. rewrite (describeAsync_run s Hd) in H.
  apply bind_returned in H. destruct H as [[] [s1 [Hsrc Htgt]]].
  pose proof (preserves_run describeAsync_source_orgs Hsrc) as Horgs.
  unfold orgs in Horgs. rewrite Hsc in Horgs.
  destruct (script s1) as [sc1 |] eqn:Hsc1; [| discriminate Horgs].
  injection Horgs as Esrc Etgt.
  rewrite (describeAsync_source_run sc s Hsc) in Hsrc.
  rewrite (describeAsync_target_run sc1 s1 Hsc1), Etgt in Htgt.
  assert (Hann : forall sc0 side s0 x,
             In x (fieldsInQuery (announced sc0 side s0)) -> In x (fieldsInQuery s0))
    by (intros; assumption).
  destruct (media (sourceOrg sc)) eqn:Msrc.
  - (* the source was described *)
    apply tryCatch_describeCatch_returned in Hsrc.
    apply describeSourceBlock_excludes in Hsrc. destruct Hsrc as [Hex1 Hno1].
    change (excludedFields (announced sc source s)) with (excludedFields s) in *.
    destruct (media (targetOrg sc)).
    + apply tryCatch_describeCatch_returned in Htgt.
      apply (describeTargetBlock_excludes _ (logger_log
               (InfoNormal gettingMetadataForSObject [Lit (name s1); Res target []]) sc1))
        in Htgt; [| reflexivity].
      destruct Htgt as [Hex2 Hno2].
      change (excludedFields (announced sc1 target s1)) with (excludedFields s1) in *.
      split; [congruence |].
      rewrite <- Hex1. apply Hno2. right. rewrite Hex1. exact Hno1.
    + injection Htgt as <-. split; assumption.
  - (* the source is a file: the target is described *)
    injection Hsrc as <-.
    destruct Hside as [Hside | Hside]; [discriminate Hside |].
    rewrite Hside in Htgt.
    apply tryCatch_describeCatch_returned in Htgt.
    apply (describeTargetBlock_excludes _ (logger_log
             (InfoNormal gettingMetadataForSObject [Lit (name s); Res target []]) sc1))
      in Htgt; [| reflexivity].
    destruct Htgt as [Hex2 Hno2].
    change (excludedFields (announced sc1 target s)) with (excludedFields s) in *.
    split; [exact Hex2 |].
    apply Hno2. left. state_simpl. rewrite Esrc. exact Msrc.
Qed.

Lemma describeTargetBlock_orgs org : preserves orgs (describeTargetBlock org).
Proof.
  unfold describeTargetBlock, _addOrRemmoveFields, _addOrRemmoveFields_forEach,
    _validateFields, _validateFields_forEach.
  frame.
Qed.

Lemma describeSourceBlock_name org : preserves name (describeSourceBlock org).
Proof.
  unfold describeSourceBlock, _addOrRemmoveFields, _addOrRemmoveFields_forEach,
    _validateFields, _validateFields_forEach.
  frame.
Qed.

Lemma describeTargetBlock_name org : preserves name (describeTargetBlock org).
Proof.
  unfold describeTargetBlock, _addOrRemmoveFields, _addOrRemmoveFields_forEach,
    _validateFields, _validateFields_forEach.
  frame.
Qed.

(** The [catch] of a side, on a descriptor that holds its script. *)
Lemma tryCatch_describeCatch_thrown body key s ex s1 :
  body s = (Thrown ex, s1) ->
  script s1 <> None ->
  tryCatch body (describeCatch key) s = (Thrown (rethrown key (name s1) ex), s1).
Proof.
  intros Hbody Hsc. unfold tryCatch, describeCatch, rethrown. rewrite Hbody.
  destruct (isCommandInitializationError ex); [reflexivity |].
  run_monad. destruct (script s1); [reflexivity | contradiction].
Qed.

Lemma orgs_script s s' : orgs s' = orgs s -> script s <> None -> script s' <> None.
Proof.
  unfold orgs. destruct (script s), (script s'); congruence.
Qed.

(** C8.  An exception of the [try] of a side leaves [describeAsync] as it is
    when it is a [CommandInitializationError]; any other exception leaves it
    as an [OrgMetadataError] whose message is the resource of that side
    (source or target) with the name of the object. *)
Theorem describeAsync_catch_policy sc s ex s1 :
  isDescribed s = false ->
  script s = Some sc ->
  (media (sourceOrg sc) = Org ->
   describeSourceBlock (sourceOrg sc) (announced sc source s) = (Thrown ex, s1) ->
   describeAsync s
   = (Thrown (if isCommandInitializationError ex then ex
              else OrgMetadataError (Res objectSourceDoesNotExist [Lit (name s)])),
      s1))
  /\ (forall s0 sc0,
        describeAsync_source s = (Returned tt, s0) ->
        script s0 = Some sc0 ->
        media (targetOrg sc0) = Org ->
        describeTargetBlock (targetOrg sc0) (announced sc0 target s0) = (Thrown ex, s1) ->
        describeAsync s
        = (Thrown (if isCommandInitializationError ex then ex
                   else OrgMetadataError (Res objectTargetDoesNotExist [Lit (name s)])),
           s1)).
Proof.
  intros Hd Hsc. split.
  - intros Hm Hblock. rewrite (describeAsync_run s Hd).
    apply bind_run_thrown. rewrite (describeAsync_source_run sc s Hsc), Hm.
    rewrite (tryCatch_describeCatch_thrown _ objectSourceDoesNotExist _ _ _ Hblock).
    + unfold rethrown.
      now rewrite (preserves_run (describeSourceBlock_name _) Hblock).
    + apply (orgs_script (announced sc source s)).
      * exact (preserves_run (describeSourceBlock_orgs _) Hblock).
      * discriminate.
  - intros s0 sc0 Hsrc Hsc0 Hm Hblock. rewrite (describeAsync_run s Hd).
    rewrite (bind_run _ Hsrc).
    rewrite (describeAsync_target_run sc0 s0 Hsc0), Hm.
    rewrite (tryCatch_describeCatch_thrown _ objectTargetDoesNotExist _ _ _ Hblock).
    + unfold rethrown.
      rewrite (preserves_run (describeTargetBlock_name _) Hblock).
      change (name (announced sc0 target s0)) with (name s0).
      now rewrite (preserves_run describeAsync_source_name Hsrc).
    + apply (orgs_script (announced sc0 target s0)).
      * exact (preserves_run (describeTargetBlock_orgs _) Hblock).
      * discriminate.
Qed.

(** C10.  With a file on both sides [describeAsync] returns and leaves the
    descriptor as it was, whatever the metadata client would answer and
    also where an expansion or a validation would throw: nothing is logged,
    the query is untouched, and however often it is called the descriptor
    stays undescribed and its field map empty. *)
Theorem describeAsync_files_only sc s :
  isDescribed s = false ->
  script s = Some sc ->
  media (sourceOrg sc) = File ->
  media (targetOrg sc) = File ->
  describeAsync s = (Returned tt, s)
  /\ forall n,
       let s' := Nat.iter n (fun st => snd (describeAsync st)) s in
       s' = s /\ isDescribed s' = false /\ fieldsInQueryMap s' = [].
Proof.
  intros Hd Hsc Hsrc Htgt.
  assert (Hrun : describeAsync s = (Returned tt, s)).
  { rewrite (describeAsync_run s Hd). unfold bind.
    rewrite (describeAsync_source_run sc s Hsc), Hsrc.
    rewrite (describeAsync_target_run sc s Hsc), Htgt. reflexivity. }
  split; [exact Hrun |].
  intros n.
  assert (Hiter : Nat.iter n (fun st => snd (describeAsync st)) s = s).
  { induction n as [| n IH]; simpl; [reflexivity |]. rewrite IH, Hrun. reflexivity. }
  simpl. rewrite Hiter. split; [reflexivity |]. split; [exact Hd |].
  unfold fieldsInQueryMap. unfold isDescribed in Hd.
  destruct (sourceSObjectDescribe s); [discriminate Hd | reflexivity].
Qed.

(* ------------------------------------------------------------------ *)
(** ** The mandatory fields through setup, expansion and validation *)

Lemma count_occ_filter_names (p : string -> bool) (fs : list SOQLField) (n : string) :
  count_occ string_dec (map field (filter (fun f => p (field f)) fs)) n
  = if p n then count_occ string_dec (map field fs) n else 0.
Proof.
  induction fs as [| f r IH]; simpl; [now destruct (p n) |].
  destruct (string_dec (field f) n) as [E | N].
  - subst n. destruct (p (field f)) eqn:Hp; simpl.
    + destruct (string_dec (field f) (field f)); [| congruence].
      now rewrite IH.
    + exact IH.
  - destruct (p (field f)); simpl; [| exact IH].
    destruct (string_dec (field f) n); [contradiction | exact IH].
Qed.

Lemma expansion_new s d n :
  In n (fieldsInQuery s) ->
  count_occ string_dec (map field (expansion s d)) n = 0.
Proof.
  intros Hin. apply count_occ_not_In. intros Hn.
  unfold expansion in Hn. destruct (multiselectPattern s) as [pattern |]; [| destruct Hn].
  rewrite map_map in Hn. apply in_map_iff in Hn. destruct Hn as [fd [E Hfd]].
  simpl in E. subst n. apply filter_In in Hfd. destruct Hfd as [_ Hcond].
  apply andb_true_iff in Hcond. destruct Hcond as [Hmatch _].
  apply matchesPattern_new, includes_false in Hmatch. contradiction.
Qed.

Lemma setupQuery_mandatory sc s pq n :
  n = "Id" \/ n = externalIdInQuery (initialized sc s) ->
  count_occ string_dec (map field (fields (setupQuery sc s pq))) n = 1.
Proof.
  intros Hn. unfold setupQuery. state_simpl. apply distinctArray_once.
  rewrite map_app. apply in_or_app. destruct Hn as [-> | ->].
  - left. destruct (collapsedFields_head (initialized sc s) pq) as [r ->].
    now left.
  - right. now left.
Qed.

(** Whatever is missing from the snapshot, the external id included,
    [_validateFields] never throws an [OrgMetadataError]: its branch for a
    missing external id is never taken. *)
Lemma _validateFields_never_OrgMetadataError d b s message :
  fst (_validateFields d b s) <> Thrown (OrgMetadataError message).
Proof.
  destruct (script s) as [sc |] eqn:Hsc.
  - destruct (parsedQuery s) as [q |] eqn:Hq.
    + rewrite (_validateFields_run sc q d b s Hsc Hq).
      destruct (length (fields q) =? 0)%nat; [discriminate |].
      destruct (negb (isExtraObject s) && negb (isSpecialObject s)); discriminate.
    + unfold _validateFields, fieldsInQuery. run_monad. rewrite Hq. simpl.
      rewrite Hsc. discriminate.
  - unfold _validateFields. unfold bind at 1. unfold get.
    destruct (length (fieldsInQuery s) =? 0)%nat.
    + run_monad. rewrite Hsc. discriminate.
    + destruct (negb (isExtraObject s) && negb (isSpecialObject s)).
      * destruct (validateLoop_stuck d b s (fieldsInQuery s) Hsc) as [E | E];
          rewrite E; discriminate.
      * discriminate.
Qed.

(** C4, as the code has it.  After a [setup] that returns, [Id] and the
    external id as it is queried are each exactly once in the resolved
    query.  The expansion that follows returns and keeps each of them
    exactly once unless the exclusion list names it, in which case it is not
    in the query any more.  A validation that then returns changes nothing
    for a field that is complex or in the snapshot. *)
Theorem setup_expansion_mandatory_fields sc s s1 d n :
  isInitialized s = false ->
  setup sc s = (Returned tt, s1) ->
  n = "Id" \/ n = externalIdInQuery s1 ->
  count_occ string_dec (fieldsInQuery s1) n = 1
  /\ exists s2,
       _addOrRemmoveFields d s1 = (Returned tt, s2)
       /\ count_occ string_dec (fieldsInQuery s2) n
          = (if includes n (excludedFields s1) then 0 else 1)
       /\ forall d' b s3,
            _validateFields d' b s2 = (Returned tt, s3) ->
            missingIn d' n = false ->
            count_occ string_dec (fieldsInQuery s3) n
            = count_occ string_dec (fieldsInQuery s2) n.
Proof.
  intros Hi Hrun Hn.
  destruct (setup_returned sc s s1 Hi Hrun) as [pq [_ [Hlast Hq]]].
  assert (Hext : externalIdInQuery s1 = externalIdInQuery (initialized sc s)).
  { unfold externalIdInQuery, hasComplexExternalId, complexExternalId.
    rewrite (preserves_run setup_parseDeleteQuery_externalId Hlast).
    now rewrite beforeDeleteQuery_externalId. }
  rewrite Hext in Hn.
  assert (Hone : count_occ string_dec (fieldsInQuery s1) n = 1).
  { unfold fieldsInQuery. rewrite Hq. now apply setupQuery_mandatory. }
  split; [exact Hone |].
  rewrite _addOrRemmoveFields_run, Hq. eexists. split; [reflexivity |].
  assert (Hexp : count_occ string_dec
                   (fieldsInQuery (expandedState s1 d (setupQuery sc s pq))) n
                 = if includes n (excludedFields s1) then 0 else 1).
  { unfold fieldsInQuery, expandedState, expandedQuery, notExcluded. state_simpl.
    rewrite (count_occ_filter_names
               (fun x => negb (includes x (excludedFields s1)))).
    destruct (includes n (excludedFields s1)); simpl; [reflexivity |].
    rewrite map_app, count_occ_app, expansion_new.
    - unfold fieldsInQuery in Hone. rewrite Hq in Hone.
      rewrite Nat.add_0_r. exact Hone.
    - apply (count_occ_In string_dec). rewrite Hone. constructor. }
  split; [exact Hexp |].
  intros d' b s3 Hv Hmiss.
  destruct (_validateFields_returned d' b _ s3 Hv) as [-> | [sc2 [q2 [_ [Hq2 ->]]]]];
    [reflexivity |].
  unfold fieldsInQuery at 1 2. rewrite Hq2.
  unfold validatedState, validatedQuery. state_simpl.
  rewrite (count_occ_filter_names (fun x => negb (missingIn d' x))), Hmiss.
  reflexivity.
Qed.

(* ------------------------------------------------------------------ *)
(** ** Further properties of [setup] *)

Lemma initialized_parsedQuery sc s : parsedQuery (initialized sc s) = parsedQuery s.
Proof. unfold initialized. run_cases; reflexivity. Qed.

Lemma initialized_multiselectPattern sc s :
  multiselectPattern (initialized sc s) = multiselectPattern s.
Proof. unfold initialized. run_cases; reflexivity. Qed.

Lemma initialized_deleteQuery sc s : deleteQuery (initialized sc s) = deleteQuery s.
Proof. unfold initialized. run_cases; reflexivity. Qed.

Lemma initialized_parsedDeleteQuery sc s :
  parsedDeleteQuery (initialized sc s) = parsedDeleteQuery s.
Proof. unfold initialized. run_cases; reflexivity. Qed.

Lemma initialized_deleteOldData sc s :
  deleteOldData (initialized sc s) = deleteOldData s.
Proof. unfold initialized. run_cases; reflexivity. Qed.

Lemma initialized_isInitialized sc s : isInitialized (initialized sc s) = true.
Proof. unfold isInitialized. now rewrite initialized_script. Qed.

(** X1.  When the parser rejects the query, [setup] throws the
    [CommandInitializationError] of the malformed query, with the name, the
    query text and the parser's exception; nothing was parsed, but the
    descriptor holds its script by then, so that calling [setup] again
    returns at once and never parses. *)
Theorem setup_malformed_query sc s ex :
  isInitialized s = false ->
  parseQuery (query s) = Thrown ex ->
  fst (setup sc s)
  = Thrown (CommandInitializationError
              (Res MalformedQuery [Lit (name s); Lit (query s); errorText ex]))
  /\ parsedQuery (snd (setup sc s)) = parsedQuery s
  /\ query (snd (setup sc s)) = query s
  /\ forall sc', setup sc' (snd (setup sc s)) = (Returned tt, snd (setup sc s)).
Proof.
  intros Hi Hparse. rewrite (setup_run sc s Hi), Hparse. simpl.
  split; [reflexivity |]. split; [apply initialized_parsedQuery |].
  split; [apply initialized_query |].
  intros sc'. unfold setup, bind, get.
  now rewrite initialized_isInitialized.
Qed.

Lemma beforeDeleteQuery_name sc s pq :
  name (beforeDeleteQuery sc s pq) = sObject pq.
Proof. reflexivity. Qed.

Lemma beforeDeleteQuery_query sc s pq :
  query (beforeDeleteQuery sc s pq) = composeQuery (setupQuery sc s pq).
Proof. reflexivity. Qed.

Lemma beforeDeleteQuery_deleteQuery sc s pq :
  deleteQuery (beforeDeleteQuery sc s pq) = deleteQuery s.
Proof.
  unfold beforeDeleteQuery, updatedObject, withMandatoryFields, parsedState.
  run_cases; apply initialized_deleteQuery.
Qed.

Lemma beforeDeleteQuery_parsedDeleteQuery sc s pq :
  parsedDeleteQuery (beforeDeleteQuery sc s pq) = parsedDeleteQuery s.
Proof.
  unfold beforeDeleteQuery, updatedObject, withMandatoryFields, parsedState.
  run_cases; apply initialized_parsedDeleteQuery.
Qed.

Lemma beforeDeleteQuery_deleteOldData_eq sc s pq :
  deleteOldData (beforeDeleteQuery sc s pq)
  = operationIs (getOperation (operation s)) Delete || deleteOldData s.
Proof.
  unfold beforeDeleteQuery, updatedObject, withMandatoryFields, parsedState.
  state_simpl. rewrite initialized_operation.
  destruct (operationIs (getOperation (operation s)) Delete); state_simpl;
    [reflexivity | apply initialized_deleteOldData].
Qed.

Lemma beforeDeleteQuery_multiselectPattern sc s pq :
  multiselectPattern (beforeDeleteQuery sc s pq)
  = scanPattern (fields pq) (multiselectPattern s).
Proof.
  unfold beforeDeleteQuery, updatedObject, withMandatoryFields, parsedState.
  run_cases; now rewrite initialized_multiselectPattern.
Qed.

Lemma setup_parseDeleteQuery_name : preserves name setup_parseDeleteQuery.
Proof. unfold setup_parseDeleteQuery. frame. Qed.

Lemma setup_parseDeleteQuery_query : preserves query setup_parseDeleteQuery.
Proof. unfold setup_parseDeleteQuery. frame. Qed.

(** X2.  With [deleteOldData] set or the operation [Delete], the delete
    query is parsed from the configured delete query or, when that is
    empty, from the canonical text of the resolved query.  When the parser
    rejects that text [setup] throws the [CommandInitializationError] of the
    malformed delete query; the main query is resolved and the object named
    by then, and no delete query is stored. *)
Theorem setup_malformed_delete_query sc s pq ex :
  isInitialized s = false ->
  parseQuery (query s) = Returned pq ->
  deleteOldData s = true \/ operationIs (getOperation (operation s)) Delete = true ->
  parseQuery (if negb (deleteQuery s =? "") then deleteQuery s
              else composeQuery (setupQuery sc s pq)) = Thrown ex ->
  fst (setup sc s)
  = Thrown (CommandInitializationError
              (Res MalformedDeleteQuery
                   [Lit (sObject pq); Lit (deleteQuery s); errorText ex]))
  /\ parsedQuery (snd (setup sc s)) = Some (setupQuery sc s pq)
  /\ name (snd (setup sc s)) = sObject pq
  /\ parsedDeleteQuery (snd (setup sc s)) = parsedDeleteQuery s.
Proof.
  intros Hi Hparse Hdel Hbad. rewrite (setup_run sc s Hi), Hparse.
  rewrite (setup_parseDeleteQuery_run _ _ (beforeDeleteQuery_script sc s pq)).
  rewrite beforeDeleteQuery_deleteOldData_eq.
  assert (Hd : operationIs (getOperation (operation s)) Delete || deleteOldData s = true)
    by (destruct Hdel as [-> | ->]; [apply orb_true_r | reflexivity]).
  rewrite Hd. unfold deleteQueryText.
  rewrite beforeDeleteQuery_deleteQuery, beforeDeleteQuery_query, Hbad.
  cbn [fst snd].
  rewrite ?beforeDeleteQuery_deleteQuery, beforeDeleteQuery_parsedDeleteQuery.
  repeat split.
Qed.

(** X3.  Without [deleteOldData] and with another operation than [Delete],
    a [setup] that returns leaves the delete query, parsed or not, as it
    was configured. *)
Theorem setup_without_delete sc s s' :
  isInitialized s = false ->
  deleteOldData s = false ->
  operationIs (getOperation (operation s)) Delete = false ->
  setup sc s = (Returned tt, s') ->
  deleteOldData s' = false
  /\ deleteQuery s' = deleteQuery s
  /\ parsedDeleteQuery s' = parsedDeleteQuery s.
Proof.
  intros Hi Hold Hdel Hrun. rewrite (setup_run sc s Hi) in Hrun.
  destruct (parseQuery (query s)) as [pq | ex]; [| discriminate Hrun].
  rewrite (setup_parseDeleteQuery_run _ _ (beforeDeleteQuery_script sc s pq)) in Hrun.
  rewrite beforeDeleteQuery_deleteOldData_eq, Hold, Hdel in Hrun. simpl in Hrun.
  injection Hrun as <-.
  rewrite beforeDeleteQuery_deleteOldData_eq, Hold, Hdel.
  rewrite beforeDeleteQuery_deleteQuery, beforeDeleteQuery_parsedDeleteQuery.
  repeat split.
Qed.

(** X4.  A [setup] that returns touches only the field list of the parser's
    query: the object, the where clause and the limit are the parser's.  The
    descriptor is named after the object and registered under that name in
    the script, and its query text is the composition of the resolved
    query. *)
Theorem setup_resolved_query_shape sc s s' pq :
  isInitialized s = false ->
  parseQuery (query s) = Returned pq ->
  setup sc s = (Returned tt, s') ->
  exists q sc',
    parsedQuery s' = Some q
    /\ sObject q = sObject pq /\ where_ q = where_ pq /\ limit q = limit pq
    /\ name s' = sObject pq
    /\ query s' = composeQuery q
    /\ script s' = Some sc' /\ In (sObject pq) (objectsMap sc')
    /\ isLimitedQuery s'
       = (match limit pq with Some n => (0 <? n)%nat | None => false end
          || match where_ pq with Some _ => true | None => false end).
Proof.
  intros Hi Hparse Hrun. rewrite (setup_run sc s Hi), Hparse in Hrun.
  exists (setupQuery sc s pq), (objectsMap_set (sObject pq) sc).
  assert (Hq : parsedQuery s' = Some (setupQuery sc s pq))
    by (rewrite (preserves_run setup_parseDeleteQuery_parsedQuery Hrun); reflexivity).
  split; [exact Hq |].
  split; [reflexivity |]. split; [reflexivity |]. split; [reflexivity |].
  split; [rewrite (preserves_run setup_parseDeleteQuery_name Hrun); reflexivity |].
  split; [rewrite (preserves_run setup_parseDeleteQuery_query Hrun); reflexivity |].
  split; [rewrite (preserves_run setup_parseDeleteQuery_script Hrun); reflexivity |].
  split.
  - unfold objectsMap_set. state_simpl.
    destruct (includes (sObject pq) (objectsMap sc)) eqn:E.
    + now apply includes_In.
    + apply in_or_app. right. now left.
  - unfold isLimitedQuery. rewrite Hq. reflexivity.
Qed.

(** X5.  After a [setup] that returns no name is twice in the resolved
    query. *)
Theorem setup_fields_NoDup sc s s' :
  isInitialized s = false ->
  setup sc s = (Returned tt, s') ->
  NoDup (fieldsInQuery s').
Proof.
  intros Hi Hrun.
  destruct (setup_returned sc s s' Hi Hrun) as [pq [_ [_ Hq]]].
  unfold fieldsInQuery. rewrite Hq. unfold setupQuery. state_simpl.
  apply distinctArray_NoDup.
Qed.

(** X6.  For another operation than [Delete], the resolved query of a
    [setup] that returns has exactly these names: [Id], the names of the
    parser's query that are neither [all], nor a multiselect keyword, nor
    [id] in some letter case, the external id and the original external id
    as they are queried, and [IsPersonAccount] for a person-account
    [Account] or [Contact]. *)
Theorem setup_fields_membership sc s s' pq x :
  isInitialized s = false ->
  operationIs (getOperation (operation s)) Delete = false ->
  parseQuery (query s) = Returned pq ->
  setup sc s = (Returned tt, s') ->
  In x (fieldsInQuery s')
  <-> x = "Id"
      \/ (exists f, In f (fields pq) /\ keepsField f = true /\ field f = x)
      \/ x = externalIdInQuery s'
      \/ x = getComplexField (externalId s)
      \/ (isPersonAccountEnabled sc && ((name s =? "Account") || (name s =? "Contact"))
          = true /\ x = "IsPersonAccount").
Proof.
  forget.
  intros Hi Hdel Hparse Hrun.
  rewrite (setup_externalIdInQuery sc s s' Hi Hrun).
  destruct (setup_returned sc s s' Hi Hrun) as [pq' [Hparse' [_ Hq]]].
  rewrite Hparse in Hparse'. injection Hparse' as <-.
  unfold fieldsInQuery. rewrite Hq. unfold setupQuery. state_simpl.
  rewrite distinctArray_In.
  unfold collapsedFields. rewrite initialized_operation, Hdel.
  change (negb (existsb (fun y => y =? "Id") (map field (fields (resolvedQuery pq)))))
    with false.
  cbv iota. unfold mandatoryFields, complexOriginalExternalId.
  rewrite initialized_originalExternalId, initialized_name.
  rewrite map_app. unfold resolvedQuery, keptFields. state_simpl. simpl map.
  rewrite map_map. simpl.
  destruct (isPersonAccountEnabled sc && ((name s =? "Account") || (name s =? "Contact")));
    simpl; rewrite in_app_iff; simpl; rewrite in_map_iff;
    (split;
     [ intros [E | [[f [E Hf]] | H]];
       [ now left
       | right; left; exists f; apply filter_In in Hf; tauto
       | intuition (auto; try discriminate) ]
     | intros [E | [[f [Hf [Hk E]]] | H]];
       [ now left
       | right; left; exists f; split; [exact E | apply filter_In; tauto]
       | intuition (auto; try discriminate) ] ]).
Qed.

Lemma scanPattern_Some fs p : scanPattern fs (Some p) <> None.
Proof.
  revert p. induction fs as [| f r IH]; intros p; simpl; [discriminate |].
  unfold scanPattern in *. simpl.
  destruct (toLowerCase (field f) =? "all"); [apply IH |].
  destruct (includes (toLowerCase (field f)) MULTISELECT_SOQL_KEYWORDS); apply IH.
Qed.

Lemma scanPattern_None fs :
  scanPattern fs None = None
  <-> forall f, In f fs ->
        (toLowerCase (field f) =? "all") = false
        /\ includes (toLowerCase (field f)) MULTISELECT_SOQL_KEYWORDS = false.
Proof.
  induction fs as [| f r IH]; [simpl; split; [intros _ f [] | reflexivity] |].
  unfold scanPattern in *. simpl.
  destruct (toLowerCase (field f) =? "all") eqn:Eall.
  - split.
    + intros H. now apply scanPattern_Some in H.
    + intros H. destruct (H f (or_introl eq_refl)) as [H1 _]. congruence.
  - destruct (includes (toLowerCase (field f)) MULTISELECT_SOQL_KEYWORDS) eqn:Ekw.
    + split.
      * intros H. now apply scanPattern_Some in H.
      * intros H. destruct (H f (or_introl eq_refl)) as [_ H2]. congruence.
    + rewrite IH. split.
      * intros H g [<- | Hg]; [now split | now apply H].
      * intros H g Hg. apply H. now right.
Qed.

(** X7.  On a descriptor without a multiselect pattern, a [setup] that
    returns leaves it without one exactly when no field of the parser's
    query is [all] or a multiselect keyword, in any letter case. *)
Theorem setup_pattern_recorded sc s s' pq :
  isInitialized s = false ->
  multiselectPattern s = None ->
  parseQuery (query s) = Returned pq ->
  setup sc s = (Returned tt, s') ->
  multiselectPattern s' = None
  <-> forall f, In f (fields pq) ->
        (toLowerCase (field f) =? "all") = false
        /\ includes (toLowerCase (field f)) MULTISELECT_SOQL_KEYWORDS = false.
Proof.
  intros Hi Hp Hparse Hrun. rewrite (setup_run sc s Hi), Hparse in Hrun.
  rewrite (preserves_run setup_parseDeleteQuery_multiselectPattern Hrun).
  rewrite beforeDeleteQuery_multiselectPattern, Hp.
  apply scanPattern_None.
Qed.

Lemma names_filter (p : string -> bool) (fs : list SOQLField) :
  map field (filter (fun f => p (field f)) fs) = filter p (map field fs).
Proof.
  forget.
  induction fs as [| f r IH]; simpl; [reflexivity |].
  destruct (p (field f)); simpl; now rewrite IH.
Qed.

(** X8.  A descriptor without a multiselect pattern is never expanded:
    whatever the snapshot, [_addOrRemmoveFields] returns and the resolved
    query is the one before without the excluded fields, in the same
    order. *)
Theorem addOrRemmoveFields_without_pattern d s q :
  multiselectPattern s = None ->
  parsedQuery s = Some q ->
  fst (_addOrRemmoveFields d s) = Returned tt
  /\ fieldsInQuery (snd (_addOrRemmoveFields d s))
     = filter (fun x => negb (includes x (excludedFields s))) (fieldsInQuery s).
Proof.
  intros Hp Hq. rewrite _addOrRemmoveFields_run, Hq. split; [reflexivity |].
  unfold fieldsInQuery, expandedState, expandedQuery, expansion, notExcluded.
  state_simpl. rewrite Hp, Hq, app_nil_r.
  apply (names_filter (fun x => negb (includes x (excludedFields s)))).
Qed.

(* ------------------------------------------------------------------ *)
(** ** Further properties of the field expansion *)

(** X9.  The condition of the expansion, read as a statement: a field of
    the snapshot is selected exactly when it is not in the query yet and
    either the pattern has [all] set, or no property of the pattern is
    defined on the field with another value than the pattern expects.  A
    property the field does not have does not disqualify it. *)
Theorem matchesPattern_iff pattern original fd :
  matchesPattern pattern original fd = true
  <-> ~ In (SFieldDescribe.name fd) original
      /\ (pattern_get pattern "all" = Some true
          \/ forall prop, In prop (pattern_keys pattern) ->
               SFieldDescribe.get fd prop = None
               \/ SFieldDescribe.get fd prop = pattern_get pattern prop).
Proof.
  forget.
  unfold matchesPattern, ___compare, differsFromUndefinedString. simpl negb.
  cbv iota. rewrite andb_true_iff, orb_true_iff, !orb_false_r, negb_true_iff.
  assert (Hall : looseEq (Some true) (Some (looseEq (pattern_get pattern "all") (Some true)))
                 = true <-> pattern_get pattern "all" = Some true).
  { destruct (pattern_get pattern "all") as [[|] |]; simpl; split; congruence. }
  assert (Hnew : looseEq (Some (negb (includes (SFieldDescribe.name fd) original)))
                   (Some true) = true
                 <-> ~ In (SFieldDescribe.name fd) original).
  { rewrite <- includes_false.
    destruct (includes (SFieldDescribe.name fd) original); simpl; split; congruence. }
  assert (Hprops :
            existsb (fun prop =>
                       negb (looseEq (SFieldDescribe.get fd prop) (pattern_get pattern prop))
                       && negb (isUndefined (SFieldDescribe.get fd prop)))
                    (pattern_keys pattern) = false
            <-> forall prop, In prop (pattern_keys pattern) ->
                  SFieldDescribe.get fd prop = None
                  \/ SFieldDescribe.get fd prop = pattern_get pattern prop).
  { split.
    - intros H prop Hin.
      destruct (SFieldDescribe.get fd prop) as [a |] eqn:Ea; [| now left]. right.
      assert (Hc : negb (looseEq (SFieldDescribe.get fd prop) (pattern_get pattern prop))
                   && negb (isUndefined (SFieldDescribe.get fd prop)) = false).
      { destruct (negb _ && negb _) eqn:E; [| reflexivity].
        rewrite <- H. symmetry. apply existsb_exists. now exists prop. }
      rewrite Ea in Hc. simpl in Hc. rewrite andb_true_r in Hc.
      apply negb_false_iff in Hc.
      destruct (pattern_get pattern prop) as [v |]; simpl in Hc; [| discriminate Hc].
      apply Bool.eqb_prop in Hc. now subst.
    - intros H. destruct (existsb _ _) eqn:E; [| reflexivity].
      apply existsb_exists in E. destruct E as [prop [Hin Hc]].
      destruct (H prop Hin) as [E | E]; rewrite E in Hc.
      + simpl in Hc. now rewrite andb_false_r in Hc.
      + destruct (pattern_get pattern prop) as [v |]; simpl in Hc.
        * now rewrite Bool.eqb_reflx in Hc.
        * discriminate Hc. }
  rewrite Hall, Hnew, Hprops. tauto.
Qed.

(** X10.  With a multiselect pattern, the resolved query after an expansion
    that returns has exactly the names that are not excluded and were in
    the query before or are the name of a field of the snapshot that the
    pattern selects and that is not a lookup to an object kept out of
    multiselects. *)
Theorem addOrRemmoveFields_membership d s s' pattern x :
  multiselectPattern s = Some pattern ->
  _addOrRemmoveFields d s = (Returned tt, s') ->
  In x (fieldsInQuery s')
  <-> ~ In x (excludedFields s)
      /\ (In x (fieldsInQuery s)
          \/ exists fd, In fd (fieldsMap_values d)
               /\ SFieldDescribe.name fd = x
               /\ matchesPattern pattern (fieldsInQuery s) fd = true
               /\ notToUseInMultiselect fd = false).
Proof.
  forget.
  intros Hp Hrun. rewrite _addOrRemmoveFields_run in Hrun.
  destruct (parsedQuery s) as [q |] eqn:Hq; [| discriminate Hrun].
  injection Hrun as <-.
  unfold fieldsInQuery at 1. unfold expandedState, expandedQuery, notExcluded.
  state_simpl.
  rewrite (names_filter (fun y => negb (includes y (excludedFields s)))).
  rewrite filter_In, negb_true_iff, includes_false, map_app, in_app_iff.
  unfold expansion. rewrite Hp, map_map. simpl.
  assert (Hold : In x (map field (fields q)) <-> In x (fieldsInQuery s))
    by (unfold fieldsInQuery; rewrite Hq; reflexivity).
  rewrite Hold, in_map_iff. split.
  - intros [[H | [fd [E Hfd]]] Hex]; (split; [exact Hex |]); [now left |].
    right. exists fd. apply filter_In in Hfd. destruct Hfd as [Hin Hc].
    apply andb_true_iff in Hc. destruct Hc as [Hm Hu].
    apply negb_true_iff in Hu. tauto.
  - intros [Hex [H | [fd [Hin [E [Hm Hu]]]]]]; (split; [| exact Hex]); [now left |].
    right. exists fd. split; [exact E |]. apply filter_In. split; [exact Hin |].
    now rewrite Hm, Hu.
Qed.

Lemma matchesPattern_all pattern original fd :
  pattern_get pattern "all" = Some true ->
  ~ In (SFieldDescribe.name fd) original ->
  matchesPattern pattern original fd = true.
Proof.
  forget. intros Hall Hnew. apply includes_false in Hnew.
  unfold matchesPattern, ___compare, differsFromUndefinedString.
  rewrite Hall, Hnew. reflexivity.
Qed.

(** X11.  With [all] in the pattern every field of the snapshot is in the
    resolved query after the expansion, except the excluded fields and the
    lookups to objects kept out of multiselects. *)
Theorem addOrRemmoveFields_all d s q pattern fd :
  multiselectPattern s = Some pattern ->
  pattern_get pattern "all" = Some true ->
  parsedQuery s = Some q ->
  In fd (fieldsMap_values d) ->
  notToUseInMultiselect fd = false ->
  ~ In (SFieldDescribe.name fd) (excludedFields s) ->
  In (SFieldDescribe.name fd) (fieldsInQuery (snd (_addOrRemmoveFields d s))).
Proof.
  intros Hp Hall Hq Hin Hu Hex.
  rewrite _addOrRemmoveFields_run, Hq. cbn [snd].
  unfold fieldsInQuery at 1. unfold expandedState, expandedQuery, notExcluded.
  state_simpl.
  rewrite (names_filter (fun y => negb (includes y (excludedFields s)))).
  apply filter_In. split; [| now apply negb_true_iff, includes_false].
  rewrite map_app. apply in_or_app.
  destruct (in_dec string_dec (SFieldDescribe.name fd) (fieldsInQuery s)) as [Hold | Hnew].
  - left. unfold fieldsInQuery in Hold. now rewrite Hq in Hold.
  - right. unfold expansion. rewrite Hp, map_map. simpl.
    apply in_map_iff. exists fd. split; [reflexivity |].
    apply filter_In. split; [exact Hin |].
    now rewrite (matchesPattern_all pattern _ fd Hall Hnew), Hu.
Qed.

(** X12.  If no name is twice in the resolved query and the fields of the
    snapshot have different names, no name is twice in the resolved query
    after the expansion. *)
Theorem addOrRemmoveFields_NoDup d s :
  NoDup (fieldsInQuery s) ->
  NoDup (map SFieldDescribe.name (fieldsMap_values d)) ->
  NoDup (fieldsInQuery (snd (_addOrRemmoveFields d s))).
Proof.
  forget.
  intros Hnd Hd. rewrite _addOrRemmoveFields_run.
  destruct (parsedQuery s) as [q |] eqn:Hq; [| exact Hnd].
  unfold fieldsInQuery at 1. unfold expandedState, expandedQuery, notExcluded.
  state_simpl.
  rewrite (names_filter (fun y => negb (includes y (excludedFields s)))).
  apply NoDup_filter. rewrite map_app.
  assert (Hold : map field (fields q) = fieldsInQuery s)
    by (unfold fieldsInQuery; now rewrite Hq).
  rewrite Hold. apply NoDup_app; [exact Hnd | |].
  - unfold expansion. destruct (multiselectPattern s) as [pattern |]; [| constructor].
    rewrite map_map. simpl.
    revert Hd. generalize (fieldsMap_values d). intros l.
    induction l as [| fd r IH]; simpl; intros Hd; [constructor |].
    inversion Hd as [| ? ? Hfd Hr]; subst.
    destruct (matchesPattern pattern (fieldsInQuery s) fd
              && negb (notToUseInMultiselect fd)); simpl; [| now apply IH].
    constructor; [| now apply IH].
    intros Hin. apply Hfd. apply in_map_iff in Hin. destruct Hin as [g [E Hg]].
    apply filter_In in Hg. apply in_map_iff. exists g. tauto.
  - intros a Hin Hpush. unfold expansion in Hpush.
    destruct (multiselectPattern s) as [pattern |]; [| destruct Hpush].
    rewrite map_map in Hpush. simpl in Hpush. apply in_map_iff in Hpush.
    destruct Hpush as [fd [<- Hfd]]. apply filter_In in Hfd.
    destruct Hfd as [_ Hc]. apply andb_true_iff in Hc. destruct Hc as [Hm _].
    apply matchesPattern_new, includes_false in Hm. contradiction.
Qed.

(* ------------------------------------------------------------------ *)
(** ** Further properties of the field validation *)

Lemma logAll_logger entries sc : logger (logAll entries sc) = logger sc ++ entries.
Proof.
  forget. revert sc. induction entries as [| e r IH]; intros sc; simpl.
  - now rewrite app_nil_r.
  - unfold logAll in *. simpl. rewrite IH. simpl. now rewrite <- app_assoc.
Qed.

Lemma validatedState_fields sc q d b s :
  parsedQuery s = Some q ->
  fieldsInQuery (validatedState sc q d b s)
  = filter (fun x => negb (missingIn d x)) (fieldsInQuery s).
Proof.
  intros Hq. unfold fieldsInQuery, validatedState, validatedQuery. state_simpl.
  rewrite Hq. apply (names_filter (fun x => negb (missingIn d x))).
Qed.

(** X13.  On a descriptor that holds its script and has fields in its
    query, and that is neither an extra nor a special object,
    [_validateFields] returns; it leaves in the query, in their order, the
    fields that are complex or in the snapshot, and logs one warning of the
    given side for each occurrence it removed, in the order of the query,
    and nothing else. *)
Theorem validateFields_prunes sc q d b s :
  script s = Some sc ->
  parsedQuery s = Some q ->
  fields q <> [] ->
  isExtraObject s = false ->
  isSpecialObject s = false ->
  fst (_validateFields d b s) = Returned tt
  /\ fieldsInQuery (snd (_validateFields d b s))
     = filter (fun x => negb (missingIn d x)) (fieldsInQuery s)
  /\ (forall x, In x (fieldsInQuery (snd (_validateFields d b s))) ->
        isComplexOr__rField x = true \/ fieldsMap_has d x = true)
  /\ option_map logger (script (snd (_validateFields d b s)))
     = Some (logger sc
             ++ map (missingWarning b (name s))
                  (filter (missingIn d) (fieldsInQuery s))).
Proof.
  forget.
  intros Hsc Hq Hne Hextra Hspecial.
  rewrite (_validateFields_run sc q d b s Hsc Hq), Hextra, Hspecial.
  destruct (fields q) as [| f0 r0] eqn:Hf; [contradiction |].
  simpl length. simpl Nat.eqb. cbv iota. simpl andb. cbv iota. cbn [fst snd].
  pose proof (validatedState_fields sc q d b s Hq) as Hfields.
  split; [reflexivity |]. split; [exact Hfields |]. split.
  - intros x Hx. rewrite Hfields in Hx. apply filter_In in Hx.
    destruct Hx as [_ Hx]. apply negb_true_iff in Hx. unfold missingIn in Hx.
    apply andb_false_iff in Hx.
    destruct Hx as [Hx | Hx]; apply negb_false_iff in Hx; tauto.
  - unfold validatedState. cbn [script set_script set_parsedQuery option_map].
    rewrite logAll_logger. unfold fieldsInQuery. rewrite Hq. reflexivity.
Qed.

(** X14.  The order of the checks in [_validateFields], on a descriptor
    that holds its script: an empty field list is fatal first, for an extra
    or a special object too, and leaves the descriptor as it was; with
    fields in the query, an extra or a special object is not checked
    against the snapshot at all. *)
Theorem validateFields_rule_order sc d b s :
  script s = Some sc ->
  (fieldsInQuery s = [] ->
   _validateFields d b s
   = (Thrown (CommandInitializationError
                (Res missingFieldsToProcess [Lit (name s)])), s))
  /\ (fieldsInQuery s <> [] ->
      isExtraObject s = true \/ isSpecialObject s = true ->
      _validateFields d b s = (Returned tt, s)).
Proof.
  intros Hsc. split.
  - intros Hempty. unfold _validateFields. run_monad. rewrite Hempty. simpl.
    rewrite Hsc. reflexivity.
  - intros Hne Hskip. unfold _validateFields. unfold bind at 1. unfold get.
    destruct (fieldsInQuery s) as [| x r]; [contradiction |]. simpl.
    destruct Hskip as [-> | ->]; simpl; [reflexivity |].
    now rewrite andb_false_r.
Qed.

Lemma _validateFields_query d b : preserves query (_validateFields d b).
Proof. unfold _validateFields, _validateFields_forEach. frame. Qed.

(** X15.  [_validateFields] never writes the query text: when it removes a
    field from the parsed query, the text still is the one from before. *)
Theorem validateFields_query_text_stale sc q d b s x :
  script s = Some sc ->
  parsedQuery s = Some q ->
  isExtraObject s = false ->
  isSpecialObject s = false ->
  In x (fieldsInQuery s) ->
  isComplexOr__rField x = false ->
  fieldsMap_has d x = false ->
  fst (_validateFields d b s) = Returned tt
  /\ ~ In x (fieldsInQuery (snd (_validateFields d b s)))
  /\ query (snd (_validateFields d b s)) = query s.
Proof.
  intros Hsc Hq Hextra Hspecial Hin Hcomplex Hhas.
  assert (Hne : fields q <> []).
  { unfold fieldsInQuery in Hin. rewrite Hq in Hin.
    destruct (fields q); [destruct Hin | discriminate]. }
  rewrite (_validateFields_run sc q d b s Hsc Hq), Hextra, Hspecial.
  destruct (fields q) as [| f0 r0] eqn:Hf; [contradiction |].
  simpl length. simpl Nat.eqb. cbv iota. simpl andb. cbv iota. cbn [fst snd].
  split; [reflexivity |]. split.
  - rewrite (validatedState_fields sc q d b s Hq).
    intros H. apply filter_In in H. destruct H as [_ H].
    unfold missingIn in H. rewrite Hcomplex, Hhas in H. discriminate H.
  - reflexivity.
Qed.

(* ------------------------------------------------------------------ *)
(** ** Further properties of [describeAsync] *)

Ltac unfold_describe :=
  unfold describeAsync, describeAsync_source, describeAsync_target, describeCatch,
    describeSourceBlock, describeTargetBlock,
    _addOrRemmoveFields, _addOrRemmoveFields_forEach,
    _validateFields, _validateFields_forEach.

Lemma describeAsync_externalId : preserves externalId describeAsync.
Proof. unfold_describe. frame. Qed.

Lemma describeAsync_name : preserves name describeAsync.
Proof. unfold_describe. frame. Qed.

Lemma tryCatch_describeCatch_state body key s :
  snd (tryCatch body (describeCatch key) s) = snd (body s).
Proof.
  unfold tryCatch. destruct (body s) as [[[] | ex] s1]; [reflexivity |].
  destruct (describeCatch key ex s1) as [r s2] eqn:E.
  destruct (describeCatch_returned key ex s1 r s2 E) as [_ [_ ->]]. reflexivity.
Qed.

Lemma describeSourceBlock_fetch_thrown org s ex :
  describeSObjectAsync org (name s) = Thrown ex ->
  describeSourceBlock org s = (Thrown ex, s).
Proof.
  intros H. unfold describeSourceBlock. unfold bind at 1. unfold get.
  unfold bind at 1. unfold call. now rewrite H.
Qed.

Lemma describeSourceBlock_source org s d :
  describeSObjectAsync org (name s) = Returned d ->
  sourceSObjectDescribe (snd (describeSourceBlock org s)) = Some d.
Proof.
  intros H. unfold describeSourceBlock. unfold bind at 1. unfold get.
  unfold bind at 1. unfold call. rewrite H.
  unfold bind at 1. unfold modify at 1.
  match goal with
  | |- sourceSObjectDescribe (snd (?m ?st)) = _ =>
      assert (Hp : preserves sourceSObjectDescribe m)
        by (unfold _addOrRemmoveFields, _addOrRemmoveFields_forEach,
              _validateFields, _validateFields_forEach; frame);
      rewrite (Hp st)
  end.
  reflexivity.
Qed.

Lemma _validateFields_sourceSObjectDescribe_aux d b s :
  sourceSObjectDescribe (snd (_validateFields d b s)) = sourceSObjectDescribe s.
Proof.
  revert s. change (preserves sourceSObjectDescribe (_validateFields d b)).
  unfold _validateFields, _validateFields_forEach. frame.
Qed.

Lemma describeTargetBlock_keeps_source org sc s :
  script s = Some sc ->
  media (sourceOrg sc) = Org ->
  sourceSObjectDescribe (snd (describeTargetBlock org s)) = sourceSObjectDescribe s.
Proof.
  intros Hsc Hm. unfold describeTargetBlock. unfold bind at 1. unfold get.
  unfold bind at 1. unfold call.
  destruct (describeSObjectAsync org (name s)) as [d | ex]; [| reflexivity].
  unfold bind at 1. unfold modify at 1.
  unfold bind at 1. unfold theScript at 1. unfold bind at 1. unfold get at 1.
  state_simpl. rewrite Hsc. unfold ret at 1. rewrite Hm. state_simpl.
  unfold bind at 1. unfold ret at 1.
  rewrite (_validateFields_sourceSObjectDescribe_aux d false).
  reflexivity.
Qed.

(** The source snapshot after [describeAsync], once the metadata of the
    source org has arrived. *)
Lemma describeAsync_source_snapshot sc s d :
  isDescribed s = false ->
  script s = Some sc ->
  media (sourceOrg sc) = Org ->
  describeSObjectAsync (sourceOrg sc) (name s) = Returned d ->
  sourceSObjectDescribe (snd (describeAsync s)) = Some d.
Proof.
  intros Hd Hsc Hm Hfetch.
  rewrite (describeAsync_run s Hd). unfold bind.
destruct (describeAsync_source s) as [[[] | ex] s1] eqn:Esrc.
- assert (Hs1 : sourceSObjectDescribe s1 = Some d).
  { rewrite (describeAsync_source_run sc s Hsc), Hm in Esrc.
    replace s1 with (snd (tryCatch (describeSourceBlock (sourceOrg sc))
                            (describeCatch objectSourceDoesNotExist)
                            (announced sc source s))) by now rewrite Esrc.
    rewrite tryCatch_describeCatch_state. now apply describeSourceBlock_source. }
  pose proof (preserves_run describeAsync_source_orgs Esrc) as Horgs.
  unfold orgs in Horgs. rewrite Hsc in Horgs.
  destruct (script s1) as [sc1 |] eqn:Hsc1; [| discriminate Horgs].
  injection Horgs as Esrcorg Etgtorg.
  rewrite (describeAsync_target_run sc1 s1 Hsc1).
  destruct (media (targetOrg sc1)); [| exact Hs1].
  rewrite tryCatch_describeCatch_state.
  rewrite (describeTargetBlock_keeps_source _
             (logger_log (InfoNormal gettingMetadataForSObject
                            [Lit (name s1); Res target []]) sc1));
    [exact Hs1 | reflexivity | state_simpl; now rewrite Esrcorg].
- rewrite (describeAsync_source_run sc s Hsc), Hm in Esrc.
  replace s1 with (snd (tryCatch (describeSourceBlock (sourceOrg sc))
                          (describeCatch objectSourceDoesNotExist)
                          (announced sc source s))) by now rewrite Esrc.
  rewrite tryCatch_describeCatch_state. now apply describeSourceBlock_source.
Qed.

(** X16.  Once the metadata of the source org has arrived, the descriptor
    is described for good, whatever happens afterwards: also when the
    expansion, a validation or the target side throws, the source snapshot
    stays the fetched one and a further [describeAsync] returns at once
    without fetching or validating anything. *)
Theorem describeAsync_described_after_fetch sc s d :
  isDescribed s = false ->
  script s = Some sc ->
  media (sourceOrg sc) = Org ->
  describeSObjectAsync (sourceOrg sc) (name s) = Returned d ->
  sourceSObjectDescribe (snd (describeAsync s)) = Some d
  /\ describeAsync (snd (describeAsync s)) = (Returned tt, snd (describeAsync s)).
Proof.
  intros Hd Hsc Hm Hfetch.
  pose proof (describeAsync_source_snapshot sc s d Hd Hsc Hm Hfetch) as Hsrc.
  split; [exact Hsrc |].
  unfold describeAsync at 1. unfold bind at 1. unfold get at 1.
  unfold isDescribed. rewrite Hsrc. reflexivity.
Qed.

Lemma initialized_sourceSObjectDescribe sc s :
  sourceSObjectDescribe (initialized sc s) = sourceSObjectDescribe s.
Proof. unfold initialized. run_cases; reflexivity. Qed.

Lemma describeSourceBlock_without_query org sc s d :
  script s = Some sc ->
  parsedQuery s = None ->
  describeSObjectAsync org (name s) = Returned d ->
  fst (describeSourceBlock org s) = Thrown TypeError.
Proof.
  intros Hsc Hq Hfetch. unfold describeSourceBlock.
  cbv beta iota zeta delta [bind get call modify theScript ret throw].
  rewrite Hfetch. state_simpl. rewrite Hsc.
  destruct (DATA_MEDIA_TYPE_eqb (media (targetOrg sc)) File);
    rewrite _addOrRemmoveFields_run; state_simpl; rewrite Hq; reflexivity.
Qed.

(** X17.  A descriptor whose query the parser rejected in [setup] has no
    parsed query.  When its source is an org that knows the object,
    [describeAsync] fetches the metadata and then fails in the expansion;
    the failure is reported as the object missing in the source org, and
    the descriptor counts as described from then on. *)
Theorem describeAsync_after_malformed_query sc s0 ex d :
  isInitialized s0 = false ->
  isDescribed s0 = false ->
  parsedQuery s0 = None ->
  parseQuery (query s0) = Thrown ex ->
  media (sourceOrg sc) = Org ->
  describeSObjectAsync (sourceOrg sc) (name s0) = Returned d ->
  fst (describeAsync (snd (setup sc s0)))
  = Thrown (OrgMetadataError (Res objectSourceDoesNotExist [Lit (name s0)]))
  /\ isDescribed (snd (describeAsync (snd (setup sc s0)))) = true.
Proof.
  intros Hi Hd Hq Hparse Hm Hfetch.
  rewrite (setup_run sc s0 Hi), Hparse. cbn [snd].
  set (s := initialized sc s0).
  assert (Hsc : script s = Some sc) by apply initialized_script.
  assert (Hds : isDescribed s = false)
    by (unfold isDescribed, s; rewrite initialized_sourceSObjectDescribe; exact Hd).
  assert (Hname : name s = name s0) by apply initialized_name.
  assert (Hfetch' : describeSObjectAsync (sourceOrg sc) (name s) = Returned d)
    by (rewrite Hname; exact Hfetch).
  split.
  - rewrite (describeAsync_run s Hds). unfold bind.
    rewrite (describeAsync_source_run sc s Hsc), Hm.
    destruct (describeSourceBlock (sourceOrg sc) (announced sc source s))
      as [r s1] eqn:Eblock.
    assert (Hr : r = Thrown TypeError).
    { change r with (fst (r, s1)). rewrite <- Eblock.
      apply (describeSourceBlock_without_query _
               (logger_log (InfoNormal gettingMetadataForSObject
                              [Lit (name s); Res source []]) sc) _ d);
        [reflexivity | | exact Hfetch'].
      unfold announced. state_simpl. unfold s.
      rewrite initialized_parsedQuery. exact Hq. }
    subst r.
    rewrite (tryCatch_describeCatch_thrown _ objectSourceDoesNotExist _ _ _ Eblock).
    + cbn [fst]. unfold rethrown. simpl.
      rewrite (preserves_run (describeSourceBlock_name _) Eblock).
      change (name (announced sc source s)) with (name s). now rewrite Hname.
    + apply (orgs_script (announced sc source s)).
      * exact (preserves_run (describeSourceBlock_orgs _) Eblock).
      * discriminate.
  - unfold isDescribed.
    now rewrite (describeAsync_source_snapshot sc s d Hds Hsc Hm Hfetch').
Qed.

(** X18.  When the metadata client fails for the source org, the target
    side is not tried: [describeAsync] throws at once, the only change to
    the descriptor is the logged request, and the descriptor stays
    undescribed, so that a later call fetches again. *)
Theorem describeAsync_source_fetch_fails sc s ex :
  isDescribed s = false ->
  script s = Some sc ->
  media (sourceOrg sc) = Org ->
  describeSObjectAsync (sourceOrg sc) (name s) = Thrown ex ->
  describeAsync s
  = (Thrown (if isCommandInitializationError ex then ex
             else OrgMetadataError (Res objectSourceDoesNotExist [Lit (name s)])),
     set_script
       (Some (logger_log (InfoNormal gettingMetadataForSObject
                            [Lit (name s); Res source []]) sc)) s)
  /\ isDescribed (snd (describeAsync s)) = false.
Proof.
  intros Hd Hsc Hm Hfetch.
  assert (Hrun : describeAsync s
                 = (Thrown (rethrown objectSourceDoesNotExist (name s) ex),
                    announced sc source s)).
  { rewrite (describeAsync_run s Hd). apply bind_run_thrown.
    rewrite (describeAsync_source_run sc s Hsc), Hm.
    apply (tryCatch_describeCatch_thrown _ objectSourceDoesNotExist
             (announced sc source s) ex (announced sc source s)).
    - now apply describeSourceBlock_fetch_thrown.
    - discriminate. }
  split; [exact Hrun |]. rewrite Hrun. exact Hd.
Qed.

Lemma fieldsMap_get_has d key :
  fieldsMap_get d key = None <-> fieldsMap_has d key = false.
Proof.
  forget. unfold fieldsMap_get, fieldsMap_has. rewrite includes_false.
  induction (fieldsMap d) as [| [k v] r IH]; simpl; [tauto |].
  destruct (k =? key) eqn:E; simpl.
  - apply String.eqb_eq in E. split; [discriminate | intros H; exfalso; apply H; now left].
  - apply String.eqb_neq in E. rewrite IH. tauto.
Qed.

(** X19.  When the external id is not a field of the source snapshot,
    [hasAutonumberExternalId] throws a [TypeError] after [describeAsync]:
    the validation has not stopped on the missing external id, and the
    getter reads a property of [undefined].  Before the descriptor is
    described the getter gives [false]. *)
Theorem hasAutonumberExternalId_after_describe sc s d :
  isDescribed s = false ->
  script s = Some sc ->
  media (sourceOrg sc) = Org ->
  describeSObjectAsync (sourceOrg sc) (name s) = Returned d ->
  fieldsMap_has d (externalId s) = false ->
  hasAutonumberExternalId s = Returned false
  /\ hasAutonumberExternalId (snd (describeAsync s)) = Thrown TypeError.
Proof.
  intros Hd Hsc Hm Hfetch Hhas. unfold hasAutonumberExternalId, externalIdSFieldDescribe.
  split.
  - unfold isDescribed in Hd. destruct (sourceSObjectDescribe s); [discriminate Hd | reflexivity].
  - rewrite (describeAsync_source_snapshot sc s d Hd Hsc Hm Hfetch).
    rewrite describeAsync_externalId.
    apply fieldsMap_get_has in Hhas. now rewrite Hhas.
Qed.

Lemma _validateFields_valid sc d b s s' :
  script s = Some sc ->
  isExtraObject s = false ->
  isSpecialObject s = false ->
  _validateFields d b s = (Returned tt, s') ->
  forall x, In x (fieldsInQuery s') ->
            isComplexOr__rField x = true \/ fieldsMap_has d x = true.
Proof.
  intros Hsc Hextra Hspecial Hrun x Hx.
  destruct (parsedQuery s) as [q |] eqn:Hq.
  - rewrite (_validateFields_run sc q d b s Hsc Hq), Hextra, Hspecial in Hrun.
    destruct (length (fields q) =? 0)%nat; [discriminate Hrun |].
    simpl in Hrun. injection Hrun as <-.
    rewrite (validatedState_fields sc q d b s Hq) in Hx.
    apply filter_In in Hx. destruct Hx as [_ Hx].
    apply negb_true_iff in Hx. unfold missingIn in Hx.
    apply andb_false_iff in Hx.
    destruct Hx as [Hx | Hx]; apply negb_false_iff in Hx; [now left | now right].
  - unfold _validateFields, fieldsInQuery in Hrun. run_monad_in Hrun.
    rewrite Hq in Hrun. simpl in Hrun. rewrite Hsc in Hrun. discriminate Hrun.
Qed.

Lemma _addOrRemmoveFields_view {X} (f : ScriptObject -> X) d :
  (forall v s, f (set_parsedQuery v s) = f s) ->
  (forall v s, f (set_query v s) = f s) ->
  preserves f (_addOrRemmoveFields d).
Proof.
  intros H1 H2 s. rewrite _addOrRemmoveFields_run.
  destruct (parsedQuery s); [| reflexivity].
  unfold expandedState. cbn [snd]. now rewrite H2, H1.
Qed.

Lemma _validateFields_isExtraObject d b : preserves isExtraObject (_validateFields d b).
Proof. unfold _validateFields, _validateFields_forEach. frame. Qed.

Lemma _validateFields_name d b : preserves name (_validateFields d b).
Proof. unfold _validateFields, _validateFields_forEach. frame. Qed.

Lemma _validateFields_targetSObjectDescribe d b :
  preserves targetSObjectDescribe (_validateFields d b).
Proof. unfold _validateFields, _validateFields_forEach. frame. Qed.

Lemma _validateFields_sourceSObjectDescribe d b :
  preserves sourceSObjectDescribe (_validateFields d b).
Proof. unfold _validateFields, _validateFields_forEach. frame. Qed.

(** What a source block that returns has done. *)
Lemma describeSourceBlock_returned org s s' :
  describeSourceBlock org s = (Returned tt, s') ->
  exists d sc,
    describeSObjectAsync org (name s) = Returned d
    /\ script s = Some sc
    /\ sourceSObjectDescribe s' = Some d
    /\ targetSObjectDescribe s'
       = (if DATA_MEDIA_TYPE_eqb (media (targetOrg sc)) File then Some d
          else targetSObjectDescribe s)
    /\ isExtraObject s' = isExtraObject s
    /\ name s' = name s
    /\ (isExtraObject s = false -> isSpecialObject s = false ->
        forall x, In x (fieldsInQuery s') ->
                  isComplexOr__rField x = true \/ fieldsMap_has d x = true).
Proof.
  intros H. unfold describeSourceBlock in H.
  cbv beta iota zeta delta [bind get call modify theScript ret throw] in H.
  destruct (describeSObjectAsync org (name s)) as [d | ex]; [| discriminate H].
  state_simpl_in H.
  destruct (script s) as [sc |] eqn:Hsc; [| discriminate H].
  exists d, sc. split; [reflexivity |]. split; [reflexivity |].
  set (s0 := (if DATA_MEDIA_TYPE_eqb (media (targetOrg sc)) File
              then set_targetSObjectDescribe (Some d) (set_sourceSObjectDescribe (Some d) s)
              else set_sourceSObjectDescribe (Some d) s)).
  assert (Hsteps : exists s1,
            _addOrRemmoveFields d s0 = (Returned tt, s1)
            /\ _validateFields d true s1 = (Returned tt, s')).
  { unfold s0. destruct (DATA_MEDIA_TYPE_eqb (media (targetOrg sc)) File);
      match type of H with
      | context [_addOrRemmoveFields d ?st] =>
          destruct (_addOrRemmoveFields d st) as [[[] | ex] s1];
          [| discriminate H]
      end;
      exists s1; (split; [reflexivity |]);
      destruct (_validateFields d true s1) as [[[] | ex] s2]; congruence. }
  clear H. destruct Hsteps as [s1 [Hexp Hv]].
  assert (Hview : forall {X} (f : ScriptObject -> X),
             (forall v st, f (set_parsedQuery v st) = f st) ->
             (forall v st, f (set_query v st) = f st) ->
             preserves f (_validateFields d true) ->
             f s' = f s0).
  { intros X f H1 H2 H3.
    rewrite (preserves_run H3 Hv).
    exact (preserves_run (_addOrRemmoveFields_view f d H1 H2) Hexp). }
  assert (Hsc1 : script s1 = Some sc).
  { rewrite (preserves_run (_addOrRemmoveFields_view script d
               (fun _ _ => eq_refl) (fun _ _ => eq_refl)) Hexp).
    unfold s0. destruct (DATA_MEDIA_TYPE_eqb _ File); exact Hsc. }
  assert (Hextra1 : isExtraObject s1 = isExtraObject s).
  { rewrite (preserves_run (_addOrRemmoveFields_view isExtraObject d
               (fun _ _ => eq_refl) (fun _ _ => eq_refl)) Hexp).
    unfold s0. destruct (DATA_MEDIA_TYPE_eqb _ File); reflexivity. }
  assert (Hname1 : name s1 = name s).
  { rewrite (preserves_run (_addOrRemmoveFields_view name d
               (fun _ _ => eq_refl) (fun _ _ => eq_refl)) Hexp).
    unfold s0. destruct (DATA_MEDIA_TYPE_eqb _ File); reflexivity. }
  split.
  { rewrite (Hview _ sourceSObjectDescribe (fun _ _ => eq_refl) (fun _ _ => eq_refl)
               (_validateFields_sourceSObjectDescribe d true)).
    unfold s0. destruct (DATA_MEDIA_TYPE_eqb _ File); reflexivity. }
  split.
  { rewrite (Hview _ targetSObjectDescribe (fun _ _ => eq_refl) (fun _ _ => eq_refl)
               (_validateFields_targetSObjectDescribe d true)).
    unfold s0. destruct (DATA_MEDIA_TYPE_eqb _ File); reflexivity. }
  split.
  { rewrite (preserves_run (_validateFields_isExtraObject d true) Hv). exact Hextra1. }
  split.
  { rewrite (preserves_run (_validateFields_name d true) Hv). exact Hname1. }
  intros Hextra Hspecial.
  apply (_validateFields_valid sc d true s1 s' Hsc1); [congruence | | exact Hv].
  unfold isSpecialObject in *. now rewrite Hname1.
Qed.

(** What a target block that returns has done. *)
Lemma describeTargetBlock_returned org sc s s' :
  script s = Some sc ->
  describeTargetBlock org s = (Returned tt, s') ->
  exists d,
    describeSObjectAsync org (name s) = Returned d
    /\ targetSObjectDescribe s' = Some d
    /\ sourceSObjectDescribe s'
       = (if DATA_MEDIA_TYPE_eqb (media (sourceOrg sc)) File then Some d
          else sourceSObjectDescribe s)
    /\ (isExtraObject s = false -> isSpecialObject s = false ->
        forall x, In x (fieldsInQuery s') ->
                  isComplexOr__rField x = true \/ fieldsMap_has d x = true)
    /\ (media (sourceOrg sc) = Org ->
        forall x, In x (fieldsInQuery s') -> In x (fieldsInQuery s)).
Proof.
  intros Hsc H. unfold describeTargetBlock in H.
  cbv beta iota zeta delta [bind get call modify theScript ret throw] in H.
  destruct (describeSObjectAsync org (name s)) as [d | ex]; [| discriminate H].
  state_simpl_in H. rewrite Hsc in H.
  exists d. split; [reflexivity |].
  destruct (media (sourceOrg sc)) eqn:Hm; state_simpl_in H; state_simpl.
  - match type of H with
    | context [_validateFields d false ?st] =>
        assert (Hv : _validateFields d false st = (Returned tt, s'))
          by (destruct (_validateFields d false st) as [[[] | ex] s2]; congruence)
    end.
    clear H.
    split; [now rewrite (preserves_run (_validateFields_targetSObjectDescribe d false) Hv) |].
    split; [now rewrite (preserves_run (_validateFields_sourceSObjectDescribe d false) Hv) |].
    split.
    + intros Hextra Hspecial.
      exact (_validateFields_valid sc d false
               (set_targetSObjectDescribe (Some d) s) s' Hsc Hextra Hspecial Hv).
    + intros _. exact (_validateFields_shrinks d false _ s' Hv).
  - match type of H with
    | context [_addOrRemmoveFields d ?st] =>
        destruct (_addOrRemmoveFields d st) as [[[] | ex] s1] eqn:Hexp;
        [| discriminate H]
    end.
    assert (Hv : _validateFields d false s1 = (Returned tt, s'))
      by (destruct (_validateFields d false s1) as [[[] | ex] s2]; congruence).
    clear H.
    split.
    { rewrite (preserves_run (_validateFields_targetSObjectDescribe d false) Hv).
      now rewrite (preserves_run (_addOrRemmoveFields_view targetSObjectDescribe d
                     (fun _ _ => eq_refl) (fun _ _ => eq_refl)) Hexp). }
    split.
    { rewrite (preserves_run (_validateFields_sourceSObjectDescribe d false) Hv).
      now rewrite (preserves_run (_addOrRemmoveFields_view sourceSObjectDescribe d
                     (fun _ _ => eq_refl) (fun _ _ => eq_refl)) Hexp). }
    split; [| intros Hbad; discriminate Hbad].
    intros Hextra Hspecial.
    apply (_validateFields_valid sc d false s1 s').
    + now rewrite (preserves_run (_addOrRemmoveFields_view script d
                     (fun _ _ => eq_refl) (fun _ _ => eq_refl)) Hexp).
    + now rewrite (preserves_run (_addOrRemmoveFields_view isExtraObject d
                     (fun _ _ => eq_refl) (fun _ _ => eq_refl)) Hexp).
    + unfold isSpecialObject in *.
      now rewrite (preserves_run (_addOrRemmoveFields_view name d
                     (fun _ _ => eq_refl) (fun _ _ => eq_refl)) Hexp).
    + exact Hv.
Qed.

Lemma describeAsync_source_isExtraObject : preserves isExtraObject describeAsync_source.
Proof. unfold_describe. frame. Qed.

(** X20.  After a [describeAsync] that returns on a descriptor with at
    least one org, both snapshots are set: each org's is the one its client
    answered for the object, and a file side shares the snapshot of the
    other side.  Unless the descriptor is an extra or a special object,
    every field left in the resolved query that is not complex is in both
    snapshots. *)
Theorem describeAsync_postcondition sc s s' :
  isDescribed s = false ->
  script s = Some sc ->
  media (sourceOrg sc) = Org \/ media (targetOrg sc) = Org ->
  describeAsync s = (Returned tt, s') ->
  exists src tgt,
    sourceSObjectDescribe s' = Some src
    /\ targetSObjectDescribe s' = Some tgt
    /\ (media (sourceOrg sc) = Org ->
        describeSObjectAsync (sourceOrg sc) (name s) = Returned src)
    /\ (media (targetOrg sc) = Org ->
        describeSObjectAsync (targetOrg sc) (name s) = Returned tgt)
    /\ (media (sourceOrg sc) = File \/ media (targetOrg sc) = File -> src = tgt)
    /\ (isExtraObject s = false -> isSpecialObject s = false ->
        forall x, In x (fieldsInQuery s') ->
                  isComplexOr__rField x = true
                  \/ (fieldsMap_has src x = true /\ fieldsMap_has tgt x = true)).
Proof.
  intros Hd Hsc Hside H. rewrite (describeAsync_run s Hd) in H.
  apply bind_returned in H. destruct H as [[] [s1 [Hsrc Htgt]]].
  pose proof (preserves_run describeAsync_source_orgs Hsrc) as Horgs.
  pose proof (preserves_run describeAsync_source_name Hsrc) as Hname1.
  pose proof (preserves_run describeAsync_source_isExtraObject Hsrc) as Hextra1.
  unfold orgs in Horgs. rewrite Hsc in Horgs.
  destruct (script s1) as [sc1 |] eqn:Hsc1; [| discriminate Horgs].
  injection Horgs as Esrc Etgt.
  rewrite (describeAsync_source_run sc s Hsc) in Hsrc.
  rewrite (describeAsync_target_run sc1 s1 Hsc1), Etgt in Htgt.
  destruct (media (sourceOrg sc)) eqn:Msrc.
  - (* the source is an org *)
    apply tryCatch_describeCatch_returned in Hsrc.
    apply describeSourceBlock_returned in Hsrc.
    destruct Hsrc as [d1 [sca [Hf1 [Hsca [Hs1 [Ht1 [_ [_ Hvalid1]]]]]]]].
    change (name (announced sc source s)) with (name s) in Hf1.
    injection Hsca as <-. state_simpl_in Ht1.
    change (isExtraObject (announced sc source s)) with (isExtraObject s) in Hvalid1.
    change (isSpecialObject (announced sc source s)) with (isSpecialObject s) in Hvalid1.
    destruct (media (targetOrg sc)) eqn:Mtgt.
    + (* and so is the target *)
      apply tryCatch_describeCatch_returned in Htgt.
      apply (describeTargetBlock_returned _
               (logger_log (InfoNormal gettingMetadataForSObject
                              [Lit (name s1); Res target []]) sc1))
        in Htgt; [| reflexivity].
      destruct Htgt as [d2 [Hf2 [Ht2 [Hs2 [Hvalid2 Hshrink]]]]].
      change (name (announced sc1 target s1)) with (name s1) in Hf2.
      state_simpl_in Hs2. rewrite Esrc, Msrc in Hs2. state_simpl_in Hs2.
      change (sourceSObjectDescribe (announced sc1 target s1))
        with (sourceSObjectDescribe s1) in Hs2.
      exists d1, d2. split; [congruence |]. split; [exact Ht2 |].
      split; [intros _; exact Hf1 |].
      split; [intros _; now rewrite <- Hname1 |].
      split; [intros [Hbad | Hbad]; discriminate Hbad |].
      intros Hextra Hspecial x Hx.
      assert (Hspecial1 : isSpecialObject s1 = false)
        by (unfold isSpecialObject in *; now rewrite Hname1).
      destruct (Hvalid2 (eq_trans Hextra1 Hextra) Hspecial1 x Hx) as [Hc | Hh2];
        [now left |].
      assert (Hx1 : In x (fieldsInQuery s1)).
      { apply (Hshrink (eq_trans (f_equal media Esrc) Msrc) x Hx). }
      destruct (Hvalid1 Hextra Hspecial x Hx1) as [Hc | Hh1]; [now left |].
      right. now split.
    + (* the target is a file: it shares the snapshot of the source *)
      injection Htgt as <-.
      exists d1, d1. split; [exact Hs1 |]. split; [exact Ht1 |].
      split; [intros _; exact Hf1 |].
      split; [intros Hbad; discriminate Hbad |].
      split; [reflexivity |].
      intros Hextra Hspecial x Hx.
      destruct (Hvalid1 Hextra Hspecial x Hx) as [Hc | Hh1]; [now left |].
      right. now split.
  - (* the source is a file: it shares the snapshot of the target *)
    injection Hsrc as <-.
    destruct Hside as [Hbad | Hside]; [discriminate Hbad |].
    rewrite Hside in Htgt.
    apply tryCatch_describeCatch_returned in Htgt.
    apply (describeTargetBlock_returned _
             (logger_log (InfoNormal gettingMetadataForSObject
                            [Lit (name s); Res target []]) sc1))
      in Htgt; [| reflexivity].
    destruct Htgt as [d2 [Hf2 [Ht2 [Hs2 [Hvalid2 _]]]]].
    change (name (announced sc1 target s)) with (name s) in Hf2.
    state_simpl_in Hs2. rewrite Esrc, Msrc in Hs2. state_simpl_in Hs2.
    exists d2, d2. split; [exact Hs2 |]. split; [exact Ht2 |].
    split; [intros Hbad; discriminate Hbad |].
    split; [intros _; exact Hf2 |].
    split; [reflexivity |].
    intros Hextra Hspecial x Hx.
    destruct (Hvalid2 Hextra Hspecial x Hx) as [Hc | Hh]; [now left |].
    right. now split.
Qed.

(* ------------------------------------------------------------------ *)
(** ** The operation and the fields to update *)

Lemma beforeDeleteQuery_operation sc s pq :
  operation (beforeDeleteQuery sc s pq) = getOperation (operation s).
Proof.
  unfold beforeDeleteQuery, updatedObject, withMandatoryFields, parsedState.
  run_cases; apply initialized_operation.
Qed.

Lemma setup_parseDeleteQuery_operation : preserves operation setup_parseDeleteQuery.
Proof. unfold setup_parseDeleteQuery. frame. Qed.

(** X21.  An operation configured by the name of a member of the enum, or
    as the member itself, is the member after [setup], whether [setup]
    returns or throws, and [strOperation] gives the name back. *)
Theorem setup_normalizes_operation sc s o :
  isInitialized s = false ->
  operation s = OpString (OPERATION_name o) \/ operation s = OpEnum o ->
  operation (snd (setup sc s)) = OpEnum o
  /\ strOperation (snd (setup sc s)) = Returned (OPERATION_name o).
Proof.
  intros Hi Hop.
  assert (Hnorm : getOperation (operation s) = OpEnum o)
    by (destruct Hop as [-> | ->]; [destruct o |]; reflexivity).
  assert (Hafter : operation (snd (setup sc s)) = OpEnum o).
  { rewrite (setup_run sc s Hi).
    destruct (parseQuery (query s)) as [pq | ex].
    - now rewrite setup_parseDeleteQuery_operation, beforeDeleteQuery_operation.
    - cbn [snd]. now rewrite initialized_operation. }
  split; [exact Hafter |]. unfold strOperation. now rewrite Hafter.
Qed.

Lemma truthy_false v : truthy v = false <-> v <> Some true.
Proof.
  forget. destruct v as [[|] |]; simpl; split; congruence.
Qed.

(** X22.  A name is among the fields to update exactly when the descriptor
    is described with a source snapshot that is not empty, the operation is
    not [Readonly], the name is in the resolved query and not empty, and
    the field's descriptor, the one of the source snapshot or else the one
    of the target snapshot, exists and is not read-only. *)
Theorem fieldsToUpdate_iff s x :
  In x (fieldsToUpdate s)
  <-> exists src,
        sourceSObjectDescribe s = Some src
        /\ fieldsMap src <> []
        /\ operationIs (operation s) Readonly = false
        /\ In x (fieldsInQuery s)
        /\ x <> ""
        /\ exists fd,
             (fieldsMap_get src x = Some fd
              \/ (fieldsMap_get src x = None
                  /\ exists tgt, targetSObjectDescribe s = Some tgt
                                 /\ fieldsMap_get tgt x = Some fd))
             /\ SFieldDescribe.get fd "readonly" <> Some true.
Proof.
  forget. unfold fieldsToUpdate, fieldsInQuery.
  destruct (parsedQuery s) as [q |]; [| split; [intros [] | intros [? [_ [_ [_ [[] _]]]]]]].
  destruct (sourceSObjectDescribe s) as [src |];
    [| split; [intros [] | intros [? [E _]]; discriminate E]].
  destruct (fieldsMap src) as [| kv0 r0] eqn:Hmap.
  { simpl. split; [intros [] | intros [src' [E [Hne _]]]].
    injection E as <-. now rewrite Hmap in Hne. }
  simpl length. simpl Nat.eqb. simpl orb.
  destruct (operationIs (operation s) Readonly).
  { split; [intros [] | intros [? [_ [_ [E _]]]]; discriminate E]. }
  rewrite in_flat_map. split.
  - intros [f [Hf Hx]].
    exists src. split; [reflexivity |]. split; [now rewrite Hmap |].
    split; [reflexivity |].
    destruct (fieldsMap_get src (field f)) as [fd |] eqn:Esrc.
    + destruct (truthy (SFieldDescribe.get fd "readonly")) eqn:Hro; [destruct Hx |].
      destruct (field f =? "") eqn:Ene; [destruct Hx |].
      destruct Hx as [<- | []]. apply String.eqb_neq in Ene.
      split; [now apply in_map |]. split; [exact Ene |].
      exists fd. split; [now left | now apply truthy_false].
    + destruct (targetSObjectDescribe s) as [tgt |]; [| destruct Hx].
      destruct (fieldsMap_get tgt (field f)) as [fd |] eqn:Etgt; [| destruct Hx].
      destruct (truthy (SFieldDescribe.get fd "readonly")) eqn:Hro; [destruct Hx |].
      destruct (field f =? "") eqn:Ene; [destruct Hx |].
      destruct Hx as [<- | []]. apply String.eqb_neq in Ene.
      split; [now apply in_map |]. split; [exact Ene |].
      exists fd. split; [| now apply truthy_false].
      right. split; [exact Esrc |]. now exists tgt.
  - intros [src' [E [_ [_ [Hin [Hne [fd [Hfd Hro]]]]]]]]. injection E as <-.
    apply in_map_iff in Hin. destruct Hin as [f [<- Hf]].
    exists f. split; [exact Hf |].
    apply truthy_false in Hro. apply String.eqb_neq in Hne.
    destruct Hfd as [Hsrc | [Hsrc [tgt [Htgt Hget]]]].
    + rewrite Hsrc, Hro, Hne. now left.
    + rewrite Hsrc, Htgt, Hget, Hro, Hne. now left.
Qed.

(* ------------------------------------------------------------------ *)
(** ** The parsed query, the delete query and the errors of a describe *)

(** X23.  When the parser accepts the text, [_parseQuery] returns a query
    that starts with [Id] and has after it no field spelled [id], [all] or
    as a multiselect keyword in any letter case, and it leaves the
    composition of that query as the query text.  When the parser throws,
    the exception passes and the descriptor is as it was. *)
Theorem parseQuery_canonical text s :
  match parseQuery text with
  | Returned pq =>
      exists q rest,
        _parseQuery text s
        = (Returned q,
           set_query (composeQuery q)
             (set_multiselectPattern
                (scanPattern (fields pq) (multiselectPattern s)) s))
        /\ fields q = getComposedField "Id" :: rest
        /\ forall f, In f rest ->
             toLowerCase (field f) <> "id"
             /\ toLowerCase (field f) <> "all"
             /\ ~ In (toLowerCase (field f)) MULTISELECT_SOQL_KEYWORDS
  | Thrown ex => _parseQuery text s = (Thrown ex, s)
  end.
Proof.
  rewrite _parseQuery_run. destruct (parseQuery text) as [pq | ex]; [| reflexivity].
  exists (resolvedQuery pq), (keptFields (fields pq)).
  split; [reflexivity |]. split; [reflexivity |].
  intros f Hf. unfold keptFields in Hf. apply in_map_iff in Hf.
  destruct Hf as [g [<- Hg]]. apply filter_In in Hg. destruct Hg as [_ Hk].
  unfold keepsField in Hk. simpl in Hk.
  apply andb_true_iff in Hk. destruct Hk as [Hk Hid].
  apply andb_true_iff in Hk. destruct Hk as [Hall Hkw].
  apply negb_true_iff in Hid, Hall, Hkw.
  apply String.eqb_neq in Hid, Hall. apply includes_false in Hkw.
  now repeat split.
Qed.

Lemma setup_parseDeleteQuery_returned sc s s' :
  script s = Some sc ->
  deleteOldData s = true ->
  setup_parseDeleteQuery s = (Returned tt, s') ->
  exists parsedText,
    parseQuery (deleteQueryText s) = Returned parsedText
    /\ parsedDeleteQuery s' = Some (derivedDeleteQuery sc s parsedText)
    /\ deleteQuery s' = composeQuery (derivedDeleteQuery sc s parsedText)
    /\ deleteOldData s' = true.
Proof.
  intros Hsc Hd Hrun. rewrite (setup_parseDeleteQuery_run sc s Hsc), Hd in Hrun.
  destruct (parseQuery (deleteQueryText s)) as [parsedText | ex]; [| discriminate Hrun].
  injection Hrun as <-. exists parsedText.
  split; [reflexivity |]. split; [reflexivity |]. split; [reflexivity |]. exact Hd.
Qed.

Lemma beforeDeleteQuery_deleteQueryText sc s pq :
  deleteQueryText (beforeDeleteQuery sc s pq)
  = if negb (deleteQuery s =? "") then deleteQuery s
    else composeQuery (setupQuery sc s pq).
Proof.
  unfold deleteQueryText.
  rewrite beforeDeleteQuery_deleteQuery, beforeDeleteQuery_query. reflexivity.
Qed.

Lemma derivedDeleteQuery_shape sc s dq :
  fields (derivedDeleteQuery sc s dq) = [getComposedField "Id"]
  /\ sObject (derivedDeleteQuery sc s dq) = sObject dq
  /\ limit (derivedDeleteQuery sc s dq) = limit dq
  /\ where_ (derivedDeleteQuery sc s dq)
     = (if isPersonAccountEnabled sc && (name s =? "Contact")
        then composeWhereClause (where_ dq)
               "IsPersonAccount" "false" "=" "BOOLEAN" "AND"
        else where_ dq).
Proof.
  unfold derivedDeleteQuery.
  destruct (isPersonAccountEnabled sc && (name s =? "Contact")); repeat split.
Qed.

(** X24.  With [deleteOldData] set or the operation [Delete], a [setup]
    that returns has derived the delete query from what the parser made of
    the configured delete query or, when that is empty, of the canonical
    text of the resolved query: the same object, [Id] as the only field,
    the parser's where clause unless a person-account [Contact] adds its
    condition, and the composition of it as the delete query text. *)
Theorem setup_derived_delete_query sc s s' pq :
  isInitialized s = false ->
  parseQuery (query s) = Returned pq ->
  deleteOldData s = true \/ operationIs (getOperation (operation s)) Delete = true ->
  setup sc s = (Returned tt, s') ->
  exists parsedText dq,
    parseQuery (if negb (deleteQuery s =? "") then deleteQuery s
                else composeQuery (setupQuery sc s pq)) = Returned parsedText
    /\ parsedDeleteQuery s' = Some dq
    /\ deleteQuery s' = composeQuery dq
    /\ deleteOldData s' = true
    /\ fields dq = [getComposedField "Id"]
    /\ sObject dq = sObject parsedText
    /\ limit dq = limit parsedText
    /\ where_ dq
       = (if isPersonAccountEnabled sc && (sObject pq =? "Contact")
          then composeWhereClause (where_ parsedText)
                 "IsPersonAccount" "false" "=" "BOOLEAN" "AND"
          else where_ parsedText).
Proof.
  intros Hi Hparse Hdel Hrun. rewrite (setup_run sc s Hi), Hparse in Hrun.
  assert (Hd : deleteOldData (beforeDeleteQuery sc s pq) = true).
  { rewrite beforeDeleteQuery_deleteOldData_eq.
    destruct Hdel as [-> | ->]; [apply orb_true_r | reflexivity]. }
  destruct (setup_parseDeleteQuery_returned _ _ _
              (beforeDeleteQuery_script sc s pq) Hd Hrun)
    as [parsedText [Htext [Hpdq [Hdq Hold]]]].
  rewrite beforeDeleteQuery_deleteQueryText in Htext.
  pose proof (derivedDeleteQuery_shape
                (objectsMap_set (sObject (setupQuery sc s pq)) sc)
                (beforeDeleteQuery sc s pq) parsedText) as Hshape.
  rewrite beforeDeleteQuery_name in Hshape.
  exists parsedText,
    (derivedDeleteQuery (objectsMap_set (sObject (setupQuery sc s pq)) sc)
       (beforeDeleteQuery sc s pq) parsedText).
  split; [exact Htext |]. split; [exact Hpdq |]. split; [exact Hdq |].
  split; [exact Hold |]. exact Hshape.
Qed.

Lemma tryCatch_describeCatch_errors body key s ex s1 :
  tryCatch body (describeCatch key) s = (Thrown ex, s1) ->
  script s1 <> None ->
  isCommandInitializationError ex = true
  \/ ex = OrgMetadataError (Res key [Lit (name s1)]).
Proof.
  unfold tryCatch. destruct (body s) as [[[] | ex0] s0] eqn:Ebody; [discriminate |].
  unfold describeCatch. destruct (isCommandInitializationError ex0) eqn:Ecie.
  - unfold throw. intros [= <- <-] _. now left.
  - run_monad. destruct (script s0) eqn:Hsc; intros [= <- <-] Hne;
      [now right | contradiction].
Qed.

Lemma describeAsync_target_orgs : preserves orgs describeAsync_target.
Proof.
  unfold describeAsync_target, describeCatch. frame.
  apply describeTargetBlock_orgs.
Qed.

Lemma describeAsync_target_name : preserves name describeAsync_target.
Proof. unfold_describe. frame. Qed.

(** X25.  On a descriptor that holds its script, [describeAsync] throws
    nothing but a [CommandInitializationError] or the [OrgMetadataError] of
    the object missing in the source or in the target org: whatever the
    metadata client, the expansion or the validation throw reaches the
    caller as one of these. *)
Theorem describeAsync_errors sc s ex s' :
  script s = Some sc ->
  describeAsync s = (Thrown ex, s') ->
  isCommandInitializationError ex = true
  \/ ex = OrgMetadataError (Res objectSourceDoesNotExist [Lit (name s)])
  \/ ex = OrgMetadataError (Res objectTargetDoesNotExist [Lit (name s)]).
Proof.
  intros Hsc H.
  destruct (isDescribed s) eqn:Hd.
  { unfold describeAsync, bind, get in H. rewrite Hd in H. discriminate H. }
  rewrite (describeAsync_run s Hd) in H. unfold bind in H.
  destruct (describeAsync_source s) as [[[] | ex1] s1] eqn:Esrc.
  - (* the source side returned: the exception is the target's *)
    pose proof (preserves_run describeAsync_source_orgs Esrc) as Horgs.
    pose proof (preserves_run describeAsync_source_name Esrc) as Hname.
    pose proof (preserves_run describeAsync_target_orgs H) as Horgs'.
    pose proof (preserves_run describeAsync_target_name H) as Hname'.
    assert (Hs1 : script s1 <> None)
      by (apply (orgs_script s); [exact Horgs | rewrite Hsc; discriminate]).
    assert (Hs' : script s' <> None) by (apply (orgs_script s1); assumption).
    destruct (script s1) as [sc1 |] eqn:Hsc1; [| contradiction].
    rewrite (describeAsync_target_run sc1 s1 Hsc1) in H.
    destruct (media (targetOrg sc1)); [| discriminate H].
    destruct (tryCatch_describeCatch_errors _ _ _ _ _ H Hs') as [Hc | ->];
      [now left |].
    right. right. now rewrite Hname', Hname.
  - (* the source side threw *)
    injection H as <- <-.
    pose proof (preserves_run describeAsync_source_orgs Esrc) as Horgs.
    pose proof (preserves_run describeAsync_source_name Esrc) as Hname.
    assert (Hs1 : script s1 <> None)
      by (apply (orgs_script s); [exact Horgs | rewrite Hsc; discriminate]).
    rewrite (describeAsync_source_run sc s Hsc) in Esrc.
    destruct (media (sourceOrg sc)); [| discriminate Esrc].
    destruct (tryCatch_describeCatch_errors _ _ _ _ _ Esrc Hs1) as [Hc | ->];
      [now left |].
    right. left. now rewrite Hname.
Qed.

End ScriptObject.

(* ------------------------------------------------------------------ *)
(** ** The methods on the example collaborators *)

Abbreviation example_setup :=
  (setup Example.parseQuery Example.composeQuery Example.MULTISELECT_SOQL_KEYWORDS
         Example.isComplexOr__rField Example.getComplexField
         Example.composeWhereClause).

Abbreviation example_addOrRemmoveFields :=
  (_addOrRemmoveFields Example.composeQuery
                       Example.OBJECTS_NOT_TO_USE_IN_QUERY_MULTISELECT).

Abbreviation example_validateFields :=
  (_validateFields Example.SPECIAL_OBJECTS Example.isComplexOr__rField).

Abbreviation example_describeAsync :=
  (describeAsync Example.composeQuery Example.describeSObjectAsync
                 Example.OBJECTS_NOT_TO_USE_IN_QUERY_MULTISELECT
                 Example.SPECIAL_OBJECTS Example.isComplexOr__rField).


(* ------------------------------------------------------------------ *)
(** ** Examples *)

(** C1 as the spec states it fails: with the external id spelled [ID] the
    resolved query is [Id; Name; Phone; ID], the record identifier twice. *)
Lemma setup_keeps_external_id_spelled_ID :
  ~ (forall sc s s',
       isInitialized s = false ->
       example_setup sc s = (Returned tt, s') ->
       exists rest,
         fieldsInQuery s' = "Id" :: rest
         /\ forall x, In x rest -> toLowerCase x <> "id").
Proof.
  intros H.
  destruct (H Example.orgToOrg Example.accountExternalID
              (snd (example_setup Example.orgToOrg Example.accountExternalID))
              eq_refl ltac:(vm_compute; reflexivity)) as [rest [Hrest Hno]].
  vm_compute in Hrest. injection Hrest as Hrest. subst rest.
  apply (Hno "ID"); [simpl; tauto | reflexivity].
Qed.

(** [setup] on the account of the examples: [ID] and [id] are dropped. *)
Lemma setup_Id_once_first_witness :
  isInitialized Example.accountUpsert = false
  /\ fst (example_setup Example.orgToOrg Example.accountUpsert) = Returned tt
  /\ fieldsInQuery (snd (example_setup Example.orgToOrg Example.accountUpsert))
     = ["Id"; "Name"]
  /\ exists rest,
       fieldsInQuery (snd (example_setup Example.orgToOrg Example.accountUpsert))
       = "Id" :: rest
       /\ ~ In "Id" rest
       /\ forall x, In x rest -> toLowerCase x = "id" ->
            x = externalIdInQuery Example.isComplexOr__rField Example.getComplexField
                  (snd (example_setup Example.orgToOrg Example.accountUpsert))
            \/ x = Example.getComplexField (externalId Example.accountUpsert).
Proof.
  split; [reflexivity |]. split; [vm_compute; reflexivity |].
  split; [vm_compute; reflexivity |].
  apply (setup_Id_once_first Example.parseQuery Example.composeQuery
           Example.MULTISELECT_SOQL_KEYWORDS Example.isComplexOr__rField
           Example.getComplexField Example.composeWhereClause
           Example.orgToOrg Example.accountUpsert);
    [reflexivity | vm_compute; reflexivity].
Defined.

(** C2 as the spec states it fails: a [Delete] descriptor whose external id
    is [Name] keeps [Name] in the resolved query. *)
Lemma setup_Delete_keeps_externalId :
  ~ (forall sc s s',
       isInitialized s = false ->
       operationIs (getOperation (operation s)) Delete = true ->
       example_setup sc s = (Returned tt, s') ->
       fieldsInQuery s' = ["Id"]).
Proof.
  intros H.
  specialize (H Example.orgToOrg Example.accountDelete
                (snd (example_setup Example.orgToOrg Example.accountDelete))
                eq_refl eq_refl).
  vm_compute in H. specialize (H eq_refl). discriminate H.
Qed.

Lemma setup_Delete_fields_witness :
  isInitialized Example.accountDelete = false
  /\ operationIs (getOperation (operation Example.accountDelete)) Delete = true
  /\ fst (example_setup Example.orgToOrg Example.accountDelete) = Returned tt
  /\ fieldsInQuery (snd (example_setup Example.orgToOrg Example.accountDelete))
     = ["Id"; "Name"]
  /\ exists dq,
       parsedDeleteQuery (snd (example_setup Example.orgToOrg Example.accountDelete))
       = Some dq
       /\ map field (fields dq) = ["Id"].
Proof.
  split; [reflexivity |]. split; [reflexivity |]. split; [vm_compute; reflexivity |].
  apply (setup_Delete_fields Example.parseQuery Example.composeQuery
           Example.MULTISELECT_SOQL_KEYWORDS Example.isComplexOr__rField
           Example.getComplexField Example.composeWhereClause
           Example.orgToOrg Example.accountDelete);
    [reflexivity | reflexivity | vm_compute; reflexivity].
Defined.

(** C3 on the code.  The account was set up with the external id [Name] and
    the snapshot of the source org has no [Name]: [_validateFields] compares
    [x.name], which a string does not have, with the external id, so it
    throws nothing, warns as for any other field and removes the external id
    from the query. *)
Theorem validateFields_missing_externalId_not_fatal :
  let s := snd (example_setup Example.orgToOrg Example.accountUpsert) in
  let r := example_validateFields Example.accountDescribe true s in
  externalId s = "Name"
  /\ fieldsInQuery s = ["Id"; "Name"]
  /\ Example.isComplexOr__rField "Name" = false
  /\ fieldsMap_has Example.accountDescribe "Name" = false
  /\ fst r = Returned tt
  /\ fieldsInQuery (snd r) = ["Id"]
  /\ option_map logger (script (snd r))
     = Some [Warn fieldSourceDoesNtoExist [Lit "Account"; Lit "Name"]].
Proof. vm_compute. repeat split. Qed.

(** C4 as the spec states it fails: with [Id] in the exclusion list the
    expansion after [setup] leaves no [Id] in the resolved query. *)
Lemma excluded_Id_leaves_query :
  ~ (forall sc s s1 d s2,
       isInitialized s = false ->
       example_setup sc s = (Returned tt, s1) ->
       example_addOrRemmoveFields d s1 = (Returned tt, s2) ->
       count_occ string_dec (fieldsInQuery s2) "Id" = 1).
Proof.
  intros H.
  specialize (H Example.orgToOrg Example.accountWithoutId
                (snd (example_setup Example.orgToOrg Example.accountWithoutId))
                Example.accountDescribe
                (snd (example_addOrRemmoveFields Example.accountDescribe
                        (snd (example_setup Example.orgToOrg Example.accountWithoutId))))
                eq_refl).
  vm_compute in H. specialize (H eq_refl eq_refl). discriminate H.
Qed.

Lemma setup_expansion_mandatory_fields_witness :
  isInitialized Example.accountWithoutId = false
  /\ fst (example_setup Example.orgToOrg Example.accountWithoutId) = Returned tt
  /\ ("Name" = "Id"
      \/ "Name" = externalIdInQuery Example.isComplexOr__rField Example.getComplexField
                    (snd (example_setup Example.orgToOrg Example.accountWithoutId)))
  /\ count_occ string_dec
       (fieldsInQuery (snd (example_setup Example.orgToOrg Example.accountWithoutId)))
       "Name" = 1.
Proof.
  split; [reflexivity |]. split; [vm_compute; reflexivity |].
  split; [right; vm_compute; reflexivity |].
  apply (setup_expansion_mandatory_fields Example.parseQuery Example.composeQuery
           Example.MULTISELECT_SOQL_KEYWORDS
           Example.OBJECTS_NOT_TO_USE_IN_QUERY_MULTISELECT Example.SPECIAL_OBJECTS
           Example.isComplexOr__rField Example.getComplexField
           Example.composeWhereClause
           Example.orgToOrg Example.accountWithoutId
           (snd (example_setup Example.orgToOrg Example.accountWithoutId))
           Example.accountDescribe "Name");
    [reflexivity | vm_compute; reflexivity | right; vm_compute; reflexivity].
Defined.

Lemma setup_Insert_externalId_witness :
  isInitialized Example.contactInsert = false
  /\ operationIs (getOperation (operation Example.contactInsert)) Insert = true
  /\ externalId Example.contactInsert = "Name"
  /\ externalId (snd (example_setup Example.orgToOrg Example.contactInsert)) = "Id".
Proof.
  split; [reflexivity |]. split; [reflexivity |]. split; [reflexivity |].
  apply (setup_Insert_externalId Example.parseQuery Example.composeQuery
           Example.MULTISELECT_SOQL_KEYWORDS Example.isComplexOr__rField
           Example.getComplexField Example.composeWhereClause
           Example.orgToOrg Example.contactInsert);
    reflexivity.
Defined.

(** The contact of the examples lists [Email], which the pattern matches as
    well, and excludes it. *)
Lemma describeAsync_no_excluded_field_witness :
  let s := snd (example_setup Example.orgToOrg Example.contactInsert) in
  isDescribed s = false
  /\ script s = Some (objectsMap_set "Contact" Example.orgToOrg)
  /\ fst (example_describeAsync s) = Returned tt
  /\ fieldsInQuery (snd (example_describeAsync s)) = ["Id"; "FirstName"]
  /\ excludedFields (snd (example_describeAsync s)) = excludedFields s
  /\ forall x, In x (excludedFields s) ->
               ~ In x (fieldsInQuery (snd (example_describeAsync s))).
Proof.
  cbv zeta.
  split; [reflexivity |]. split; [vm_compute; reflexivity |].
  split; [vm_compute; reflexivity |]. split; [vm_compute; reflexivity |].
  apply (describeAsync_no_excluded_field Example.composeQuery
           Example.describeSObjectAsync
           Example.OBJECTS_NOT_TO_USE_IN_QUERY_MULTISELECT Example.SPECIAL_OBJECTS
           Example.isComplexOr__rField
           (objectsMap_set "Contact" Example.orgToOrg)
           (snd (example_setup Example.orgToOrg Example.contactInsert)));
    [reflexivity | vm_compute; reflexivity | left; reflexivity
    | vm_compute; reflexivity].
Defined.

(** The lead of the examples is unknown to the source org: the client's
    failure leaves [describeAsync] as an [OrgMetadataError] for the source. *)
Lemma describeAsync_catch_policy_witness :
  let s := snd (example_setup Example.orgToOrg Example.leadUpsert) in
  let sc := objectsMap_set "Lead" Example.orgToOrg in
  isDescribed s = false
  /\ script s = Some sc
  /\ example_describeAsync s
     = (Thrown (OrgMetadataError (Res objectSourceDoesNotExist [Lit "Lead"])),
        announced sc source s).
Proof.
  cbv zeta.
  split; [reflexivity |]. split; [vm_compute; reflexivity |].
  apply (proj1 (describeAsync_catch_policy Example.composeQuery
                  Example.describeSObjectAsync
                  Example.OBJECTS_NOT_TO_USE_IN_QUERY_MULTISELECT
                  Example.SPECIAL_OBJECTS Example.isComplexOr__rField
                  (objectsMap_set "Lead" Example.orgToOrg)
                  (snd (example_setup Example.orgToOrg Example.leadUpsert))
                  (ExternalError "NOT_FOUND")
                  (announced (objectsMap_set "Lead" Example.orgToOrg) source
                     (snd (example_setup Example.orgToOrg Example.leadUpsert)))
                  eq_refl ltac:(vm_compute; reflexivity)));
    [reflexivity | vm_compute; reflexivity].
Defined.

Lemma setup_twice_noop_witness :
  let s := snd (example_setup Example.orgToOrg Example.accountUpsert) in
  isInitialized s = true
  /\ example_setup Example.fileToFile s = (Returned tt, s).
Proof.
  cbv zeta. split; [vm_compute; reflexivity |].
  apply (setup_twice_noop Example.parseQuery Example.composeQuery
           Example.MULTISELECT_SOQL_KEYWORDS Example.isComplexOr__rField
           Example.getComplexField Example.composeWhereClause).
  vm_compute. reflexivity.
Defined.

Lemma describeAsync_files_only_witness :
  let s := snd (example_setup Example.fileToFile Example.accountUpsert) in
  isDescribed s = false
  /\ script s = Some (objectsMap_set "Account" Example.fileToFile)
  /\ example_describeAsync s = (Returned tt, s)
  /\ fieldsInQueryMap Example.filterMapByArray
       (Nat.iter 3 (fun st => snd (example_describeAsync st)) s) = [].
Proof.
  cbv zeta.
  split; [reflexivity |]. split; [vm_compute; reflexivity |].
  destruct (describeAsync_files_only Example.composeQuery
              Example.describeSObjectAsync
              Example.OBJECTS_NOT_TO_USE_IN_QUERY_MULTISELECT
              Example.SPECIAL_OBJECTS Example.isComplexOr__rField
              Example.filterMapByArray
              (objectsMap_set "Account" Example.fileToFile)
              (snd (example_setup Example.fileToFile Example.accountUpsert))
              eq_refl ltac:(vm_compute; reflexivity) eq_refl eq_refl)
    as [Hrun Hiter].
  split; [exact Hrun |].
  exact (proj2 (proj2 (Hiter 3))).
Defined.

(* ------------------------------------------------------------------ *)
(** ** Examples for the further properties *)

(** The query of the malformed account is no [SELECT]: [setup] throws, and
    a second [setup] returns without parsing. *)
Lemma setup_malformed_query_witness :
  let s := Example.accountMalformed in
  isInitialized s = false
  /\ Example.parseQuery (query s) = Thrown (ParseError "FETCH Account")
  /\ fst (example_setup Example.orgToOrg s)
     = Thrown (CommandInitializationError
                 (Res MalformedQuery
                      [Lit "Account"; Lit "FETCH Account"; Lit "FETCH Account"]))
  /\ forall sc', example_setup sc' (snd (example_setup Example.orgToOrg s))
                 = (Returned tt, snd (example_setup Example.orgToOrg s)).
Proof.
  cbv zeta. split; [reflexivity |]. split; [vm_compute; reflexivity |].
  destruct (setup_malformed_query Example.parseQuery Example.composeQuery
              Example.MULTISELECT_SOQL_KEYWORDS Example.isComplexOr__rField
              Example.getComplexField Example.composeWhereClause
              Example.orgToOrg Example.accountMalformed
              (ParseError "FETCH Account")
              eq_refl ltac:(vm_compute; reflexivity))
    as [Hthrown [_ [_ Hagain]]].
  split; [exact Hthrown | exact Hagain].
Defined.

Lemma setup_malformed_delete_query_witness :
  let s := Example.accountMalformedDelete in
  let pq := {| fields := map getComposedField ["Id"; "Phone"];
               sObject := "Account"; where_ := None; limit := None |} in
  isInitialized s = false
  /\ Example.parseQuery (query s) = Returned pq
  /\ deleteOldData s = true
  /\ Example.parseQuery (deleteQuery s) = Thrown (ParseError "REMOVE Account")
  /\ fst (example_setup Example.orgToOrg s)
     = Thrown (CommandInitializationError
                 (Res MalformedDeleteQuery
                      [Lit "Account"; Lit "REMOVE Account"; Lit "REMOVE Account"]))
  /\ name (snd (example_setup Example.orgToOrg s)) = "Account"
  /\ parsedDeleteQuery (snd (example_setup Example.orgToOrg s)) = None.
Proof.
  cbv zeta. split; [reflexivity |]. split; [vm_compute; reflexivity |].
  split; [reflexivity |]. split; [vm_compute; reflexivity |].
  destruct (setup_malformed_delete_query Example.parseQuery Example.composeQuery
              Example.MULTISELECT_SOQL_KEYWORDS Example.isComplexOr__rField
              Example.getComplexField Example.composeWhereClause
              Example.orgToOrg Example.accountMalformedDelete
              {| fields := map getComposedField ["Id"; "Phone"];
                 sObject := "Account"; where_ := None; limit := None |}
              (ParseError "REMOVE Account")
              eq_refl ltac:(vm_compute; reflexivity) (or_introl eq_refl)
              ltac:(vm_compute; reflexivity))
    as [Hthrown [_ [Hname Hdq]]].
  split; [exact Hthrown |]. split; [exact Hname | exact Hdq].
Defined.

Lemma setup_without_delete_witness :
  let s := Example.accountUpsert in
  let s' := snd (example_setup Example.orgToOrg s) in
  isInitialized s = false
  /\ deleteOldData s = false
  /\ operationIs (getOperation (operation s)) Delete = false
  /\ example_setup Example.orgToOrg s = (Returned tt, s')
  /\ deleteOldData s' = false
  /\ deleteQuery s' = ""
  /\ parsedDeleteQuery s' = None.
Proof.
  cbv zeta. split; [reflexivity |]. split; [reflexivity |]. split; [reflexivity |].
  split; [vm_compute; reflexivity |].
  exact (setup_without_delete Example.parseQuery Example.composeQuery
           Example.MULTISELECT_SOQL_KEYWORDS Example.isComplexOr__rField
           Example.getComplexField Example.composeWhereClause
           Example.orgToOrg Example.accountUpsert
           (snd (example_setup Example.orgToOrg Example.accountUpsert))
           eq_refl eq_refl eq_refl ltac:(vm_compute; reflexivity)).
Defined.

Lemma setup_resolved_query_shape_witness :
  let s := Example.accountUpsert in
  let s' := snd (example_setup Example.orgToOrg s) in
  let pq := {| fields := map getComposedField ["ID"; "Name"; "id"];
               sObject := "Account"; where_ := None; limit := None |} in
  isInitialized s = false
  /\ Example.parseQuery (query s) = Returned pq
  /\ example_setup Example.orgToOrg s = (Returned tt, s')
  /\ exists q sc',
       parsedQuery s' = Some q
       /\ sObject q = "Account" /\ where_ q = None /\ limit q = None
       /\ name s' = "Account"
       /\ query s' = Example.composeQuery q
       /\ script s' = Some sc' /\ In "Account" (objectsMap sc')
       /\ isLimitedQuery s' = false.
Proof.
  cbv zeta. split; [reflexivity |]. split; [vm_compute; reflexivity |].
  split; [vm_compute; reflexivity |].
  exact (setup_resolved_query_shape Example.parseQuery Example.composeQuery
           Example.MULTISELECT_SOQL_KEYWORDS Example.isComplexOr__rField
           Example.getComplexField Example.composeWhereClause
           Example.orgToOrg Example.accountUpsert
           (snd (example_setup Example.orgToOrg Example.accountUpsert))
           {| fields := map getComposedField ["ID"; "Name"; "id"];
              sObject := "Account"; where_ := None; limit := None |}
           eq_refl ltac:(vm_compute; reflexivity) ltac:(vm_compute; reflexivity)).
Defined.

Lemma setup_fields_NoDup_witness :
  let s := Example.accountUpsert in
  let s' := snd (example_setup Example.orgToOrg s) in
  isInitialized s = false
  /\ example_setup Example.orgToOrg s = (Returned tt, s')
  /\ NoDup (fieldsInQuery s').
Proof.
  cbv zeta. split; [reflexivity |]. split; [vm_compute; reflexivity |].
  exact (setup_fields_NoDup Example.parseQuery Example.composeQuery
           Example.MULTISELECT_SOQL_KEYWORDS Example.isComplexOr__rField
           Example.getComplexField Example.composeWhereClause
           Example.orgToOrg Example.accountUpsert
           (snd (example_setup Example.orgToOrg Example.accountUpsert))
           eq_refl ltac:(vm_compute; reflexivity)).
Defined.

(** [Name] is in the resolved query of the account, as a field of the
    parser's query that is kept. *)
Lemma setup_fields_membership_witness :
  let s := Example.accountUpsert in
  let s' := snd (example_setup Example.orgToOrg s) in
  let pq := {| fields := map getComposedField ["ID"; "Name"; "id"];
               sObject := "Account"; where_ := None; limit := None |} in
  isInitialized s = false
  /\ operationIs (getOperation (operation s)) Delete = false
  /\ Example.parseQuery (query s) = Returned pq
  /\ example_setup Example.orgToOrg s = (Returned tt, s')
  /\ In "Name" (fieldsInQuery s').
Proof.
  cbv zeta. split; [reflexivity |]. split; [reflexivity |].
  split; [vm_compute; reflexivity |]. split; [vm_compute; reflexivity |].
  apply (proj2 (setup_fields_membership Example.parseQuery Example.composeQuery
                  Example.MULTISELECT_SOQL_KEYWORDS Example.isComplexOr__rField
                  Example.getComplexField Example.composeWhereClause
                  Example.orgToOrg Example.accountUpsert
                  (snd (example_setup Example.orgToOrg Example.accountUpsert))
                  {| fields := map getComposedField ["ID"; "Name"; "id"];
                     sObject := "Account"; where_ := None; limit := None |}
                  "Name"
                  eq_refl eq_refl ltac:(vm_compute; reflexivity)
                  ltac:(vm_compute; reflexivity))).
  right. left. exists (getComposedField "Name").
  split; [right; left; reflexivity | split; reflexivity].
Defined.

(** No field of the account's query is a keyword: no pattern is recorded. *)
Lemma setup_pattern_recorded_witness :
  let s := Example.accountUpsert in
  let s' := snd (example_setup Example.orgToOrg s) in
  let pq := {| fields := map getComposedField ["ID"; "Name"; "id"];
               sObject := "Account"; where_ := None; limit := None |} in
  isInitialized s = false
  /\ multiselectPattern s = None
  /\ Example.parseQuery (query s) = Returned pq
  /\ example_setup Example.orgToOrg s = (Returned tt, s')
  /\ multiselectPattern s' = None.
Proof.
  cbv zeta. split; [reflexivity |]. split; [reflexivity |].
  split; [vm_compute; reflexivity |]. split; [vm_compute; reflexivity |].
  apply (proj2 (setup_pattern_recorded Example.parseQuery Example.composeQuery
                  Example.MULTISELECT_SOQL_KEYWORDS Example.isComplexOr__rField
                  Example.getComplexField Example.composeWhereClause
                  Example.orgToOrg Example.accountUpsert
                  (snd (example_setup Example.orgToOrg Example.accountUpsert))
                  {| fields := map getComposedField ["ID"; "Name"; "id"];
                     sObject := "Account"; where_ := None; limit := None |}
                  eq_refl eq_refl ltac:(vm_compute; reflexivity)
                  ltac:(vm_compute; reflexivity))).
  intros f [<- | [<- | [<- | []]]]; split; reflexivity.
Defined.

Lemma addOrRemmoveFields_without_pattern_witness :
  let s := snd (example_setup Example.orgToOrg Example.accountUpsert) in
  let q := {| fields := map getComposedField ["Id"; "Name"];
              sObject := "Account"; where_ := None; limit := None |} in
  multiselectPattern s = None
  /\ parsedQuery s = Some q
  /\ fst (example_addOrRemmoveFields Example.contactDescribe s) = Returned tt
  /\ fieldsInQuery (snd (example_addOrRemmoveFields Example.contactDescribe s))
     = ["Id"; "Name"].
Proof.
  cbv zeta. split; [vm_compute; reflexivity |]. split; [vm_compute; reflexivity |].
  exact (addOrRemmoveFields_without_pattern Example.composeQuery
           Example.OBJECTS_NOT_TO_USE_IN_QUERY_MULTISELECT
           Example.contactDescribe
           (snd (example_setup Example.orgToOrg Example.accountUpsert))
           {| fields := map getComposedField ["Id"; "Name"];
              sObject := "Account"; where_ := None; limit := None |}
           ltac:(vm_compute; reflexivity) ltac:(vm_compute; reflexivity)).
Defined.

(** The contact's pattern selects [FirstName], which is creatable and not
    in the query. *)
Lemma addOrRemmoveFields_membership_witness :
  let s := snd (example_setup Example.orgToOrg Example.contactInsert) in
  let s' := snd (example_addOrRemmoveFields Example.contactDescribe s) in
  multiselectPattern s = Some [("creatable", true)]
  /\ example_addOrRemmoveFields Example.contactDescribe s = (Returned tt, s')
  /\ In "FirstName" (fieldsInQuery s')
  /\ ~ In "SystemField" (fieldsInQuery s').
Proof.
  cbv zeta. split; [vm_compute; reflexivity |]. split; [vm_compute; reflexivity |].
  split.
  - apply (proj2 (addOrRemmoveFields_membership Example.composeQuery
                    Example.OBJECTS_NOT_TO_USE_IN_QUERY_MULTISELECT
                    Example.contactDescribe
                    (snd (example_setup Example.orgToOrg Example.contactInsert))
                    (snd (example_addOrRemmoveFields Example.contactDescribe
                            (snd (example_setup Example.orgToOrg
                                    Example.contactInsert))))
                    [("creatable", true)] "FirstName"
                    ltac:(vm_compute; reflexivity) ltac:(vm_compute; reflexivity))).
    split.
    + vm_compute. intuition discriminate.
    + right. exists (snd (Example.describeField "FirstName" true)).
      split; [right; left; reflexivity |].
      split; [reflexivity |]. split; vm_compute; reflexivity.
  - vm_compute. intuition discriminate.
Defined.

(** With [all] in the query of the contact, [FirstName] is added. *)
Lemma addOrRemmoveFields_all_witness :
  let s := snd (example_setup Example.orgToOrg Example.contactAll) in
  let q := {| fields := map getComposedField ["Id"; "Email"];
              sObject := "Contact"; where_ := None; limit := None |} in
  let fd := snd (Example.describeField "FirstName" true) in
  multiselectPattern s = Some [("all", true)]
  /\ parsedQuery s = Some q
  /\ In fd (fieldsMap_values Example.contactDescribe)
  /\ In "FirstName"
       (fieldsInQuery (snd (example_addOrRemmoveFields Example.contactDescribe s))).
Proof.
  cbv zeta. split; [vm_compute; reflexivity |]. split; [vm_compute; reflexivity |].
  split; [right; left; reflexivity |].
  exact (addOrRemmoveFields_all Example.composeQuery
           Example.OBJECTS_NOT_TO_USE_IN_QUERY_MULTISELECT
           Example.contactDescribe
           (snd (example_setup Example.orgToOrg Example.contactAll))
           {| fields := map getComposedField ["Id"; "Email"];
              sObject := "Contact"; where_ := None; limit := None |}
           [("all", true)]
           (snd (Example.describeField "FirstName" true))
           ltac:(vm_compute; reflexivity) eq_refl ltac:(vm_compute; reflexivity)
           (or_intror (or_introl eq_refl)) ltac:(vm_compute; reflexivity)
           (fun H : In "FirstName" [] => H)).
Defined.

Lemma addOrRemmoveFields_NoDup_witness :
  let s := snd (example_setup Example.orgToOrg Example.contactInsert) in
  NoDup (fieldsInQuery s)
  /\ NoDup (map SFieldDescribe.name (fieldsMap_values Example.contactDescribe))
  /\ NoDup (fieldsInQuery
              (snd (example_addOrRemmoveFields Example.contactDescribe s))).
Proof.
  cbv zeta.
  assert (H1 : NoDup (fieldsInQuery
                        (snd (example_setup Example.orgToOrg Example.contactInsert)))).
  { vm_compute. repeat constructor; simpl; intuition discriminate. }
  assert (H2 : NoDup (map SFieldDescribe.name
                        (fieldsMap_values Example.contactDescribe))).
  { vm_compute. repeat constructor; simpl; intuition discriminate. }
  split; [exact H1 |]. split; [exact H2 |].
  exact (addOrRemmoveFields_NoDup Example.composeQuery
           Example.OBJECTS_NOT_TO_USE_IN_QUERY_MULTISELECT
           Example.contactDescribe
           (snd (example_setup Example.orgToOrg Example.contactInsert)) H1 H2).
Defined.

(** The snapshot of the account has no [Name]: it is removed with one
    warning. *)
Lemma validateFields_prunes_witness :
  let s := snd (example_setup Example.orgToOrg Example.accountUpsert) in
  let sc := objectsMap_set "Account" Example.orgToOrg in
  let q := {| fields := map getComposedField ["Id"; "Name"];
              sObject := "Account"; where_ := None; limit := None |} in
  let r := example_validateFields Example.accountDescribe true s in
  script s = Some sc
  /\ parsedQuery s = Some q
  /\ fields q <> []
  /\ isExtraObject s = false
  /\ isSpecialObject Example.SPECIAL_OBJECTS s = false
  /\ fst r = Returned tt
  /\ fieldsInQuery (snd r) = ["Id"]
  /\ option_map logger (script (snd r))
     = Some [Warn fieldSourceDoesNtoExist [Lit "Account"; Lit "Name"]].
Proof.
  cbv zeta. split; [vm_compute; reflexivity |]. split; [vm_compute; reflexivity |].
  split; [discriminate |]. split; [reflexivity |]. split; [vm_compute; reflexivity |].
  destruct (validateFields_prunes Example.SPECIAL_OBJECTS Example.isComplexOr__rField
              (objectsMap_set "Account" Example.orgToOrg)
              {| fields := map getComposedField ["Id"; "Name"];
                 sObject := "Account"; where_ := None; limit := None |}
              Example.accountDescribe true
              (snd (example_setup Example.orgToOrg Example.accountUpsert))
              ltac:(vm_compute; reflexivity) ltac:(vm_compute; reflexivity)
              ltac:(discriminate) eq_refl ltac:(vm_compute; reflexivity))
    as [Hret [Hfields [_ Hlog]]].
  split; [exact Hret |]. split; [exact Hfields | exact Hlog].
Defined.

(** A descriptor that holds a script and has no parsed query: the empty
    field list is fatal. *)
Lemma validateFields_rule_order_witness :
  let s := set_script (Some Example.orgToOrg) Example.accountMalformed in
  script s = Some Example.orgToOrg
  /\ fieldsInQuery s = []
  /\ example_validateFields Example.accountDescribe true s
     = (Thrown (CommandInitializationError
                  (Res missingFieldsToProcess [Lit "Account"])), s).
Proof.
  cbv zeta. split; [reflexivity |]. split; [reflexivity |].
  exact (proj1 (validateFields_rule_order Example.SPECIAL_OBJECTS
                  Example.isComplexOr__rField Example.orgToOrg
                  Example.accountDescribe true
                  (set_script (Some Example.orgToOrg) Example.accountMalformed)
                  eq_refl) eq_refl).
Defined.

Lemma validateFields_query_text_stale_witness :
  let s := snd (example_setup Example.orgToOrg Example.accountUpsert) in
  let sc := objectsMap_set "Account" Example.orgToOrg in
  let q := {| fields := map getComposedField ["Id"; "Name"];
              sObject := "Account"; where_ := None; limit := None |} in
  let r := example_validateFields Example.accountDescribe true s in
  script s = Some sc
  /\ parsedQuery s = Some q
  /\ isExtraObject s = false
  /\ isSpecialObject Example.SPECIAL_OBJECTS s = false
  /\ In "Name" (fieldsInQuery s)
  /\ Example.isComplexOr__rField "Name" = false
  /\ fieldsMap_has Example.accountDescribe "Name" = false
  /\ fst r = Returned tt
  /\ ~ In "Name" (fieldsInQuery (snd r))
  /\ query (snd r) = "SELECT Id, Name FROM Account".
Proof.
  cbv zeta. split; [vm_compute; reflexivity |]. split; [vm_compute; reflexivity |].
  split; [reflexivity |]. split; [vm_compute; reflexivity |].
  split; [vm_compute; right; left; reflexivity |].
  split; [vm_compute; reflexivity |]. split; [vm_compute; reflexivity |].
  exact (validateFields_query_text_stale Example.SPECIAL_OBJECTS
           Example.isComplexOr__rField
           (objectsMap_set "Account" Example.orgToOrg)
           {| fields := map getComposedField ["Id"; "Name"];
              sObject := "Account"; where_ := None; limit := None |}
           Example.accountDescribe true
           (snd (example_setup Example.orgToOrg Example.accountUpsert)) "Name"
           ltac:(vm_compute; reflexivity) ltac:(vm_compute; reflexivity)
           eq_refl ltac:(vm_compute; reflexivity)
           ltac:(vm_compute; right; left; reflexivity)
           ltac:(vm_compute; reflexivity) ltac:(vm_compute; reflexivity)).
Defined.

Lemma describeAsync_described_after_fetch_witness :
  let s := snd (example_setup Example.orgToOrg Example.accountUpsert) in
  let sc := objectsMap_set "Account" Example.orgToOrg in
  isDescribed s = false
  /\ script s = Some sc
  /\ media (sourceOrg sc) = Org
  /\ Example.describeSObjectAsync (sourceOrg sc) (name s)
     = Returned Example.accountDescribe
  /\ sourceSObjectDescribe (snd (example_describeAsync s))
     = Some Example.accountDescribe
  /\ example_describeAsync (snd (example_describeAsync s))
     = (Returned tt, snd (example_describeAsync s)).
Proof.
  cbv zeta. split; [reflexivity |]. split; [vm_compute; reflexivity |].
  split; [reflexivity |]. split; [vm_compute; reflexivity |].
  exact (describeAsync_described_after_fetch Example.composeQuery
           Example.describeSObjectAsync
           Example.OBJECTS_NOT_TO_USE_IN_QUERY_MULTISELECT Example.SPECIAL_OBJECTS
           Example.isComplexOr__rField
           (objectsMap_set "Account" Example.orgToOrg)
           (snd (example_setup Example.orgToOrg Example.accountUpsert))
           Example.accountDescribe
           eq_refl ltac:(vm_compute; reflexivity) eq_refl
           ltac:(vm_compute; reflexivity)).
Defined.

Lemma describeAsync_after_malformed_query_witness :
  let s0 := Example.accountMalformed in
  let s := snd (example_setup Example.orgToOrg s0) in
  isInitialized s0 = false
  /\ isDescribed s0 = false
  /\ parsedQuery s0 = None
  /\ Example.parseQuery (query s0) = Thrown (ParseError "FETCH Account")
  /\ media (sourceOrg Example.orgToOrg) = Org
  /\ Example.describeSObjectAsync (sourceOrg Example.orgToOrg) (name s0)
     = Returned Example.accountDescribe
  /\ fst (example_describeAsync s)
     = Thrown (OrgMetadataError (Res objectSourceDoesNotExist [Lit "Account"]))
  /\ isDescribed (snd (example_describeAsync s)) = true.
Proof.
  cbv zeta. split; [reflexivity |]. split; [reflexivity |]. split; [reflexivity |].
  split; [vm_compute; reflexivity |]. split; [reflexivity |].
  split; [vm_compute; reflexivity |].
  exact (describeAsync_after_malformed_query Example.parseQuery Example.composeQuery
           Example.describeSObjectAsync Example.MULTISELECT_SOQL_KEYWORDS
           Example.OBJECTS_NOT_TO_USE_IN_QUERY_MULTISELECT Example.SPECIAL_OBJECTS
           Example.isComplexOr__rField Example.getComplexField
           Example.composeWhereClause
           Example.orgToOrg Example.accountMalformed (ParseError "FETCH Account")
           Example.accountDescribe
           eq_refl eq_refl eq_refl ltac:(vm_compute; reflexivity) eq_refl
           ltac:(vm_compute; reflexivity)).
Defined.

Lemma describeAsync_source_fetch_fails_witness :
  let s := snd (example_setup Example.orgToOrg Example.leadUpsert) in
  let sc := objectsMap_set "Lead" Example.orgToOrg in
  isDescribed s = false
  /\ script s = Some sc
  /\ media (sourceOrg sc) = Org
  /\ Example.describeSObjectAsync (sourceOrg sc) (name s)
     = Thrown (ExternalError "NOT_FOUND")
  /\ fst (example_describeAsync s)
     = Thrown (OrgMetadataError (Res objectSourceDoesNotExist [Lit "Lead"]))
  /\ isDescribed (snd (example_describeAsync s)) = false.
Proof.
  cbv zeta. split; [reflexivity |]. split; [vm_compute; reflexivity |].
  split; [reflexivity |]. split; [vm_compute; reflexivity |].
  destruct (describeAsync_source_fetch_fails Example.composeQuery
              Example.describeSObjectAsync
              Example.OBJECTS_NOT_TO_USE_IN_QUERY_MULTISELECT Example.SPECIAL_OBJECTS
              Example.isComplexOr__rField
              (objectsMap_set "Lead" Example.orgToOrg)
              (snd (example_setup Example.orgToOrg Example.leadUpsert))
              (ExternalError "NOT_FOUND")
              eq_refl ltac:(vm_compute; reflexivity) eq_refl
              ltac:(vm_compute; reflexivity))
    as [Hrun Hdescribed].
  split; [rewrite Hrun; vm_compute; reflexivity | exact Hdescribed].
Defined.

(** The account's external id [Name] is not in the snapshot. *)
Lemma hasAutonumberExternalId_after_describe_witness :
  let s := snd (example_setup Example.orgToOrg Example.accountUpsert) in
  let sc := objectsMap_set "Account" Example.orgToOrg in
  isDescribed s = false
  /\ script s = Some sc
  /\ media (sourceOrg sc) = Org
  /\ Example.describeSObjectAsync (sourceOrg sc) (name s)
     = Returned Example.accountDescribe
  /\ fieldsMap_has Example.accountDescribe (externalId s) = false
  /\ hasAutonumberExternalId s = Returned false
  /\ hasAutonumberExternalId (snd (example_describeAsync s)) = Thrown TypeError.
Proof.
  cbv zeta. split; [reflexivity |]. split; [vm_compute; reflexivity |].
  split; [reflexivity |]. split; [vm_compute; reflexivity |].
  split; [vm_compute; reflexivity |].
  exact (hasAutonumberExternalId_after_describe Example.composeQuery
           Example.describeSObjectAsync
           Example.OBJECTS_NOT_TO_USE_IN_QUERY_MULTISELECT Example.SPECIAL_OBJECTS
           Example.isComplexOr__rField
           (objectsMap_set "Account" Example.orgToOrg)
           (snd (example_setup Example.orgToOrg Example.accountUpsert))
           Example.accountDescribe
           eq_refl ltac:(vm_compute; reflexivity) eq_refl
           ltac:(vm_compute; reflexivity) ltac:(vm_compute; reflexivity)).
Defined.

Lemma describeAsync_postcondition_witness :
  let s := snd (example_setup Example.orgToOrg Example.contactInsert) in
  let sc := objectsMap_set "Contact" Example.orgToOrg in
  let s' := snd (example_describeAsync s) in
  isDescribed s = false
  /\ script s = Some sc
  /\ media (sourceOrg sc) = Org
  /\ example_describeAsync s = (Returned tt, s')
  /\ exists src tgt,
       sourceSObjectDescribe s' = Some src
       /\ targetSObjectDescribe s' = Some tgt
       /\ (media (sourceOrg sc) = Org ->
           Example.describeSObjectAsync (sourceOrg sc) (name s) = Returned src)
       /\ (media (targetOrg sc) = Org ->
           Example.describeSObjectAsync (targetOrg sc) (name s) = Returned tgt)
       /\ (media (sourceOrg sc) = File \/ media (targetOrg sc) = File -> src = tgt)
       /\ (isExtraObject s = false ->
           isSpecialObject Example.SPECIAL_OBJECTS s = false ->
           forall x, In x (fieldsInQuery s') ->
                     Example.isComplexOr__rField x = true
                     \/ (fieldsMap_has src x = true /\ fieldsMap_has tgt x = true)).
Proof.
  cbv zeta. split; [reflexivity |]. split; [vm_compute; reflexivity |].
  split; [reflexivity |]. split; [vm_compute; reflexivity |].
  exact (describeAsync_postcondition Example.composeQuery
           Example.describeSObjectAsync
           Example.OBJECTS_NOT_TO_USE_IN_QUERY_MULTISELECT Example.SPECIAL_OBJECTS
           Example.isComplexOr__rField
           (objectsMap_set "Contact" Example.orgToOrg)
           (snd (example_setup Example.orgToOrg Example.contactInsert))
           (snd (example_describeAsync
                   (snd (example_setup Example.orgToOrg Example.contactInsert))))
           eq_refl ltac:(vm_compute; reflexivity) (or_introl eq_refl)
           ltac:(vm_compute; reflexivity)).
Defined.

Lemma setup_normalizes_operation_witness :
  let s := Example.accountUpsert in
  isInitialized s = false
  /\ operation s = OpString (OPERATION_name Upsert)
  /\ operation (snd (example_setup Example.orgToOrg s)) = OpEnum Upsert
  /\ strOperation (snd (example_setup Example.orgToOrg s)) = Returned "Upsert".
Proof.
  cbv zeta. split; [reflexivity |]. split; [reflexivity |].
  exact (setup_normalizes_operation Example.parseQuery Example.composeQuery
           Example.MULTISELECT_SOQL_KEYWORDS Example.isComplexOr__rField
           Example.getComplexField Example.composeWhereClause
           Example.orgToOrg Example.accountUpsert Upsert
           eq_refl (or_introl eq_refl)).
Defined.

(** The account to delete has no delete query of its own: it is derived
    from the resolved query. *)
Lemma setup_derived_delete_query_witness :
  let s := Example.accountDelete in
  let s' := snd (example_setup Example.orgToOrg s) in
  let pq := {| fields := map getComposedField ["Id"; "Phone"];
               sObject := "Account"; where_ := None; limit := None |} in
  isInitialized s = false
  /\ Example.parseQuery (query s) = Returned pq
  /\ operationIs (getOperation (operation s)) Delete = true
  /\ example_setup Example.orgToOrg s = (Returned tt, s')
  /\ exists dq,
       parsedDeleteQuery s' = Some dq
       /\ deleteQuery s' = Example.composeQuery dq
       /\ deleteOldData s' = true
       /\ fields dq = [getComposedField "Id"]
       /\ limit dq = None.
Proof.
  cbv zeta. split; [reflexivity |]. split; [vm_compute; reflexivity |].
  split; [reflexivity |]. split; [vm_compute; reflexivity |].
  destruct (setup_derived_delete_query Example.parseQuery Example.composeQuery
              Example.MULTISELECT_SOQL_KEYWORDS Example.isComplexOr__rField
              Example.getComplexField Example.composeWhereClause
              Example.orgToOrg Example.accountDelete
              (snd (example_setup Example.orgToOrg Example.accountDelete))
              {| fields := map getComposedField ["Id"; "Phone"];
                 sObject := "Account"; where_ := None; limit := None |}
              eq_refl ltac:(vm_compute; reflexivity) (or_intror eq_refl)
              ltac:(vm_compute; reflexivity))
    as [parsedText [dq [Htext [Hpdq [Hdq [Hold [Hfields [_ [Hlimit _]]]]]]]]].
  exists dq. split; [exact Hpdq |]. split; [exact Hdq |]. split; [exact Hold |].
  split; [exact Hfields |].
  rewrite Hlimit. vm_compute in Htext. injection Htext as <-. reflexivity.
Defined.

Lemma describeAsync_errors_witness :
  let s := snd (example_setup Example.orgToOrg Example.leadUpsert) in
  let sc := objectsMap_set "Lead" Example.orgToOrg in
  let ex := OrgMetadataError (Res objectSourceDoesNotExist [Lit "Lead"]) in
  script s = Some sc
  /\ example_describeAsync s = (Thrown ex, snd (example_describeAsync s))
  /\ (isCommandInitializationError ex = true
      \/ ex = OrgMetadataError (Res objectSourceDoesNotExist [Lit (name s)])
      \/ ex = OrgMetadataError (Res objectTargetDoesNotExist [Lit (name s)])).
Proof.
  cbv zeta. split; [vm_compute; reflexivity |]. split; [vm_compute; reflexivity |].
  exact (describeAsync_errors Example.composeQuery Example.describeSObjectAsync
           Example.OBJECTS_NOT_TO_USE_IN_QUERY_MULTISELECT Example.SPECIAL_OBJECTS
           Example.isComplexOr__rField
           (objectsMap_set "Lead" Example.orgToOrg)
           (snd (example_setup Example.orgToOrg Example.leadUpsert))
           (OrgMetadataError (Res objectSourceDoesNotExist [Lit "Lead"]))
           (snd (example_describeAsync
                   (snd (example_setup Example.orgToOrg Example.leadUpsert))))
           ltac:(vm_compute; reflexivity) ltac:(vm_compute; reflexivity)).
Defined.
